(** * RoboDK C++ API client (robodk_api.cpp): protocol engine

    A shallow embedding of the private protocol layer of
    [src/C++/Example/robodk_api.cpp] (class [RoboDK], class [Item], class
    [Mat], class [tJoints]) together with the properties of that layer.

    Conventions.
    - Integers of the program ([qint32], [quint64], [int]) are [Z]; the
      wrap-around of a fixed width is written out where a value is put on
      the wire or taken from it.
    - Bytes on the wire are [Byte.byte].
    - IEEE-754 values are their bit patterns: a [double] is a [Z] in
      [0, 2^64), a [float] a [Z] in [0, 2^32).
    - The socket ([QTcpSocket]) is a record: the bytes already buffered, a
      script of what every later [waitForReadyRead] will deliver, and a
      transcript of the reads, writes and waits performed so far.
    - Methods of [RoboDK] are state-passing functions on the record
      [RoboDK]; [throw 0] is an outcome of its own. *)

From Stdlib Require Import String Ascii.
From Stdlib Require Import Strings.Byte.
From Stdlib Require Import ZArith List Lia Bool.
From Stdlib Require Import DecimalString.
Import ListNotations.
Local Open Scope Z_scope.

(* ================================================================== *)
(** * Bytes and big-endian fields (QDataStream, default byte order)    *)
(* ================================================================== *)

Module Wire.

Definition Z_of_byte (b : byte) : Z := Z.of_N (Byte.to_N b).

Definition byte_of_Z (z : Z) : byte :=
  match Byte.of_N (Z.to_N (z mod 256)) with
  | Some b => b
  | None => x00
  end.

(** [be_encode n z]: the low [n] bytes of [z], most significant first. *)
Fixpoint be_encode (n : nat) (z : Z) : list byte :=
  match n with
  | O => []
  | S k => be_encode k (z / 256) ++ [byte_of_Z z]
  end.

(** Unsigned value of a big-endian byte string. *)
Definition be_decode (bs : list byte) : Z :=
  fold_left (fun acc b => acc * 256 + Z_of_byte b) bs 0.

(** Two's complement reading of a [w]-bit pattern. *)
Definition to_signed (w : Z) (z : Z) : Z :=
  if z <? 2 ^ (w - 1) then z else z - 2 ^ w.

Definition bytes_of_string (s : string) : list byte := list_byte_of_string s.

End Wire.
Import Wire.

(* ================================================================== *)
(** * IEEE-754 values and the conversions C++ inserts                  *)
(* ================================================================== *)

(** [Mat] derives from [QMatrix4x4], whose entries are single precision.
    [Mat::Get] returns [row(i)[j]] as a [double] and [Mat::Set] assigns a
    [double] to an entry of a [QVector4D]; the two conversions are written
    out here on the bit patterns (IEEE-754 convertFormat, round to nearest
    even, a signalling NaN delivered as a quiet one). *)

Module IEEE.

Definition float := Z.    (* binary32 pattern: 1 + 8 + 23 bits  *)
Definition double := Z.   (* binary64 pattern: 1 + 11 + 52 bits *)

Definition is_float (f : float) : Prop := 0 <= f < 2 ^ 32.
Definition is_double (d : double) : Prop := 0 <= d < 2 ^ 64.

(** Sets the quiet bit (the top bit) of a [w]-bit NaN payload. *)
Definition quiet (w : Z) (m : Z) : Z :=
  if m <? 2 ^ (w - 1) then m + 2 ^ (w - 1) else m.

(** [x / 2^sh] rounded to the nearest integer, ties to even. *)
Definition round_half_even (x sh : Z) : Z :=
  let q := x / 2 ^ sh in
  let r := x mod 2 ^ sh in
  if (2 ^ sh <? 2 * r) || ((2 * r =? 2 ^ sh) && Z.odd q) then q + 1 else q.

(** float -> double (exact). *)
Definition float_to_double (f : float) : double :=
  let s := f / 2 ^ 31 in
  let e := (f / 2 ^ 23) mod 2 ^ 8 in
  let m := f mod 2 ^ 23 in
  if e =? 255 then
    s * 2 ^ 63 + 2047 * 2 ^ 52 + (if m =? 0 then 0 else quiet 23 m * 2 ^ 29)
  else if e =? 0 then
    if m =? 0 then s * 2 ^ 63
    else
      (* subnormal float: m * 2^-149, a normal double *)
      let k := Z.log2 m in
      s * 2 ^ 63 + (k + 874) * 2 ^ 52 + (m - 2 ^ k) * 2 ^ (52 - k)
  else s * 2 ^ 63 + (e + 896) * 2 ^ 52 + m * 2 ^ 29.

(** double -> float (round to nearest even, overflow to infinity). *)
Definition double_to_float (d : double) : float :=
  let s := d / 2 ^ 63 in
  let e := (d / 2 ^ 52) mod 2 ^ 11 in
  let m := d mod 2 ^ 52 in
  if e =? 2047 then
    s * 2 ^ 31 + 255 * 2 ^ 23 + (if m =? 0 then 0 else quiet 23 (m / 2 ^ 29))
  else
    (* |d| = sig * 2^ex *)
    let sig := if e =? 0 then m else 2 ^ 52 + m in
    let ex := Z.max e 1 - 1075 in
    if sig =? 0 then s * 2 ^ 31
    else
      (* exponent of the last place kept by a float *)
      let q := Z.max (Z.log2 sig + ex - 23) (-149) in
      let mant := round_half_even sig (q - ex) in
      s * 2 ^ 31 + Z.min ((q + 149) * 2 ^ 23 + mant) (255 * 2 ^ 23).

(** The float a conversion delivers for [f]: [f] itself, with the quiet bit
    set when [f] is a NaN. *)
Definition canonical (f : float) : float :=
  let e := (f / 2 ^ 23) mod 2 ^ 8 in
  let m := f mod 2 ^ 23 in
  if (e =? 255) && negb (m =? 0) then f - m + quiet 23 m else f.

Definition float_zero : float := 0.            (* 0.0f *)
Definition float_one : float := 1065353216.    (* 1.0f = 0x3F800000 *)
Definition double_zero : double := 0.

End IEEE.
Import IEEE.


(* ================================================================== *)
(** * Value types: Mat, tJoints, Item                                  *)
(* ================================================================== *)

(** [QVector4D]: four floats, indexed by [operator[]]. *)
Record QVector4D := mkVec { vx : float; vy : float; vz : float; vw : float }.

Definition vec_get (v : QVector4D) (j : Z) : float :=
  match j with
  | 0 => vx v | 1 => vy v | 2 => vz v | 3 => vw v
  | _ => float_zero            (* outside 0..3: an assertion of Qt *)
  end.

Definition vec_set (v : QVector4D) (j : Z) (x : float) : QVector4D :=
  match j with
  | 0 => mkVec x (vy v) (vz v) (vw v)
  | 1 => mkVec (vx v) x (vz v) (vw v)
  | 2 => mkVec (vx v) (vy v) x (vw v)
  | 3 => mkVec (vx v) (vy v) (vz v) x
  | _ => v
  end.

(** [Mat] is a [QMatrix4x4]; it is kept by rows, which is all the program
    uses ([row], [setRow]). *)
Record Mat := mkMat { row0 : QVector4D; row1 : QVector4D; row2 : QVector4D; row3 : QVector4D }.

Definition row (m : Mat) (i : Z) : QVector4D :=
  match i with
  | 0 => row0 m | 1 => row1 m | 2 => row2 m | 3 => row3 m
  | _ => mkVec float_zero float_zero float_zero float_zero
  end.

Definition setRow (m : Mat) (i : Z) (v : QVector4D) : Mat :=
  match i with
  | 0 => mkMat v (row1 m) (row2 m) (row3 m)
  | 1 => mkMat (row0 m) v (row2 m) (row3 m)
  | 2 => mkMat (row0 m) (row1 m) v (row3 m)
  | 3 => mkMat (row0 m) (row1 m) (row2 m) v
  | _ => m
  end.

Definition setToIdentity : Mat :=
  mkMat (mkVec float_one float_zero float_zero float_zero)
        (mkVec float_zero float_one float_zero float_zero)
        (mkVec float_zero float_zero float_one float_zero)
        (mkVec float_zero float_zero float_zero float_one).

(** [Mat::Mat()]: [QMatrix4x4()] followed by [setToIdentity()]. *)
Definition Mat_new : Mat := setToIdentity.

(** [Mat::Set(i, j, value)]: copy row [i], assign entry [j], put it back. *)
Definition Mat_Set (m : Mat) (i j : Z) (value : double) : Mat :=
  let rw := row m i in
  let rw := vec_set rw j (double_to_float value) in
  setRow m i rw.

(** [Mat::Get(i, j)]: [row(i)[j]], returned as a double. *)
Definition Mat_Get (m : Mat) (i j : Z) : double :=
  float_to_double (vec_get (row m i) j).

Definition is_vec (v : QVector4D) : Prop :=
  is_float (vx v) /\ is_float (vy v) /\ is_float (vz v) /\ is_float (vw v).

(** Every entry of the matrix is a 32-bit pattern. *)
Definition is_Mat (m : Mat) : Prop :=
  is_vec (row0 m) /\ is_vec (row1 m) /\ is_vec (row2 m) /\ is_vec (row3 m).

Definition vec_map (g : float -> float) (v : QVector4D) : QVector4D :=
  mkVec (g (vx v)) (g (vy v)) (g (vz v)) (g (vw v)).

(** The matrix with [g] applied to every entry. *)
Definition Mat_map (g : float -> float) (m : Mat) : Mat :=
  mkMat (vec_map g (row0 m)) (vec_map g (row1 m)) (vec_map g (row2 m))
        (vec_map g (row3 m)).

(** The sixteen doubles of a pose, column after column: for each column
    [j] the entries of the rows [i = 0..3]. *)
Definition pose_values (m : Mat) : list double :=
  flat_map (fun j => map (fun i => Mat_Get m i j) [0; 1; 2; 3]) [0; 1; 2; 3].

(** The same doubles as the 128 bytes of the wire. *)
Definition pose_wire (m : Mat) : list byte :=
  flat_map (be_encode 8) (pose_values m).

(** [tJoints]: the array [Values] and the count [nDOFs] of those in use. *)
Record tJoints := mkJoints { Values : list double; nDOFs : Z }.

(** [Item]: the remote identifier and the type tag.  The third member,
    [_RDK], points to the [RoboDK] object the item talks through: in this
    development it is the state the item's methods are applied to. *)
Record Item := mkItem { _PTR : Z; _TYPE : Z }.

(** Modelled from the spec: the default arguments of the constructor
    [Item(RoboDK *rdk, quint64 ptr, qint32 type)], declared in the header
    [robodk_api.h], which is not among the sources: identifier [0] (an
    invalid reference) and the type tag [-1] (unknown type). *)
Definition Item_new : Item := mkItem 0 (-1).

(** [values[i] = v] on an array of known extent; a store outside the extent
    (undefined in C++) leaves the array as it is. *)
Fixpoint store (values : list double) (i : nat) (v : double) : list double :=
  match values, i with
  | [], _ => []
  | _ :: rest, O => v :: rest
  | x :: rest, S k => x :: store rest k v
  end.

(* ================================================================== *)
(** * The socket                                                       *)
(* ================================================================== *)

(** What one call of [waitForReadyRead] meets: new bytes from the peer, or
    nothing until the timeout expires. *)
Inductive Arrival :=
| Data (bs : list byte)
| Silence.

(** What has been done on a socket, oldest first. *)
Inductive IOEvent :=
| Written (bs : list byte)           (* handed to [write] or to [ds << v] *)
| Taken (bs : list byte)             (* removed from the read buffer      *)
| Waited (msecs : Z) (ready : bool). (* one [waitForReadyRead(msecs)]     *)

(** [QTcpSocket].  The peer does not close the connection on its own:
    [connected] changes only when the client replaces the socket. *)
Record QTcpSocket := mkSocket {
  connected : bool;            (* [state() == ConnectedState], [isOpen()] *)
  buffered : list byte;        (* received, not yet read                  *)
  peer : list Arrival;         (* what the later waits will meet          *)
  transcript : list IOEvent
}.

Module Socket.

Definition LF : byte := x0a.

Definition isOpen (c : QTcpSocket) : bool := connected c.

Definition bytesAvailable (c : QTcpSocket) : Z := Z.of_nat (length (buffered c)).

Definition canReadLine (c : QTcpSocket) : bool :=
  existsb (Byte.eqb LF) (buffered c).

Definition log (e : IOEvent) (c : QTcpSocket) : QTcpSocket :=
  mkSocket (connected c) (buffered c) (peer c) (transcript c ++ [e]).

Definition waitForReadyRead (msecs : Z) (c : QTcpSocket) : bool * QTcpSocket :=
  match peer c with
  | Data bs :: later =>
      (true, mkSocket (connected c) (buffered c ++ bs) later
                      (transcript c ++ [Waited msecs true]))
  | Silence :: later =>
      (false, mkSocket (connected c) (buffered c) later
                       (transcript c ++ [Waited msecs false]))
  | [] => (false, log (Waited msecs false) c)
  end.

(** [write]: nothing is written on a socket that is not open. *)
Definition write (bs : list byte) (c : QTcpSocket) : QTcpSocket :=
  if isOpen c then log (Written bs) c else c.

(** [read(n)]: at most [n] bytes, fewer when fewer are buffered. *)
Definition read (n : nat) (c : QTcpSocket) : list byte * QTcpSocket :=
  let got := firstn n (buffered c) in
  (got, mkSocket (connected c) (skipn n (buffered c)) (peer c)
                 (transcript c ++ [Taken got])).

Definition readAll (c : QTcpSocket) : list byte * QTcpSocket :=
  read (length (buffered c)) c.

(** Length of the first line of [bs], its terminator included; all of [bs]
    when there is no terminator. *)
Fixpoint line_length (bs : list byte) : nat :=
  match bs with
  | [] => O
  | b :: rest => if Byte.eqb LF b then 1%nat else S (line_length rest)
  end.

Definition readLine (c : QTcpSocket) : list byte * QTcpSocket :=
  read (line_length (buffered c)) c.

(** [ds >> v] for a field of [n] bytes: the bytes are taken from the
    device; with fewer than [n] the stream delivers zero. *)
Definition stream_get (n : nat) (c : QTcpSocket) : Z * QTcpSocket :=
  let (got, c') := read n c in
  (if Nat.eqb (length got) n then be_decode got else 0, c').

(** [ds << v] for a field of [n] bytes. *)
Definition stream_put (n : nat) (v : Z) (c : QTcpSocket) : QTcpSocket :=
  write (be_encode n v) c.

(** The guard every fixed-size receive opens with:
    [if (bytesAvailable() < size) { waitForReadyRead(_TIMEOUT);
         if (bytesAvailable() < size) return <failure>; }].
    [true] when [size] bytes are there to be read. *)
Definition await (size : Z) (timeout : Z) (c : QTcpSocket) : bool * QTcpSocket :=
  if bytesAvailable c <? size then
    let (_, c') := waitForReadyRead timeout c in
    (negb (bytesAvailable c' <? size), c')
  else (true, c).

(** The socket [c] after [bs] has been taken from the front of its buffer,
    [rest] being what stays. *)
Definition took (bs rest : list byte) (c : QTcpSocket) : QTcpSocket :=
  mkSocket (connected c) rest (peer c) (transcript c ++ [Taken bs]).

(** The socket [c] after the fields [fs] have been taken one after the
    other, [rest] being what stays. *)
Definition took_all (fs : list (list byte)) (rest : list byte) (c : QTcpSocket)
  : QTcpSocket :=
  mkSocket (connected c) rest (peer c) (transcript c ++ map Taken fs).

(** The socket [c] after the events [evs]. *)
Definition did (evs : list IOEvent) (c : QTcpSocket) : QTcpSocket :=
  mkSocket (connected c) (buffered c) (peer c) (transcript c ++ evs).

(** The bytes written so far, in order. *)
Definition sent (tr : list IOEvent) : list byte :=
  flat_map (fun e => match e with Written bs => bs | _ => [] end) tr.

Definition is_input (e : IOEvent) : bool :=
  match e with Written _ => false | _ => true end.

End Socket.
Import Socket.

(* ================================================================== *)
(** * Byte strings (QByteArray, QString kept as UTF-8 bytes)           *)
(* ================================================================== *)

Module Text.

(** [isspace] in the C locale. *)
Definition is_space (b : byte) : bool :=
  match b with
  | x09 | x0a | x0b | x0c | x0d | x20 => true
  | _ => false
  end.

Fixpoint drop_spaces (bs : list byte) : list byte :=
  match bs with
  | [] => []
  | b :: rest => if is_space b then drop_spaces rest else bs
  end.

(** [QByteArray::trimmed]. *)
Definition trimmed (bs : list byte) : list byte :=
  rev (drop_spaces (rev (drop_spaces bs))).

Fixpoint startsWith (bs pre : list byte) : bool :=
  match pre, bs with
  | [], _ => true
  | _ :: _, [] => false
  | p :: pre', b :: bs' => Byte.eqb p b && startsWith bs' pre'
  end.

(** Lower case of an ASCII letter. *)
Definition lower (b : byte) : byte :=
  let z := Z_of_byte b in
  if (65 <=? z) && (z <=? 90) then byte_of_Z (z + 32) else b.

(** [contains(needle, Qt::CaseInsensitive)]. *)
Fixpoint contains_ci (bs needle : list byte) : bool :=
  startsWith (map lower bs) (map lower needle) ||
  match bs with
  | [] => false
  | _ :: rest => contains_ci rest needle
  end.

End Text.
Import Text.

(* ================================================================== *)
(** * class RoboDK                                                     *)
(* ================================================================== *)

(** The machine around the client: what the next connection attempts will
    meet, and what the programs started next will print. *)
Inductive Dial :=
| Refused                         (* [waitForConnected] fails *)
| Accepted (server : list Arrival).

Record Launch := mkLaunch {
  pid : Z;                        (* [processId()]                          *)
  stdout : list (list byte)       (* the lines [readLine()] will deliver    *)
}.

Record Host := mkHost {
  dials : list Dial;
  launches : list Launch;
  dialled : list (list byte * Z)  (* addresses given to [connectToHost]     *)
}.

Record RoboDK := mkRoboDK {
  _COM : option QTcpSocket;       (* [NULL] is [None] *)
  _IP : list byte;
  _PORT : Z;
  _TIMEOUT : Z;
  _PROCESS : Z;
  _ROBODK_BIN : list byte;
  _ARGUMENTS : list byte;
  host : Host
}.

Definition ROBODK_API_TIMEOUT : Z := 1000.
Definition ROBODK_API_START_STRING : list byte := bytes_of_string "CMD_START".
Definition ROBODK_API_READY_STRING : list byte := bytes_of_string "READY".
Definition ROBODK_API_LF : list byte := [LF].

Definition set_COM (com : option QTcpSocket) (s : RoboDK) : RoboDK :=
  mkRoboDK com (_IP s) (_PORT s) (_TIMEOUT s) (_PROCESS s) (_ROBODK_BIN s)
           (_ARGUMENTS s) (host s).

Definition set_TIMEOUT (t : Z) (s : RoboDK) : RoboDK :=
  mkRoboDK (_COM s) (_IP s) (_PORT s) t (_PROCESS s) (_ROBODK_BIN s)
           (_ARGUMENTS s) (host s).

Definition set_PROCESS (p : Z) (s : RoboDK) : RoboDK :=
  mkRoboDK (_COM s) (_IP s) (_PORT s) (_TIMEOUT s) p (_ROBODK_BIN s)
           (_ARGUMENTS s) (host s).

Definition set_host (h : Host) (s : RoboDK) : RoboDK :=
  mkRoboDK (_COM s) (_IP s) (_PORT s) (_TIMEOUT s) (_PROCESS s) (_ROBODK_BIN s)
           (_ARGUMENTS s) h.

(** [RoboDK::_connected]. *)
Definition _connected (s : RoboDK) : bool :=
  match _COM s with
  | Some c => connected c
  | None => false
  end.

(** [RoboDK::_disconnect]. *)
Definition _disconnect (s : RoboDK) : RoboDK :=
  match _COM s with
  | Some _ => set_COM None s
  | None => s
  end.

(** [new QTcpSocket(); connectToHost(ip, port); waitForConnected(_TIMEOUT)]:
    the socket when the connection is made. *)
Definition dial (ip : list byte) (port : Z) (h : Host) : option QTcpSocket * Host :=
  let h' := mkHost (tl (dials h)) (launches h) (dialled h ++ [(ip, port)]) in
  match dials h with
  | Accepted server :: _ => (Some (mkSocket true [] server []), h')
  | Refused :: _ => (None, h')
  | [] => (None, h')
  end.

(** [RoboDK::_connect]. *)
Definition _connect (s : RoboDK) : bool * RoboDK :=
  let s := _disconnect s in
  let ip := match _IP s with
            | [] => bytes_of_string "127.0.0.1"
            | _ => _IP s
            end in
  let (com, h) := dial ip (_PORT s) (host s) in
  let s := set_host h s in
  match com with
  | None => (false, set_COM None s)
  | Some c =>
      let c := write ROBODK_API_START_STRING c in
      let c := write ROBODK_API_LF c in
      let c := write (bytes_of_string "1 0") c in
      let c := write ROBODK_API_LF c in
      let (ready, c) :=
        if canReadLine c then (true, c) else waitForReadyRead (_TIMEOUT s) c in
      if negb ready then (false, set_COM None s)
      else
        let (read, c) := readAll c in
        if negb (startsWith read ROBODK_API_READY_STRING)
        then (false, set_COM None s)
        else (true, set_COM (Some c) s)
  end.

(** The loop of [_connect_smart] over the output of the started program:
    [while (p->canReadLine() || p->waitForReadyRead(5000))]. *)
Fixpoint scan_output (lines : list (list byte)) (s : RoboDK) : bool * RoboDK :=
  match lines with
  | [] => (false, s)
  | raw :: later =>
      let line := trimmed raw in
      if contains_ci line (bytes_of_string "Running")
      then _connect s
      else scan_output later s
  end.

(** [RoboDK::_connect_smart]. *)
Definition _connect_smart (s : RoboDK) : bool * RoboDK :=
  let (ok, s) := _connect s in
  if ok then (true, s)
  else
    let h := host s in
    match launches h with
    | [] =>
        (* the program does not start: no process, no output *)
        (false, set_PROCESS 0 s)
    | p :: later =>
        let s := set_host (mkHost (dials h) later (dialled h)) s in
        let s := set_PROCESS (pid p) s in
        scan_output (stdout p) s
    end.

(** [RoboDK::_check_connection]. *)
Definition _check_connection (s : RoboDK) : bool * RoboDK :=
  if _connected s then (true, s) else _connect_smart s.

(** The loop of [_waitline]; every turn but the last takes one arrival of
    the peer, so [fuel] above their number is never used up. *)
Fixpoint _waitline_loop (fuel : nat) (timeout : Z) (c : QTcpSocket) : bool * QTcpSocket :=
  if canReadLine c then (true, c)
  else
    match fuel with
    | O => (false, c)
    | S k =>
        let (ready, c') := waitForReadyRead timeout c in
        if ready then _waitline_loop k timeout c' else (false, c')
    end.

(** [RoboDK::_waitline]. *)
Definition _waitline (s : RoboDK) : bool * RoboDK :=
  match _COM s with
  | None => (false, s)
  | Some c =>
      let (ok, c') := _waitline_loop (S (length (peer c))) (_TIMEOUT s) c in
      (ok, set_COM (Some c') s)
  end.

(** [RoboDK::_recv_Line]; a [QString] is kept as its UTF-8 bytes. *)
Definition _recv_Line (s : RoboDK) : list byte * RoboDK :=
  let (ok, s) := _waitline s in
  if negb ok then
    match _COM s with
    | Some c => let (_, c') := readAll c in ([], set_COM (Some c') s)
    | None => ([], s)
    end
  else
    match _COM s with
    | Some c =>
        let (line, c') := readLine c in
        (trimmed line, set_COM (Some c') s)
    | None => ([], s)
    end.

(** [RoboDK::_send_Line]. *)
Definition _send_Line (text : list byte) (s : RoboDK) : bool * RoboDK :=
  match _COM s with
  | None => (false, s)
  | Some c =>
      if negb (isOpen c) then (false, s)
      else
        let c := write text c in
        let c := write ROBODK_API_LF c in
        (true, set_COM (Some c) s)
  end.

(** [RoboDK::_recv_Int]. *)
Definition _recv_Int (s : RoboDK) : Z * RoboDK :=
  match _COM s with
  | None => (0, s)                                   (* [return false] *)
  | Some c =>
      let (enough, c) := await 4 (_TIMEOUT s) c in
      if negb enough then (-1, set_COM (Some c) s)
      else
        let (value, c) := stream_get 4 c in
        (to_signed 32 value, set_COM (Some c) s)
  end.

(** [RoboDK::_send_Int]. *)
Definition _send_Int (value : Z) (s : RoboDK) : bool * RoboDK :=
  match _COM s with
  | None => (false, s)
  | Some c =>
      if negb (isOpen c) then (false, s)
      else (true, set_COM (Some (stream_put 4 value c)) s)
  end.

(** [RoboDK::_recv_Item]. *)
Definition _recv_Item (s : RoboDK) : Item * RoboDK :=
  let item := Item_new in
  match _COM s with
  | None => (item, s)
  | Some c =>
      let item := mkItem 0 (-1) in
      let (enough, c) := await 8 (_TIMEOUT s) c in
      if negb enough then (item, set_COM (Some c) s)
      else
        let (ptr, c) := stream_get 8 c in               (* ds >> item._PTR  *)
        let (type, c) := stream_get 4 c in              (* ds >> item._TYPE *)
        (mkItem ptr (to_signed 32 type), set_COM (Some c) s)
  end.

(** [RoboDK::_send_Item(const Item *item)]. *)
Definition _send_Item (item : option Item) (s : RoboDK) : bool * RoboDK :=
  match _COM s with
  | None => (false, s)
  | Some c =>
      if negb (isOpen c) then (false, s)
      else
        let ptr := match item with
                   | Some it => _PTR it
                   | None => 0
                   end in
        (true, set_COM (Some (stream_put 8 ptr c)) s)
  end.

(** The indices [0, 1, 2, 3] of the loops over a pose. *)
Definition idx4 : list Z := [0; 1; 2; 3].

(** [RoboDK::_recv_Pose]. *)
Definition _recv_Pose (s : RoboDK) : Mat * RoboDK :=
  let pose := Mat_new in
  match _COM s with
  | None => (pose, s)
  | Some c =>
      let size := 16 * 8 in
      let (enough, c) := await size (_TIMEOUT s) c in
      if negb enough then (pose, set_COM (Some c) s)
      else
        let '(pose, c) :=
          fold_left (fun (st : Mat * QTcpSocket) j =>
            fold_left (fun (st : Mat * QTcpSocket) i =>
              let (valuei, c) := stream_get 8 (snd st) in
              (Mat_Set (fst st) i j valuei, c)) idx4 st) idx4 (pose, c) in
        (pose, set_COM (Some c) s)
  end.

(** [RoboDK::_send_Pose]. *)
Definition _send_Pose (pose : Mat) (s : RoboDK) : bool * RoboDK :=
  match _COM s with
  | None => (false, s)
  | Some c =>
      if negb (isOpen c) then (false, s)
      else
        let c :=
          fold_left (fun c j =>
            fold_left (fun c i => stream_put 8 (Mat_Get pose i j) c) idx4 c)
            idx4 c in
        (true, set_COM (Some c) s)
  end.

(** [RoboDK::_send_Array(const double *values, int nvalues)]; an element
    read past the extent of [values] (undefined in C++) reads as zero. *)
Definition _send_Array (values : list double) (nvalues : Z) (s : RoboDK) : bool * RoboDK :=
  match _COM s with
  | None => (false, s)
  | Some c =>
      if negb (isOpen c) then (false, s)
      else
        let (ok, s) := _send_Int nvalues s in
        if negb ok then (false, s)
        else
          (* [ds] writes to the device [_COM] points to *)
          match _COM s with
          | None => (true, s)
          | Some c =>
              let c :=
                fold_left (fun c i => stream_put 8 (nth i values double_zero) c)
                          (seq 0 (Z.to_nat nvalues)) c in
              (true, set_COM (Some c) s)
          end
  end.

(** [RoboDK::_send_Array(const tJoints *jnts)]. *)
Definition _send_Array_joints (jnts : option tJoints) (s : RoboDK) : bool * RoboDK :=
  match jnts with
  | None => _send_Int 0 s
  | Some j => _send_Array (Values j) (nDOFs j) s
  end.

(** [RoboDK::_send_Array(const Mat *mat)]: [m44[c*4+r] = mat->Get(r,c)]. *)
Definition _send_Array_mat (mat : option Mat) (s : RoboDK) : bool * RoboDK :=
  match mat with
  | None => _send_Int 0 s
  | Some m =>
      let m44 := flat_map (fun c => map (fun r => Mat_Get m r c) idx4) idx4 in
      _send_Array m44 16 s
  end.

(** [RoboDK::_recv_Array(double *values, int *psize)]: the result, the
    array, the integer [psize] points to ([None] for [NULL]), the state. *)
Definition _recv_Array (values : list double) (psize : option Z) (s : RoboDK)
  : bool * list double * option Z * RoboDK :=
  let (nvalues, s) := _recv_Int s in
  match _COM s with
  | None => (false, values, psize, s)
  | Some c =>
      if nvalues <? 0 then (false, values, psize, s)
      else
        let psize := match psize with
                     | Some _ => Some nvalues
                     | None => None
                     end in
        if (nvalues <? 0) || (50 <? nvalues) then (false, values, psize, s)
        else
          let size := nvalues * 8 in
          let (enough, c) := await size (_TIMEOUT s) c in
          if negb enough then (false, values, psize, set_COM (Some c) s)
          else
            let '(values, c) :=
              fold_left (fun (st : list double * QTcpSocket) i =>
                let (valuei, c) := stream_get 8 (snd st) in
                (store (fst st) i valuei, c))
                (seq 0 (Z.to_nat nvalues)) (values, c) in
            (true, values, psize, set_COM (Some c) s)
  end.

(** [RoboDK::_recv_Array(tJoints *jnts)]:
    [_recv_Array(jnts->Values, &(jnts->nDOFs))]. *)
Definition _recv_Array_joints (jnts : tJoints) (s : RoboDK) : bool * tJoints * RoboDK :=
  match _recv_Array (Values jnts) (Some (nDOFs jnts)) s with
  | (ok, values, Some n, s') => (ok, mkJoints values n, s')
  | (ok, values, None, s') => (ok, mkJoints values (nDOFs jnts), s')
  end.

(** [RoboDK::_check_status]; the value returned is the [bool] the C++
    function returns: [return 0] is [false], [return status] is
    [status != 0].  The text sent to [qDebug()] is not kept. *)
Definition _check_status (s : RoboDK) : bool * RoboDK :=
  let (status, s) := _recv_Int s in
  if (0 <? status) && (status <? 10) then
    if status =? 1 then (negb (status =? 0), s)
    else if status =? 2 then
      let (strproblems, s) := _recv_Line s in
      (false, s)
    else if status =? 3 then
      let (strproblems, s) := _recv_Line s in
      (negb (status =? 0), s)
    else if status =? 9 then (negb (status =? 0), s)
    else (negb (status =? 0), s)
  else if status =? 0 then (negb (status =? 0), s)
  else (negb (status =? 0), s).

(* ================================================================== *)
(** * class Item and the move orchestrator                             *)
(* ================================================================== *)

(** How a call ends: by returning, or by [throw]. *)
Inductive Outcome :=
| Returned
| Thrown (code : Z).

(** [Item::WaitMove(double timeout_sec)].  [timeout_ms] is the value of
    [(int)(timeout_sec * 1000.0)]. *)
Definition WaitMove (item : Item) (timeout_ms : Z) (s : RoboDK) : RoboDK :=
  let (_, s) := _check_connection s in
  let (_, s) := _send_Line (bytes_of_string "WaitMove") s in
  let (_, s) := _send_Item (Some item) s in
  let (_, s) := _check_status s in
  let s := set_TIMEOUT timeout_ms s in
  let (_, s) := _check_status s in                    (* will wait here *)
  set_TIMEOUT ROBODK_API_TIMEOUT s.

(** [Item::MoveJ_Test(j1, j2, minstep_deg)].  [minstep] is the value of
    [(int)(minstep_deg * 1000.0)]. *)
Definition MoveJ_Test (item : Item) (j1 j2 : tJoints) (minstep : Z) (s : RoboDK)
  : Z * RoboDK :=
  let (_, s) := _check_connection s in
  let (_, s) := _send_Line (bytes_of_string "CollisionMove") s in
  let (_, s) := _send_Item (Some item) s in
  let (_, s) := _send_Array_joints (Some j1) s in
  let (_, s) := _send_Array_joints (Some j2) s in
  let (_, s) := _send_Int minstep s in
  let s := set_TIMEOUT (3600 * 1000) s in
  let (collision, s) := _recv_Int s in
  let s := set_TIMEOUT ROBODK_API_TIMEOUT s in
  let (_, s) := _check_status s in
  (collision, s).

(** [RoboDK::ItemUserPick(message, itemtype)]. *)
Definition ItemUserPick (message : list byte) (itemtype : Z) (s : RoboDK)
  : Item * RoboDK :=
  let (_, s) := _check_connection s in
  let (_, s) := _send_Line (bytes_of_string "PickItem") s in
  let (_, s) := _send_Line message s in
  let (_, s) := _send_Int itemtype s in
  let s := set_TIMEOUT (3600 * 1000) s in
  let (item, s) := _recv_Item s in
  let s := set_TIMEOUT ROBODK_API_TIMEOUT s in
  let (_, s) := _check_status s in
  (item, s).

(** The chain
    [if (target != NULL) {...} else if (joints != NULL) {...}
     else if (mat_target != NULL) {...} else { throw 0; }]
    that encodes one target; [_moveX] has it once and [_moveC] twice. *)
Definition send_target (target : option Item) (joints : option tJoints)
           (mat_target : option Mat) (s : RoboDK) : Outcome * RoboDK :=
  match target, joints, mat_target with
  | Some t, _, _ =>
      let (_, s) := _send_Int 3 s in
      let (_, s) := _send_Array_joints None s in
      let (_, s) := _send_Item (Some t) s in
      (Returned, s)
  | None, Some j, _ =>
      let (_, s) := _send_Int 1 s in
      let (_, s) := _send_Array_joints (Some j) s in
      let (_, s) := _send_Item None s in
      (Returned, s)
  | None, None, Some m =>
      let (_, s) := _send_Int 2 s in
      let (_, s) := _send_Array_mat (Some m) s in        (* keep it as array! *)
      let (_, s) := _send_Item None s in
      (Returned, s)
  | None, None, None => (Thrown 0, s)
  end.

Section Moves.

(** The default argument of [Item::WaitMove], in milliseconds; it is given
    in the header [robodk_api.h], which is not among the sources. *)
Variable WaitMove_default : Z.

(** [RoboDK::_moveX].  [itemrobot->WaitMove()] talks through the link of
    [itemrobot], which is this [RoboDK] in every caller ([Item::MoveJ],
    [Item::MoveL]). *)
Definition _moveX (target : option Item) (joints : option tJoints)
           (mat_target : option Mat) (itemrobot : Item) (movetype : Z)
           (blocking : bool) (s : RoboDK) : Outcome * RoboDK :=
  let s := WaitMove itemrobot WaitMove_default s in
  let (_, s) := _send_Line (bytes_of_string "MoveX") s in
  let (_, s) := _send_Int movetype s in
  match send_target target joints mat_target s with
  | (Thrown code, s) => (Thrown code, s)
  | (Returned, s) =>
      let (_, s) := _send_Item (Some itemrobot) s in
      let (_, s) := _check_status s in
      if blocking then (Returned, WaitMove itemrobot WaitMove_default s)
      else (Returned, s)
  end.

(** [RoboDK::_moveC]. *)
Definition _moveC (target1 : option Item) (joints1 : option tJoints)
           (mat_target1 : option Mat)
           (target2 : option Item) (joints2 : option tJoints)
           (mat_target2 : option Mat)
           (itemrobot : Item) (blocking : bool) (s : RoboDK) : Outcome * RoboDK :=
  let s := WaitMove itemrobot WaitMove_default s in
  let (_, s) := _send_Line (bytes_of_string "MoveC") s in
  let (_, s) := _send_Int 3 s in
  match send_target target1 joints1 mat_target1 s with
  | (Thrown code, s) => (Thrown code, s)
  | (Returned, s) =>
      match send_target target2 joints2 mat_target2 s with
      | (Thrown code, s) => (Thrown code, s)
      | (Returned, s) =>
          let (_, s) := _send_Item (Some itemrobot) s in
          let (_, s) := _check_status s in
          if blocking then (Returned, WaitMove itemrobot WaitMove_default s)
          else (Returned, s)
      end
  end.

End Moves.

(* ================================================================== *)
(** * Sample states                                                    *)
(* ================================================================== *)

(** A connected socket holding [bs], with [later] still to arrive. *)
Definition socket_holding (bs : list byte) (later : list Arrival) : QTcpSocket :=
  mkSocket true bs later [].

(** A client on the default port with the socket [com]. *)
Definition client_with (com : option QTcpSocket) (timeout : Z) : RoboDK :=
  mkRoboDK com [] 20500 timeout 0 (bytes_of_string "RoboDK") [] (mkHost [] [] []).

(** The reply to a request is a warning: status 2, its message, and the
    first bytes of whatever follows. *)
Definition warned : RoboDK :=
  client_with
    (Some (socket_holding
             (be_encode 4 2 ++ bytes_of_string "low battery" ++ [LF] ++ be_encode 4 0) []))
    ROBODK_API_TIMEOUT.

(** The peer announces an array of 51 doubles and starts sending it. *)
Definition oversized : RoboDK :=
  client_with
    (Some (socket_holding (be_encode 4 51 ++ be_encode 8 4607182418800017408)
                          [Data (be_encode 8 0)]))
    ROBODK_API_TIMEOUT.

(** Six joints, all [0.0]. *)
Definition six_joints : tJoints := mkJoints [0; 0; 0; 0; 0; 0] 6.


(** The pose [transl(100, 200, 300)]: [100.0f], [200.0f] and [300.0f] are
    [0x42C80000], [0x43480000] and [0x43960000]. *)
Definition shifted_pose : Mat :=
  mkMat (mkVec float_one float_zero float_zero 1120403456)
        (mkVec float_zero float_one float_zero 1128792064)
        (mkVec float_zero float_zero float_one 1133903872)
        (mkVec float_zero float_zero float_zero float_one).

(** A connected client that has sent and received nothing yet. *)
Definition idle : RoboDK :=
  client_with (Some (socket_holding [] [])) ROBODK_API_TIMEOUT.

(** Only fifteen of the sixteen doubles of a pose reach the client, and the
    peer then stays silent. *)
Definition starved : RoboDK :=
  client_with
    (Some (socket_holding (firstn 56 (pose_wire shifted_pose))
                          [Data (firstn 64 (skipn 56 (pose_wire shifted_pose))); Silence]))
    ROBODK_API_TIMEOUT.

(** What the server of the next connection sends first, when the
    connection is made and something comes before the timeout. *)
Definition handshake_reply (h : Host) : option (list byte) :=
  match dials h with
  | Accepted (Data bs :: _) :: _ => Some bs
  | _ => None
  end.

(** A client about to connect to a server that greets with [HELLO]. *)
Definition greeted_wrongly : RoboDK :=
  mkRoboDK (Some (socket_holding [] [])) [] 20500 ROBODK_API_TIMEOUT 0
           (bytes_of_string "RoboDK") []
           (mkHost [Accepted [Data (bytes_of_string "HELLO" ++ [LF])]] [] []).

(** A robot handle. *)
Definition robot : Item := mkItem 77 2.

(** A connected client whose timeout is five seconds; the peer has
    answered the two status words of a [WaitMove]. *)
Definition slow : RoboDK :=
  client_with (Some (socket_holding (be_encode 4 0 ++ be_encode 4 0) [])) 5000.

(* ================================================================== *)
(** * Transcripts of calls                                             *)
(* ================================================================== *)

(** The transcript of the socket of the client. *)
Definition trace (s : RoboDK) : list IOEvent :=
  match _COM s with
  | Some c => transcript c
  | None => []
  end.

(** Reads and waits only. *)
Definition inputs_only (tr : list IOEvent) : Prop := forallb is_input tr = true.

(** Writes only. *)
Definition outputs_only (tr : list IOEvent) : Prop :=
  forallb (fun e => negb (is_input e)) tr = true.

(** [c'] is [c] after the reads and waits [tr]. *)
Definition hears (c c' : QTcpSocket) (tr : list IOEvent) : Prop :=
  connected c' = connected c /\ transcript c' = transcript c ++ tr /\ inputs_only tr.

(** [s'] is connected and its socket has done [tr] since [s]. *)
Definition runs (s s' : RoboDK) (tr : list IOEvent) : Prop :=
  _connected s' = true /\ trace s' = trace s ++ tr.

(** What [_send_Line(text)] writes. *)
Definition line_events (text : list byte) : list IOEvent :=
  [Written text; Written ROBODK_API_LF].

(** The request of a wait-until-idle exchange for [item]: the line
    [WaitMove] and the identifier of the item. *)
Definition WaitMove_request (item : Item) : list IOEvent :=
  line_events (bytes_of_string "WaitMove") ++ [Written (be_encode 8 (_PTR item))].

(** One wait-until-idle exchange for [item]: its request, then the reads
    and waits by which its status is decoded, and no write. *)
Definition WaitMove_exchange (item : Item) (tr : list IOEvent) : Prop :=
  exists heard,
    tr = WaitMove_request item ++ heard /\ inputs_only heard /\ heard <> [].

(** What [_send_Array(values, nvalues)] writes: the count, then the
    doubles. *)
Definition array_events (values : list double) (nvalues : Z) : list IOEvent :=
  Written (be_encode 4 nvalues)
  :: map (fun i => Written (be_encode 8 (nth i values double_zero)))
         (seq 0 (Z.to_nat nvalues)).

(** What the encoding of one target writes: the discriminator (3 for a
    handle, 1 for joints, 2 for a pose), the array, the handle, with a zero
    count and a zero identifier for what is not used. *)
Definition target_events (target : option Item) (joints : option tJoints)
           (mat_target : option Mat) : list IOEvent :=
  match target, joints, mat_target with
  | Some t, _, _ =>
      [Written (be_encode 4 3); Written (be_encode 4 0); Written (be_encode 8 (_PTR t))]
  | None, Some j, _ =>
      Written (be_encode 4 1) :: array_events (Values j) (nDOFs j)
      ++ [Written (be_encode 8 0)]
  | None, None, Some m =>
      Written (be_encode 4 2) :: array_events (pose_values m) 16
      ++ [Written (be_encode 8 0)]
  | None, None, None => []
  end.

(** The request of a move command: the line [MoveX], the move type, the
    target, the identifier of the robot. *)
Definition MoveX_request (movetype : Z) (target : option Item)
           (joints : option tJoints) (mat_target : option Mat) (itemrobot : Item)
  : list IOEvent :=
  line_events (bytes_of_string "MoveX") ++ [Written (be_encode 4 movetype)]
  ++ target_events target joints mat_target
  ++ [Written (be_encode 8 (_PTR itemrobot))].

(** A connected client that will be told twice that the robot is idle and
    once that a move was accepted, as a blocking move needs it. *)
Definition ready_to_move : RoboDK :=
  client_with
    (Some (socket_holding (be_encode 4 0 ++ be_encode 4 0)
             [Data (be_encode 4 0); Data (be_encode 4 0 ++ be_encode 4 0)]))
    ROBODK_API_TIMEOUT.

(** A target handle. *)
Definition home : Item := mkItem 9 6.

(* ================================================================== *)
(** * More of the channel: points                                      *)
(* ================================================================== *)

(** [RoboDK::_recv_XYZ(tXYZ pos)]: the result and the array [pos]. *)
Definition _recv_XYZ (pos : list double) (s : RoboDK) : bool * list double * RoboDK :=
  match _COM s with
  | None => (false, pos, s)
  | Some c =>
      let size := 3 * 8 in
      let (enough, c) := await size (_TIMEOUT s) c in
      if negb enough then (false, pos, set_COM (Some c) s)
      else
        let '(pos, c) :=
          fold_left (fun (st : list double * QTcpSocket) i =>
            let (valuei, c) := stream_get 8 (snd st) in
            (store (fst st) i valuei, c))
            (seq 0 3) (pos, c) in
        (true, pos, set_COM (Some c) s)
  end.

(** [RoboDK::_send_XYZ(const tXYZ pos)]. *)
Definition _send_XYZ (pos : list double) (s : RoboDK) : bool * RoboDK :=
  match _COM s with
  | None => (false, s)
  | Some c =>
      if negb (isOpen c) then (false, s)
      else
        let c :=
          fold_left (fun c i => stream_put 8 (nth i pos double_zero) c) (seq 0 3) c in
        (true, set_COM (Some c) s)
  end.

(** The bytes written on the socket between the states [s] and [s']. *)
Definition emitted (s s' : RoboDK) : list byte :=
  skipn (length (sent (trace s))) (sent (trace s')).

(** The buffer of the socket of the client. *)
Definition pending (s : RoboDK) : list byte :=
  match _COM s with
  | Some c => buffered c
  | None => []
  end.

(** A client whose socket holds [bs] and expects nothing more. *)
Definition holding (bs : list byte) : RoboDK :=
  client_with (Some (socket_holding bs [])) ROBODK_API_TIMEOUT.

(** Two bytes are buffered, one more comes, and the peer then stays silent. *)
Definition trickle : RoboDK :=
  client_with (Some (socket_holding (be_encode 2 7) [Data (be_encode 1 9); Silence]))
              ROBODK_API_TIMEOUT.

(** [bs] neither starts nor ends with white space ([isspace]). *)
Definition edge_not_space (bs : list byte) : Prop :=
  match bs with
  | [] => True
  | b :: _ => is_space b = false /\ is_space (last bs b) = false
  end.

(** A client without a socket. *)
Definition offline : RoboDK := client_with None ROBODK_API_TIMEOUT.

(** Half a line is buffered, a little more comes, and the peer then stays
    silent. *)
Definition half_line : RoboDK :=
  client_with
    (Some (socket_holding (bytes_of_string "Robot")
                          [Data (bytes_of_string " arm"); Silence]))
    ROBODK_API_TIMEOUT.

(** Six joint values: 10, 20, 30, 40, 50 and 60 degrees as doubles. *)
Definition bent : tJoints :=
  mkJoints [4621819117588971520; 4626322717216342016; 4629137466983448576;
            4630826316843712512; 4632233691727265792; 4633641066610819072] 6.

(** The point (10, 20, 30). *)
Definition corner : list double :=
  [4621819117588971520; 4626322717216342016; 4629137466983448576].

(** The address [_connect] gives to [connectToHost]. *)
Definition dial_address (s : RoboDK) : list byte * Z :=
  (match _IP s with
   | [] => bytes_of_string "127.0.0.1"
   | _ => _IP s
   end, _PORT s).

(** A client that cannot connect at first; the program it starts prints two
    lines, and the server that is up by then greets with [READY]. *)
Definition cold_start : RoboDK :=
  mkRoboDK None [] 20500 ROBODK_API_TIMEOUT 0 (bytes_of_string "RoboDK") []
           (mkHost [Refused; Accepted [Data (bytes_of_string "READY 1 0" ++ [LF])]]
                   [mkLaunch 4242 [bytes_of_string "Loading..." ++ [LF];
                                   bytes_of_string "RoboDK is Running" ++ [LF];
                                   bytes_of_string "never read" ++ [LF]]]
                   []).

(* ================================================================== *)
(** * The public moves of class Item                                   *)
(* ================================================================== *)

Section PublicMoves.

(** Both are given in the header [robodk_api.h], which is not among the
    sources: the default argument of [Item::WaitMove] in milliseconds, and
    the enumerator [RoboDK::ITEM_TYPE_PROGRAM]. *)
Variable WaitMove_default : Z.
Variable ITEM_TYPE_PROGRAM : Z.

(** [Item::MoveJ(const Item &itemtarget, bool blocking)]. *)
Definition MoveJ_item (this itemtarget : Item) (blocking : bool) (s : RoboDK)
  : Outcome * RoboDK :=
  if _TYPE this =? ITEM_TYPE_PROGRAM then
    let (_, s) := _check_connection s in
    let (_, s) := _send_Line (bytes_of_string "Add_INSMOVE") s in
    let (_, s) := _send_Item (Some itemtarget) s in
    let (_, s) := _send_Item (Some this) s in
    let (_, s) := _send_Int 1 s in
    let (_, s) := _check_status s in
    (Returned, s)
  else _moveX WaitMove_default (Some itemtarget) None None this 1 blocking s.

(** [Item::MoveJ(const tJoints &joints, bool blocking)]. *)
Definition MoveJ_joints (this : Item) (joints : tJoints) (blocking : bool) (s : RoboDK)
  : Outcome * RoboDK :=
  _moveX WaitMove_default None (Some joints) None this 1 blocking s.

(** [Item::MoveJ(const Mat &target, bool blocking)]. *)
Definition MoveJ_pose (this : Item) (target : Mat) (blocking : bool) (s : RoboDK)
  : Outcome * RoboDK :=
  _moveX WaitMove_default None None (Some target) this 1 blocking s.

(** [Item::MoveL(const Item &itemtarget, bool blocking)]. *)
Definition MoveL_item (this itemtarget : Item) (blocking : bool) (s : RoboDK)
  : Outcome * RoboDK :=
  if _TYPE this =? ITEM_TYPE_PROGRAM then
    let (_, s) := _check_connection s in
    let (_, s) := _send_Line (bytes_of_string "Add_INSMOVE") s in
    let (_, s) := _send_Item (Some itemtarget) s in
    let (_, s) := _send_Item (Some this) s in
    let (_, s) := _send_Int 2 s in
    let (_, s) := _check_status s in
    (Returned, s)
  else _moveX WaitMove_default (Some itemtarget) None None this 2 blocking s.

(** [Item::MoveL(const tJoints &joints, bool blocking)]. *)
Definition MoveL_joints (this : Item) (joints : tJoints) (blocking : bool) (s : RoboDK)
  : Outcome * RoboDK :=
  _moveX WaitMove_default None (Some joints) None this 2 blocking s.

(** [Item::MoveL(const Mat &target, bool blocking)]. *)
Definition MoveL_pose (this : Item) (target : Mat) (blocking : bool) (s : RoboDK)
  : Outcome * RoboDK :=
  _moveX WaitMove_default None None (Some target) this 2 blocking s.

(** [Item::MoveC(const Item &itemtarget1, const Item &itemtarget2, bool)]. *)
Definition MoveC_item (this itemtarget1 itemtarget2 : Item) (blocking : bool)
           (s : RoboDK) : Outcome * RoboDK :=
  _moveC WaitMove_default (Some itemtarget1) None None (Some itemtarget2) None None
         this blocking s.

(** [Item::MoveC(const tJoints &joints1, const tJoints &joints2, bool)]. *)
Definition MoveC_joints (this : Item) (joints1 joints2 : tJoints) (blocking : bool)
           (s : RoboDK) : Outcome * RoboDK :=
  _moveC WaitMove_default None (Some joints1) None None (Some joints2) None
         this blocking s.

(** [Item::MoveC(const Mat &target1, const Mat &target2, bool)]. *)
Definition MoveC_pose (this : Item) (target1 target2 : Mat) (blocking : bool)
           (s : RoboDK) : Outcome * RoboDK :=
  _moveC WaitMove_default None None (Some target1) None None (Some target2)
         this blocking s.

End PublicMoves.

(** The request of a circular move: the line [MoveC], the constant 3, the
    two targets, the identifier of the robot. *)
Definition MoveC_request (target1 : option Item) (joints1 : option tJoints)
           (mat_target1 : option Mat)
           (target2 : option Item) (joints2 : option tJoints)
           (mat_target2 : option Mat) (itemrobot : Item) : list IOEvent :=
  line_events (bytes_of_string "MoveC") ++ [Written (be_encode 4 3)]
  ++ target_events target1 joints1 mat_target1
  ++ target_events target2 joints2 mat_target2
  ++ [Written (be_encode 8 (_PTR itemrobot))].

(** The request by which a move is appended to a program. *)
Definition Add_INSMOVE_request (this itemtarget : Item) (movetype : Z) : list IOEvent :=
  line_events (bytes_of_string "Add_INSMOVE")
  ++ [Written (be_encode 8 (_PTR itemtarget)); Written (be_encode 8 (_PTR this));
      Written (be_encode 4 movetype)].

(** A program of the station. *)
Definition routine : Item := mkItem 31 8.

(* ================================================================== *)
(** * Lists of items                                                   *)
(* ================================================================== *)

(** The loop [for (int i = 0; i < n; i++) { list.append(_recv_Item()); }]
    of [Item::Childs] and [RoboDK::getItemList]. *)
Fixpoint recv_Items (n : nat) (s : RoboDK) : list Item * RoboDK :=
  match n with
  | O => ([], s)
  | S k =>
      let (item, s) := _recv_Item s in
      let (items, s) := recv_Items k s in
      (item :: items, s)
  end.

(** [Item::Childs()]. *)
Definition Childs (this : Item) (s : RoboDK) : list Item * RoboDK :=
  let (_, s) := _check_connection s in
  let (_, s) := _send_Line (bytes_of_string "G_Childs") s in
  let (_, s) := _send_Item (Some this) s in
  let (nitems, s) := _recv_Int s in
  let (itemlist, s) := recv_Items (Z.to_nat nitems) s in
  let (_, s) := _check_status s in
  (itemlist, s).

(** [RoboDK::getItemList(int filter)]. *)
Definition getItemList (filter : Z) (s : RoboDK) : list Item * RoboDK :=
  let (_, s) := _check_connection s in
  let (_, s) :=
    if filter <? 0 then _send_Line (bytes_of_string "G_List_Items_ptr") s
    else
      let (_, s) := _send_Line (bytes_of_string "G_List_Items_Type_ptr") s in
      _send_Int filter s in
  let (numitems, s) := _recv_Int s in
  let (listitems, s) := recv_Items (Z.to_nat numitems) s in
  let (_, s) := _check_status s in
  (listitems, s).

(** The twelve bytes [_recv_Item] takes for one item. *)
Definition Item_wire (item : Item) : list byte :=
  be_encode 8 (_PTR item) ++ be_encode 4 (_TYPE item).

(** The members of an item are a [quint64] and a [qint32]. *)
Definition is_Item (item : Item) : Prop :=
  0 <= _PTR item < 2 ^ 64 /\ - 2 ^ 31 <= _TYPE item < 2 ^ 31.

(** A station with two items, and the answer to a request for a list of
    them: the count, the items, the status. *)
Definition two_items : list Item := [mkItem 11 2; mkItem 12 4].

Definition listing : RoboDK :=
  holding (be_encode 4 2 ++ flat_map Item_wire two_items ++ be_encode 4 0).

(* ================================================================== *)
(** * Arrays of doubles                                                *)
(* ================================================================== *)

(** The loop [for (int i = 0; i < n; i++) { dst[from + i] = src[i]; }].
    A read outside [src] (undefined in C++) gives zero here, a store
    outside [dst] does nothing. *)
Definition copy_into (dst : list double) (from : nat) (src : list double) (n : nat)
  : list double :=
  fold_left (fun a i => store a (from + i) (nth i src double_zero)) (seq 0 n) dst.

(** [tJoints::SetValues(const double *values, int ndofs)]. *)
Definition SetValues (this : tJoints) (values : list double) (ndofs : Z) : tJoints :=
  let n := if 0 <=? ndofs then ndofs else nDOFs this in
  mkJoints (copy_into (Values this) 0 values (Z.to_nat n)) n.

(** [tJoints::GetValues(double *values)]: the count, and the array
    [values] as it is left. *)
Definition GetValues (this : tJoints) (values : list double) : Z * list double :=
  (nDOFs this, copy_into values 0 (Values this) (Z.to_nat (nDOFs this))).

(** An array of twelve joint values of which none is in use, and three
    values to put into it. *)
Definition blank_joints : tJoints := mkJoints (repeat double_zero 12) 0.

Definition three_values : list double := [4607182418800017408; 0; 4611686018427387904].

(* ================================================================== *)
(** * 2D matrix functions                                              *)
(* ================================================================== *)

(** [tMatrix2D], by the members the functions use (its declaration is in
    the header [robodk_api.h], which is not among the sources): the block
    [data] ([None] for the null pointer), the array [size] of
    [numDimensions] extents, the number [allocatedSize] of doubles the block
    has room for. *)
Record tMatrix2D := mkMatrix2D {
  data : option (list double);
  size : list Z;
  allocatedSize : Z;
  numDimensions : Z;
  canFreeData : bool }.

Definition set_data (d : option (list double)) (m : tMatrix2D) : tMatrix2D :=
  mkMatrix2D d (size m) (allocatedSize m) (numDimensions m) (canFreeData m).

Definition set_size (sz : list Z) (m : tMatrix2D) : tMatrix2D :=
  mkMatrix2D (data m) sz (allocatedSize m) (numDimensions m) (canFreeData m).

(** [size[k] = v]. *)
Fixpoint size_put (sz : list Z) (k : nat) (v : Z) : list Z :=
  match sz, k with
  | [], _ => []
  | _ :: rest, O => v :: rest
  | x :: rest, S k => x :: size_put rest k v
  end.

(** The doubles of the block; none behind the null pointer. *)
Definition block (m : tMatrix2D) : list double :=
  match data m with
  | Some d => d
  | None => []
  end.

(** [emxInit_real_T]: no block, every extent zero. *)
Definition emxInit_real_T (numDimensions : Z) : tMatrix2D :=
  mkMatrix2D None (repeat 0 (Z.to_nat numDimensions)) 0 numDimensions true.

(** [Matrix2D_Create]. *)
Definition Matrix2D_Create : tMatrix2D := emxInit_real_T 2.

(** The loop
    [while (i < newNumel) { if (i > 1073741823) i = 2147483647; else i <<= 1; }]
    of [emxEnsureCapacity]. *)
Fixpoint grow (fuel : nat) (i newNumel : Z) : Z :=
  match fuel with
  | O => i
  | S k =>
      if i <? newNumel then
        grow k (if 1073741823 <? i then 2147483647 else Z.shiftl i 1) newNumel
      else i
  end.

(** [emxEnsureCapacity(emxArray, oldNumel, elementSize)]; every caller
    passes [sizeof(double)] for [elementSize], so that the block is counted
    in doubles.  [calloc] gives zeros, [memcpy] copies the first [oldNumel]
    doubles of the old block.  The product of the extents is an [int] in
    C++, where its overflow is undefined; it is the product in [Z] here. *)
Definition emxEnsureCapacity (emxArray : tMatrix2D) (oldNumel : Z) : tMatrix2D :=
  let oldNumel := if oldNumel <? 0 then 0 else oldNumel in
  let newNumel :=
    fold_left (fun n i => n * nth i (size emxArray) 0)
              (seq 0 (Z.to_nat (numDimensions emxArray))) 1 in
  if allocatedSize emxArray <? newNumel then
    let i := allocatedSize emxArray in
    let i := if i <? 16 then 16 else i in
    let i := grow 32 i newNumel in
    let newData := repeat double_zero (Z.to_nat i) in
    let newData :=
      match data emxArray with
      | Some old => copy_into newData 0 old (Z.to_nat oldNumel)
      | None => newData
      end in
    mkMatrix2D (Some newData) (size emxArray) i (numDimensions emxArray) true
  else emxArray.

(** [Matrix2D_Set_Size]. *)
Definition Matrix2D_Set_Size (mat : tMatrix2D) (rows cols : Z) : tMatrix2D :=
  let old_numel := nth 0 (size mat) 0 * nth 1 (size mat) 0 in
  let mat := set_size (size_put (size mat) 0 rows) mat in
  let mat := set_size (size_put (size mat) 1 cols) mat in
  emxEnsureCapacity mat old_numel.

(** [Matrix2D_Size(var, dim)], [dim] counted from one. *)
Definition Matrix2D_Size (var : tMatrix2D) (dim : Z) : Z :=
  if dim <=? numDimensions var then nth (Z.to_nat (dim - 1)) (size var) 0 else 0.

(** [Matrix2D_Get_ncols], [Matrix2D_Get_nrows]. *)
Definition Matrix2D_Get_ncols (var : tMatrix2D) : Z := Matrix2D_Size var 2.
Definition Matrix2D_Get_nrows (var : tMatrix2D) : Z := Matrix2D_Size var 1.

(** [Matrix2D_Get_ij(var, i, j)], indices counted from zero: the double at
    [size[0] * j + i].  An index outside the block is undefined in C++; it
    reads zero here. *)
Definition Matrix2D_Get_ij (var : tMatrix2D) (i j : Z) : double :=
  nth (Z.to_nat (nth 0 (size var) 0 * j + i)) (block var) double_zero.

(** [Matrix2D_SET_ij(var, i, j, value)]. *)
Definition Matrix2D_SET_ij (var : tMatrix2D) (i j : Z) (value : double) : tMatrix2D :=
  set_data (option_map (fun d => store d (Z.to_nat (nth 0 (size var) 0 * j + i)) value)
                       (data var)) var.

(** [Matrix2D_Add(var, array, numel)]: one more column. *)
Definition Matrix2D_Add (var : tMatrix2D) (array : list double) (numel : Z) : tMatrix2D :=
  let size1 := nth 0 (size var) 0 in
  let size2 := nth 1 (size var) 0 in
  let oldnumel := size1 * size2 in
  let var := set_size (size_put (size var) 1 (size2 + 1)) var in
  let var := emxEnsureCapacity var oldnumel in
  let numel := Z.min numel size1 in
  set_data (option_map (fun d => copy_into d (Z.to_nat (size1 * size2)) array
                                           (Z.to_nat numel))
                       (data var)) var.

(** [Matrix2D_Add(var, varadd)]: the columns of [varadd] after those of
    [var]. *)
Definition Matrix2D_Add_mat (var varadd : tMatrix2D) : tMatrix2D :=
  let size1 := nth 0 (size var) 0 in
  let size2 := nth 1 (size var) 0 in
  let size1_ap := nth 0 (size varadd) 0 in
  let size2_ap := nth 1 (size varadd) 0 in
  let numel := size1_ap * size2_ap in
  if negb (size1 =? size1_ap) then var
  else
    let oldnumel := size1 * size2 in
    let var := set_size (size_put (size var) 1 (size2 + size2_ap)) var in
    let var := emxEnsureCapacity var oldnumel in
    set_data (option_map (fun d => copy_into d (Z.to_nat (size1 * size2)) (block varadd)
                                             (Z.to_nat numel))
                         (data var)) var.

(** A matrix of [rows] by [cols] entries whose block has room for them. *)
Definition is_matrix (m : tMatrix2D) (rows cols : Z) : Prop :=
  numDimensions m = 2 /\ size m = [rows; cols] /\
  0 <= rows /\ 0 <= cols /\
  rows * cols <= allocatedSize m < 2 ^ 31 /\
  length (block m) = Z.to_nat (allocatedSize m).

(** Three rows and no column yet; a column for it; three rows and two
    columns. *)
Definition three_rows : tMatrix2D := Matrix2D_Set_Size Matrix2D_Create 3 0.

Definition a_column : list double := [11; 12; 13].

Definition three_by_two : tMatrix2D :=
  Matrix2D_Add (Matrix2D_Add three_rows a_column 3) [21; 22; 23] 3.

(* ================================================================== *)
(** * 2D matrices on the wire                                          *)
(* ================================================================== *)

(** [RoboDK::_send_Matrix2D]. *)
Definition _send_Matrix2D (mat : tMatrix2D) (s : RoboDK) : bool * RoboDK :=
  match _COM s with
  | None => (false, s)
  | Some c =>
      if negb (isOpen c) then (false, s)
      else
        let dim1 := Matrix2D_Size mat 1 in
        let dim2 := Matrix2D_Size mat 2 in
        let (ok1, s) := _send_Int dim1 s in
        let (ok2, s) := _send_Int dim2 s in
        if negb ok1 || negb ok2 then (false, s)
        else
          (* [ds] writes to the device [_COM] points to *)
          match _COM s with
          | None => (true, s)
          | Some c =>
              let c :=
                fold_left (fun c j =>
                  fold_left (fun c i =>
                    stream_put 8 (Matrix2D_Get_ij mat (Z.of_nat i) (Z.of_nat j)) c)
                    (seq 0 (Z.to_nat dim1)) c)
                  (seq 0 (Z.to_nat dim2)) c in
              (true, set_COM (Some c) s)
          end
  end.

(** The loop [while (!indata.atEnd()) { indata >> value; ... }] over the
    bytes of [buffer]: one double for every eight bytes, and zero for what
    is left when fewer than eight remain (the stream delivers zero and is at
    its end).  [fuel] bounds the number of turns; the length of [buffer]
    is enough. *)
Fixpoint doubles_of (fuel : nat) (buffer : list byte) : list double :=
  match fuel, buffer with
  | O, _ => []
  | _, [] => []
  | S k, _ =>
      (if Nat.eqb (length (firstn 8 buffer)) 8 then be_decode (firstn 8 buffer) else 0)
      :: doubles_of k (skipn 8 buffer)
  end.

(** The loop [while (true) { ... }] of [_recv_Matrix2D]: the result, the
    matrix ([None] once [Matrix2D_Delete] has run), the socket.  Every turn
    that does not return takes bytes or uses up a wait, so that
    [remaining + length (peer c)] turns and one more are enough. *)
Fixpoint recv_Matrix2D_loop (fuel : nat) (numel count : Z) (mat : tMatrix2D)
         (timeout : Z) (c : QTcpSocket) : bool * option tMatrix2D * QTcpSocket :=
  match fuel with
  | O => (false, Some mat, c)
  | S k =>
      let remaining := numel - count in
      if remaining <=? 0 then (true, Some mat, c)
      else
        let (ready, c) :=
          if bytesAvailable c <=? 0 then waitForReadyRead timeout c else (true, c) in
        if negb ready then (false, None, c)
        else
          let (buffer, c) := read (Z.to_nat (remaining * 8)) c in
          let values := doubles_of (length buffer) buffer in
          let mat :=
            set_data (option_map (fun d => copy_into d (Z.to_nat count) values
                                                     (length values))
                                 (data mat)) mat in
          recv_Matrix2D_loop k numel (count + Z.of_nat (length values)) mat timeout c
  end.

(** [RoboDK::_recv_Matrix2D(tMatrix2D **mat)]: the result, the matrix
    [*mat] is left to point to, the state.  The product [dim1 * dim2] is an
    [int] in C++, where its overflow is undefined; it is the product in [Z]
    here. *)
Definition _recv_Matrix2D (s : RoboDK) : bool * option tMatrix2D * RoboDK :=
  let (dim1, s) := _recv_Int s in
  let (dim2, s) := _recv_Int s in
  let mat := Matrix2D_Create in
  if (dim1 <? 0) || (dim2 <? 0) then (false, Some mat, s)
  else
    let mat := Matrix2D_Set_Size mat dim1 dim2 in
    if dim1 * dim2 <=? 0 then (true, Some mat, s)
    else
      match _COM s with
      | None => (false, Some mat, s)
      | Some c =>
          let '(ok, mat, c) :=
            recv_Matrix2D_loop (S (Z.to_nat (dim1 * dim2) + length (peer c)))
                               (dim1 * dim2) 0 mat (_TIMEOUT s) c in
          (ok, mat, set_COM (Some c) s)
      end.

(** The entries of a matrix in the order of the wire: column after column. *)
Definition entries (m : tMatrix2D) : list double :=
  firstn (Z.to_nat (nth 0 (size m) 0 * nth 1 (size m) 0)) (block m).

(** A client whose buffer holds the extents 2 and 3 and nothing of the
    entries, the server staying silent; and one that is told of a negative
    number of rows. *)
Definition no_entries : RoboDK :=
  client_with (Some (socket_holding (be_encode 4 2 ++ be_encode 4 3) [Silence]))
              ROBODK_API_TIMEOUT.

Definition negative_rows : RoboDK := holding (be_encode 4 (-1) ++ be_encode 4 3).

(* ================================================================== *)
(** * Joints from a column of a 2D matrix                              *)
(* ================================================================== *)

(** [Matrix2D_Get_col(var, col)], the column counted from zero: the pointer
    [data + size[0] * col], which is the block from that double on. *)
Definition Matrix2D_Get_col (var : tMatrix2D) (col : Z) : list double :=
  skipn (Z.to_nat (nth 0 (size var) 0 * col)) (block var).

Section JointsOfColumn.

(** The extent of the array [Values]; it is given in the header
    [robodk_api.h], which is not among the sources. *)
Variable RDK_SIZE_JOINTS_MAX : Z.

(** [tJoints::tJoints(const tMatrix2D *mat2d, int column, int ndofs)].
    [this] is the object before the constructor runs: its members hold
    whatever the memory held. *)
Definition tJoints_of_column (this : tJoints) (mat2d : tMatrix2D) (column ndofs : Z)
  : tJoints :=
  let this :=
    if column <=? Matrix2D_Size mat2d 2 then mkJoints (Values this) 0 else this in
  let ndofs := if ndofs <? 0 then Matrix2D_Size mat2d 1 else ndofs in
  let this := mkJoints (Values this) (Z.min ndofs RDK_SIZE_JOINTS_MAX) in
  let ptr := Matrix2D_Get_col mat2d column in
  SetValues this ptr (nDOFs this).

End JointsOfColumn.

(** Waits made with the timeout [t], and nothing else. *)
Definition is_wait (t : Z) (e : IOEvent) : Prop := exists ready, e = Waited t ready.

Definition waits_only (t : Z) (tr : list IOEvent) : Prop := Forall (is_wait t) tr.

(** A warning whose message is in the buffer in part; the rest of the line
    comes with the first wait, and the status word of the next reply with
    it. *)
Definition late_line : RoboDK :=
  client_with
    (Some (socket_holding
             (be_encode 4 2 ++ bytes_of_string "low ")
             [Data (bytes_of_string "battery" ++ [LF] ++ be_encode 4 0)]))
    ROBODK_API_TIMEOUT.

(** A warning whose message is in the buffer in part; the rest of the line
    comes after the timeout only. *)
Definition cut_short : RoboDK :=
  client_with
    (Some (socket_holding
             (be_encode 4 2 ++ bytes_of_string "low bat")
             [Silence; Data (bytes_of_string "tery" ++ [LF])]))
    ROBODK_API_TIMEOUT.

(* ================================================================== *)
(** * The client from its construction on                              *)
(* ================================================================== *)

(** [QString::number(n)]: the decimal digits of [n]. *)
Definition number (n : Z) : list byte :=
  bytes_of_string (NilZero.string_of_int (Z.to_int n)).

Section Client.

(** Given in the header [robodk_api.h], which is not among the sources:
    the two defaults of the constructor, the default argument of
    [Item::WaitMove] in milliseconds and the enumerator
    [RoboDK::ITEM_TYPE_PROGRAM]. *)
Variable ROBODK_DEFAULT_PORT : Z.
Variable ROBODK_DEFAULT_PATH_BIN : list byte.
Variable WaitMove_default : Z.
Variable ITEM_TYPE_PROGRAM : Z.

(** [RoboDK::RoboDK(robodk_ip, com_port, args, path)]; [h] is the machine
    the client is built on. *)
Definition RoboDK_new (robodk_ip : list byte) (com_port : Z) (args path : list byte)
           (h : Host) : RoboDK :=
  let port := if com_port <? 0 then ROBODK_DEFAULT_PORT else com_port in
  let bin := match path with
             | [] => ROBODK_DEFAULT_PATH_BIN
             | _ => path
             end in
  let arguments :=
    if 0 <? com_port then args ++ bytes_of_string " /PORT=" ++ number com_port
    else args in
  snd (_connect_smart
         (mkRoboDK None robodk_ip port ROBODK_API_TIMEOUT 0 bin arguments h)).

(** The states of a client between two calls: the one the constructor
    leaves, and those the public members modelled in this file lead to
    ([Connect], [Disconnect] and [Finish], the moves, [WaitMove],
    [MoveJ_Test], [ItemUserPick], [Childs], [getItemList]).  The source
    assigns [_TIMEOUT] in the constructor and around its blocking receives,
    nowhere else. *)
Inductive reachable : RoboDK -> Prop :=
| reach_new (robodk_ip : list byte) (com_port : Z) (args path : list byte) (h : Host) :
    reachable (RoboDK_new robodk_ip com_port args path h)
| reach_Connect (s : RoboDK) :
    reachable s -> reachable (snd (_connect s))
| reach_Disconnect (s : RoboDK) :
    reachable s -> reachable (_disconnect s)
| reach_WaitMove (item : Item) (timeout_ms : Z) (s : RoboDK) :
    reachable s -> reachable (WaitMove item timeout_ms s)
| reach_MoveJ_Test (item : Item) (j1 j2 : tJoints) (minstep : Z) (s : RoboDK) :
    reachable s -> reachable (snd (MoveJ_Test item j1 j2 minstep s))
| reach_ItemUserPick (message : list byte) (itemtype : Z) (s : RoboDK) :
    reachable s -> reachable (snd (ItemUserPick message itemtype s))
| reach_MoveJ_item (this itemtarget : Item) (blocking : bool) (s : RoboDK) :
    reachable s ->
    reachable (snd (MoveJ_item WaitMove_default ITEM_TYPE_PROGRAM this itemtarget
                               blocking s))
| reach_MoveJ_joints (this : Item) (joints : tJoints) (blocking : bool) (s : RoboDK) :
    reachable s -> reachable (snd (MoveJ_joints WaitMove_default this joints blocking s))
| reach_MoveJ_pose (this : Item) (target : Mat) (blocking : bool) (s : RoboDK) :
    reachable s -> reachable (snd (MoveJ_pose WaitMove_default this target blocking s))
| reach_MoveL_item (this itemtarget : Item) (blocking : bool) (s : RoboDK) :
    reachable s ->
    reachable (snd (MoveL_item WaitMove_default ITEM_TYPE_PROGRAM this itemtarget
                               blocking s))
| reach_MoveL_joints (this : Item) (joints : tJoints) (blocking : bool) (s : RoboDK) :
    reachable s -> reachable (snd (MoveL_joints WaitMove_default this joints blocking s))
| reach_MoveL_pose (this : Item) (target : Mat) (blocking : bool) (s : RoboDK) :
    reachable s -> reachable (snd (MoveL_pose WaitMove_default this target blocking s))
| reach_MoveC_item (this itemtarget1 itemtarget2 : Item) (blocking : bool) (s : RoboDK) :
    reachable s ->
    reachable (snd (MoveC_item WaitMove_default this itemtarget1 itemtarget2 blocking s))
| reach_MoveC_joints (this : Item) (joints1 joints2 : tJoints) (blocking : bool)
                     (s : RoboDK) :
    reachable s ->
    reachable (snd (MoveC_joints WaitMove_default this joints1 joints2 blocking s))
| reach_MoveC_pose (this : Item) (target1 target2 : Mat) (blocking : bool) (s : RoboDK) :
    reachable s ->
    reachable (snd (MoveC_pose WaitMove_default this target1 target2 blocking s))
| reach_Childs (this : Item) (s : RoboDK) :
    reachable s -> reachable (snd (Childs this s))
| reach_getItemList (filter : Z) (s : RoboDK) :
    reachable s -> reachable (snd (getItemList filter s)).

End Client.

(** What one receive of a field of fixed size does on the socket: at most
    one wait, made with the timeout [t], then what it takes. *)
Definition one_receive (t : Z) (tr : list IOEvent) : Prop :=
  tr <> [] /\
  exists waits takes,
    tr = waits ++ map Taken takes /\ waits_only t waits /\ (length waits <= 1)%nat.

(** What the decoding of a status does on the socket: the receive of the
    status word and, when a message follows, the waits for its line, made
    with the timeout [t], and one take. *)
Definition status_decode (t : Z) (tr : list IOEvent) : Prop :=
  exists word line,
    tr = word ++ line /\ one_receive t word /\
    (line = [] \/ exists waits bs, line = waits ++ [Taken bs] /\ waits_only t waits).

(** The request of a collision test and the request of a pick. *)
Definition MoveJ_Test_request (item : Item) (j1 j2 : tJoints) (minstep : Z)
  : list IOEvent :=
  line_events (bytes_of_string "CollisionMove")
  ++ [Written (be_encode 8 (_PTR item))]
  ++ array_events (Values j1) (nDOFs j1)
  ++ array_events (Values j2) (nDOFs j2)
  ++ [Written (be_encode 4 minstep)].

Definition ItemUserPick_request (message : list byte) (itemtype : Z) : list IOEvent :=
  line_events (bytes_of_string "PickItem") ++ line_events message
  ++ [Written (be_encode 4 itemtype)].

(** A client just built, on the default port, against a server that greets
    and will answer a collision test late: the count comes with the wait
    of the blocking receive, the status with the wait of its decoding. *)
Definition fresh : RoboDK :=
  RoboDK_new 20500 (bytes_of_string "RoboDK") []  (-1) [] []
             (mkHost [Accepted [Data (bytes_of_string "READY 1 0" ++ [LF]);
                                Data (be_encode 4 0);
                                Data (be_encode 4 0)]] [] []).

(** A warning whose message never comes: the status word of the next reply
    follows the status 2, and then nothing. *)
Definition no_message : RoboDK :=
  client_with (Some (socket_holding (be_encode 4 2 ++ be_encode 4 0) [Silence]))
              ROBODK_API_TIMEOUT.

(* ################################################################## *)
(** * Properties                                                       *)
(* ################################################################## *)

(* ------------------------------------------------------------------ *)
(** ** Facts about the codec                                           *)
(* ------------------------------------------------------------------ *)

Lemma Z_of_byte_range (b : byte) : 0 <= Z_of_byte b < 256.
Proof.
  unfold Z_of_byte. pose proof (Byte.to_N_bounded b). lia.
Qed.

Lemma Z_of_byte_of_Z (z : Z) : Z_of_byte (byte_of_Z z) = z mod 256.
Proof.
  unfold byte_of_Z, Z_of_byte.
  assert (Hr : 0 <= z mod 256 < 256) by (apply Z.mod_pos_bound; lia).
  destruct (Byte.of_N (Z.to_N (z mod 256))) as [b|] eqn:E.
  - apply Byte.to_of_N in E. rewrite E. lia.
  - apply Byte.of_N_None_iff in E. lia.
Qed.

Lemma byte_of_Z_of_byte (b : byte) : byte_of_Z (Z_of_byte b) = b.
Proof.
  unfold byte_of_Z.
  rewrite Z.mod_small by apply Z_of_byte_range.
  unfold Z_of_byte. rewrite N2Z.id, Byte.of_to_N. reflexivity.
Qed.

Lemma be_encode_length (n : nat) (z : Z) : length (be_encode n z) = n.
Proof.
  revert z. induction n as [|k IH]; intros z; simpl.
  - reflexivity.
  - rewrite length_app, IH. simpl. lia.
Qed.

Lemma be_decode_app (xs ys : list byte) :
  be_decode (xs ++ ys) = be_decode xs * 256 ^ Z.of_nat (length ys) + be_decode ys.
Proof.
  unfold be_decode.
  rewrite fold_left_app.
  generalize (fold_left (fun acc b => acc * 256 + Z_of_byte b) xs 0) as a.
  induction ys as [|y ys IH]; intros a.
  - simpl. lia.
  - cbn [fold_left length]. rewrite IH.
    rewrite (IH (0 * 256 + Z_of_byte y)).
    rewrite Nat2Z.inj_succ, Z.pow_succ_r by lia. ring.
Qed.


Lemma be_decode_encode (n : nat) (z : Z) :
  be_decode (be_encode n z) = z mod 256 ^ Z.of_nat n.
Proof.
  revert z. induction n as [|k IH]; intros z.
  - cbn. rewrite Z.mod_1_r. reflexivity.
  - cbn [be_encode]. rewrite be_decode_app, IH. cbn [length].
    replace (be_decode [byte_of_Z z]) with (z mod 256)
      by (cbn; rewrite Z_of_byte_of_Z; lia).
    change (256 ^ Z.of_nat 1) with 256.
    rewrite Nat2Z.inj_succ, Z.pow_succ_r by lia.
    assert (Hp : 0 < 256 ^ Z.of_nat k) by (apply Z.pow_pos_nonneg; lia).
    rewrite Z.rem_mul_r by lia. lia.
Qed.

Example float_to_double_one : float_to_double float_one = 4607182418800017408.
Proof. reflexivity. Qed.

Example float_to_double_min_subnormal : float_to_double 1 = 3936146074321813504.
Proof. reflexivity. Qed.

(** 0.1 (0x3FB999999999999A) narrows to 0x3DCCCCCD. *)
Example double_to_float_tenth : double_to_float 4591870180066957722 = 1036831949.
Proof. reflexivity. Qed.

(** 1e39 overflows to +infinity (0x7F800000). *)
Example double_to_float_overflow : double_to_float 5190260616003865117 = 2139095040.
Proof. reflexivity. Qed.

(* ------------------------------------------------------------------ *)
(** ** Widening a float and narrowing it again                         *)
(* ------------------------------------------------------------------ *)

Section Fields.

(** A pattern assembled from sign, exponent and fraction gives the three
    fields back ([we] exponent bits, [wm] fraction bits). *)
Lemma fields_of_pack (we wm s e m : Z) :
  0 <= we -> 0 <= wm ->
  0 <= s -> 0 <= e < 2 ^ we -> 0 <= m < 2 ^ wm ->
  let x := s * 2 ^ (we + wm) + e * 2 ^ wm + m in
  x / 2 ^ (we + wm) = s /\ (x / 2 ^ wm) mod 2 ^ we = e /\ x mod 2 ^ wm = m.
Proof.
  intros Hwe Hwm Hs He Hm x. subst x.
  assert (Pm : 0 < 2 ^ wm) by (apply Z.pow_pos_nonneg; lia).
  assert (Pe : 0 < 2 ^ we) by (apply Z.pow_pos_nonneg; lia).
  rewrite Z.pow_add_r by lia.
  assert (Hlow : 0 <= e * 2 ^ wm + m < 2 ^ we * 2 ^ wm) by nia.
  repeat split.
  - symmetry. apply Z.div_unique with (r := e * 2 ^ wm + m); [left; lia | ring].
  - assert (Hd : (s * (2 ^ we * 2 ^ wm) + e * 2 ^ wm + m) / 2 ^ wm = s * 2 ^ we + e).
    { symmetry. apply Z.div_unique with (r := m); [left; lia | ring]. }
    rewrite Hd. symmetry. apply Z.mod_unique with (q := s); [left; lia | ring].
  - symmetry. apply Z.mod_unique with (q := s * 2 ^ we + e); [left; lia | ring].
Qed.

Lemma double_fields (s e m d : Z) :
  0 <= s -> 0 <= e < 2 ^ 11 -> 0 <= m < 2 ^ 52 ->
  d = s * 2 ^ 63 + e * 2 ^ 52 + m ->
  d / 2 ^ 63 = s /\ (d / 2 ^ 52) mod 2 ^ 11 = e /\ d mod 2 ^ 52 = m.
Proof.
  intros Hs He Hm ->.
  exact (fields_of_pack 11 52 s e m ltac:(lia) ltac:(lia) Hs He Hm).
Qed.

Lemma float_fields (f : float) :
  is_float f ->
  let s := f / 2 ^ 31 in
  let e := (f / 2 ^ 23) mod 2 ^ 8 in
  let m := f mod 2 ^ 23 in
  f = s * 2 ^ 31 + e * 2 ^ 23 + m /\
  0 <= s <= 1 /\ 0 <= e < 2 ^ 8 /\ 0 <= m < 2 ^ 23.
Proof.
  intros Hf. unfold is_float in Hf. cbv zeta.
  pose proof (Z.div_mod f (2 ^ 23) ltac:(lia)) as H1.
  pose proof (Z.mod_pos_bound f (2 ^ 23) ltac:(lia)) as H2.
  pose proof (Z.div_mod (f / 2 ^ 23) (2 ^ 8) ltac:(lia)) as H3.
  pose proof (Z.mod_pos_bound (f / 2 ^ 23) (2 ^ 8) ltac:(lia)) as H4.
  assert (H5 : f / 2 ^ 23 / 2 ^ 8 = f / 2 ^ 31).
  { rewrite Z.div_div by lia. reflexivity. }
  rewrite H5 in H3.
  assert (H6 : 0 <= f / 2 ^ 31 <= 1).
  { split; [apply Z.div_pos; lia|].
    apply Z.lt_succ_r. apply Z.div_lt_upper_bound; lia. }
  change (2 ^ 31) with 2147483648 in *. change (2 ^ 23) with 8388608 in *.
  change (2 ^ 8) with 256 in *. lia.
Qed.

Lemma round_half_even_exact (x sh : Z) :
  0 <= sh -> round_half_even (x * 2 ^ sh) sh = x.
Proof.
  intros Hsh. unfold round_half_even.
  assert (P : 0 < 2 ^ sh) by (apply Z.pow_pos_nonneg; lia).
  rewrite Z.div_mul, Z.mod_mul by lia.
  replace (2 ^ sh <? 2 * 0) with false by (symmetry; apply Z.ltb_ge; lia).
  replace (2 * 0 =? 2 ^ sh) with false by (symmetry; apply Z.eqb_neq; lia).
  reflexivity.
Qed.

Lemma quiet_range (m : Z) :
  0 <= m < 2 ^ 23 -> 2 ^ 22 <= quiet 23 m < 2 ^ 23.
Proof.
  unfold quiet. change (2 ^ (23 - 1)) with 4194304. change (2 ^ 22) with 4194304.
  change (2 ^ 23) with 8388608. intros H.
  destruct (m <? 4194304) eqn:E; [apply Z.ltb_lt in E | apply Z.ltb_ge in E]; lia.
Qed.

Lemma quiet_idem (m : Z) : 0 <= m -> quiet 23 (quiet 23 m) = quiet 23 m.
Proof.
  unfold quiet. change (2 ^ (23 - 1)) with 4194304. intros H.
  destruct (m <? 4194304) eqn:E; [apply Z.ltb_lt in E | rewrite E; reflexivity].
  replace (m + 4194304 <? 4194304) with false; [reflexivity|].
  symmetry. apply Z.ltb_ge. lia.
Qed.

Lemma log2_normal_significand (x : Z) : 2 ^ 52 <= x < 2 ^ 53 -> Z.log2 x = 52.
Proof.
  intros H. apply Z.log2_unique; [lia|]. change (2 ^ Z.succ 52) with (2 ^ 53). lia.
Qed.

(** Narrowing the widening of a float [f] returns [f], a NaN with its quiet
    bit set. *)
Lemma double_to_float_to_double (f : float) :
  is_float f -> double_to_float (float_to_double f) = canonical f.
Proof.
  intros Hf.
  destruct (float_fields f Hf) as (Hdec & Hs & He & Hm).
  unfold float_to_double, canonical.
  set (s := f / 2 ^ 31) in *.
  set (e := (f / 2 ^ 23) mod 2 ^ 8) in *.
  set (m := f mod 2 ^ 23) in *.
  change (2 ^ 8) with 256 in He.
  destruct (e =? 255) eqn:E255; [apply Z.eqb_eq in E255|apply Z.eqb_neq in E255].
  - (* infinity and NaN *)
    destruct (m =? 0) eqn:Em; [apply Z.eqb_eq in Em|apply Z.eqb_neq in Em]; cbn [andb negb].
    + match goal with |- double_to_float ?d = _ =>
        destruct (double_fields s 2047 0 d) as (F1 & F2 & F3); try lia end.
      unfold double_to_float. rewrite F1, F2, F3. cbn. lia.
    + pose proof (quiet_range m Hm) as Hq.
      match goal with |- double_to_float ?d = _ =>
        destruct (double_fields s 2047 (quiet 23 m * 2 ^ 29) d) as (F1 & F2 & F3);
          try lia end.
      unfold double_to_float. rewrite F1, F2, F3.
      change (2047 =? 2047) with true. cbv iota.
      replace (quiet 23 m * 2 ^ 29 =? 0) with false by (symmetry; apply Z.eqb_neq; lia).
      rewrite Z.div_mul by lia. rewrite quiet_idem by lia. lia.
  - cbn [andb].
    destruct (e =? 0) eqn:E0; [apply Z.eqb_eq in E0|apply Z.eqb_neq in E0].
    + destruct (m =? 0) eqn:Em; [apply Z.eqb_eq in Em|apply Z.eqb_neq in Em].
      * (* zero *)
        match goal with |- double_to_float ?d = _ =>
          destruct (double_fields s 0 0 d) as (F1 & F2 & F3); try lia end.
        unfold double_to_float. rewrite F1, F2, F3. cbn. lia.
      * (* subnormal float *)
        assert (Hm1 : 0 < m) by lia.
        destruct (Z.log2_spec m Hm1) as [Hk1 Hk2].
        pose proof (Z.log2_nonneg m) as Hk0.
        set (k := Z.log2 m) in *.
        assert (Hk22 : k <= 22).
        { destruct (Z.le_gt_cases k 22) as [|Hgt]; [assumption|exfalso].
          assert (2 ^ 23 <= 2 ^ k) by (apply Z.pow_le_mono_r; lia). lia. }
        assert (Hpow : 2 ^ k * 2 ^ (52 - k) = 2 ^ 52).
        { rewrite <- Z.pow_add_r by lia. f_equal. lia. }
        assert (Hp1 : 0 < 2 ^ (52 - k)) by (apply Z.pow_pos_nonneg; lia).
        assert (Hp2 : 0 < 2 ^ k) by (apply Z.pow_pos_nonneg; lia).
        rewrite Z.pow_succ_r in Hk2 by lia.
        match goal with |- double_to_float ?d = _ =>
          destruct (double_fields s (k + 874) ((m - 2 ^ k) * 2 ^ (52 - k)) d)
            as (F1 & F2 & F3); try lia; [nia|] end.
        unfold double_to_float. rewrite F1, F2, F3.
        replace (k + 874 =? 2047) with false by (symmetry; apply Z.eqb_neq; lia).
        replace (k + 874 =? 0) with false by (symmetry; apply Z.eqb_neq; lia).
        replace (2 ^ 52 + (m - 2 ^ k) * 2 ^ (52 - k)) with (m * 2 ^ (52 - k)) by lia.
        assert (Hsig : 2 ^ 52 <= m * 2 ^ (52 - k) < 2 ^ 53).
        { change (2 ^ 53) with (2 * 2 ^ 52). nia. }
        rewrite (log2_normal_significand _ Hsig).
        replace (m * 2 ^ (52 - k) =? 0) with false by (symmetry; apply Z.eqb_neq; lia).
        replace (Z.max (k + 874) 1) with (k + 874) by lia.
        replace (Z.max (52 + (k + 874 - 1075) - 23) (-149)) with (-149) by lia.
        replace (-149 - (k + 874 - 1075)) with (52 - k) by lia.
        rewrite round_half_even_exact by lia.
        change (2 ^ 23) with 8388608 in *. change (2 ^ 31) with 2147483648 in *. lia.
    + (* normal float *)
      match goal with |- double_to_float ?d = _ =>
        destruct (double_fields s (e + 896) (m * 2 ^ 29) d) as (F1 & F2 & F3);
          try lia end.
      unfold double_to_float. rewrite F1, F2, F3.
      replace (e + 896 =? 2047) with false by (symmetry; apply Z.eqb_neq; lia).
      replace (e + 896 =? 0) with false by (symmetry; apply Z.eqb_neq; lia).
      replace (2 ^ 52 + m * 2 ^ 29) with ((2 ^ 23 + m) * 2 ^ 29) by lia.
      assert (Hsig : 2 ^ 52 <= (2 ^ 23 + m) * 2 ^ 29 < 2 ^ 53) by lia.
      rewrite (log2_normal_significand _ Hsig).
      replace ((2 ^ 23 + m) * 2 ^ 29 =? 0) with false by (symmetry; apply Z.eqb_neq; lia).
      replace (Z.max (e + 896) 1) with (e + 896) by lia.
      replace (Z.max (52 + (e + 896 - 1075) - 23) (-149)) with (e - 150) by lia.
      replace (e - 150 - (e + 896 - 1075)) with 29 by lia.
      rewrite round_half_even_exact by lia.
      change (2 ^ 23) with 8388608 in *. change (2 ^ 31) with 2147483648 in *. lia.
Qed.

Lemma float_to_double_canonical (f : float) :
  is_float f -> float_to_double (canonical f) = float_to_double f.
Proof.
  intros Hf.
  destruct (float_fields f Hf) as (Hdec & Hs & He & Hm).
  unfold canonical.
  set (s := f / 2 ^ 31) in *.
  set (e := (f / 2 ^ 23) mod 2 ^ 8) in *.
  set (m := f mod 2 ^ 23) in *.
  destruct (e =? 255) eqn:E255; [apply Z.eqb_eq in E255|reflexivity].
  destruct (m =? 0) eqn:Em; [reflexivity|apply Z.eqb_neq in Em]. cbn [andb negb].
  pose proof (quiet_range m Hm) as Hq.
  destruct (fields_of_pack 8 23 s 255 (quiet 23 m)) as (F1 & F2 & F3); try lia.
  cbn zeta in F1, F2, F3. change (8 + 23) with 31 in *.
  replace (f - m + quiet 23 m) with (s * 2 ^ 31 + 255 * 2 ^ 23 + quiet 23 m) by lia.
  unfold float_to_double. rewrite F1, F2, F3.
  fold s e m. rewrite E255. change (255 =? 255) with true. cbv iota.
  replace (quiet 23 m =? 0) with false by (symmetry; apply Z.eqb_neq; lia).
  replace (m =? 0) with false by (symmetry; apply Z.eqb_neq; lia).
  rewrite quiet_idem by lia. reflexivity.
Qed.

(** The double read from an entry survives a store into an entry. *)
Lemma float_to_double_roundtrip (f : float) :
  is_float f ->
  float_to_double (double_to_float (float_to_double f)) = float_to_double f.
Proof.
  intros Hf. rewrite double_to_float_to_double by assumption.
  apply float_to_double_canonical; assumption.
Qed.

End Fields.

(* ------------------------------------------------------------------ *)
(** ** The socket                                                      *)
(* ------------------------------------------------------------------ *)

Lemma read_front (bs rest : list byte) (c : QTcpSocket) :
  buffered c = bs ++ rest ->
  read (length bs) c = (bs, took bs rest c).
Proof.
  intros H. unfold read, took. rewrite H.
  rewrite firstn_app, Nat.sub_diag, firstn_all. cbn [firstn]. rewrite app_nil_r.
  rewrite skipn_app, Nat.sub_diag, skipn_all. reflexivity.
Qed.

Lemma stream_get_front (n : nat) (bs rest : list byte) (c : QTcpSocket) :
  length bs = n -> buffered c = bs ++ rest ->
  stream_get n c = (be_decode bs, took bs rest c).
Proof.
  intros Hn H. unfold stream_get. subst n.
  rewrite (read_front bs rest c H). rewrite Nat.eqb_refl. reflexivity.
Qed.

Lemma await_ready (size timeout : Z) (c : QTcpSocket) :
  size <= bytesAvailable c -> await size timeout c = (true, c).
Proof.
  intros H. unfold await.
  replace (bytesAvailable c <? size) with false by (symmetry; apply Z.ltb_ge; lia).
  reflexivity.
Qed.

Lemma line_length_front (line rest : list byte) :
  ~ In LF line -> line_length (line ++ LF :: rest) = length (line ++ [LF]).
Proof.
  induction line as [|b line IH]; intros Hnot; cbn [line_length app length].
  - reflexivity.
  - destruct (Byte.eqb LF b) eqn:E.
    + apply Byte.byte_dec_bl in E. exfalso. apply Hnot. left. symmetry. exact E.
    + rewrite IH; [reflexivity|]. intros Hin. apply Hnot. right. exact Hin.
Qed.

Lemma canReadLine_front (line rest : list byte) (c : QTcpSocket) :
  buffered c = line ++ LF :: rest -> canReadLine c = true.
Proof.
  intros H. unfold canReadLine. rewrite H. apply existsb_exists.
  exists LF. split; [apply in_or_app; right; left; reflexivity | reflexivity].
Qed.

(* ------------------------------------------------------------------ *)
(** ** The fields of the client                                        *)
(* ------------------------------------------------------------------ *)

Lemma _COM_set_COM (com : option QTcpSocket) (s : RoboDK) : _COM (set_COM com s) = com.
Proof. reflexivity. Qed.

Lemma set_COM_set_COM (a b : option QTcpSocket) (s : RoboDK) :
  set_COM a (set_COM b s) = set_COM a s.
Proof. reflexivity. Qed.

Lemma set_COM_same (s : RoboDK) (c : QTcpSocket) : _COM s = Some c -> set_COM (Some c) s = s.
Proof. destruct s; cbn. intros ->. reflexivity. Qed.

Lemma _TIMEOUT_set_COM (com : option QTcpSocket) (s : RoboDK) :
  _TIMEOUT (set_COM com s) = _TIMEOUT s.
Proof. reflexivity. Qed.

(* ------------------------------------------------------------------ *)
(** ** Receiving an integer and a line                                 *)
(* ------------------------------------------------------------------ *)

Lemma _recv_Int_front (s : RoboDK) (c : QTcpSocket) (v : Z) (rest : list byte) :
  _COM s = Some c -> buffered c = be_encode 4 v ++ rest ->
  _recv_Int s =
  (to_signed 32 (v mod 2 ^ 32), set_COM (Some (took (be_encode 4 v) rest c)) s).
Proof.
  intros Hc Hb. unfold _recv_Int. rewrite Hc.
  rewrite await_ready.
  2:{ unfold bytesAvailable. rewrite Hb, length_app, be_encode_length. lia. }
  cbn [negb].
  rewrite (stream_get_front 4 (be_encode 4 v) rest c (be_encode_length 4 v) Hb).
  rewrite be_decode_encode. reflexivity.
Qed.

(** One call of [_recv_Line] with a whole line in the buffer takes that
    line, its terminator included, and nothing else. *)
Lemma _recv_Line_front (s : RoboDK) (c : QTcpSocket) (line rest : list byte) :
  _COM s = Some c -> buffered c = line ++ LF :: rest -> ~ In LF line ->
  _recv_Line s =
  (trimmed (line ++ [LF]), set_COM (Some (took (line ++ [LF]) rest c)) s).
Proof.
  intros Hc Hb Hnot. unfold _recv_Line, _waitline. rewrite Hc.
  cbn [_waitline_loop]. rewrite (canReadLine_front line rest c Hb).
  cbn [negb]. rewrite _COM_set_COM. unfold readLine.
  rewrite Hb at 1. rewrite (line_length_front line rest Hnot).
  assert (Hb' : buffered c = (line ++ [LF]) ++ rest).
  { rewrite Hb, <- app_assoc. reflexivity. }
  rewrite (read_front (line ++ [LF]) rest c Hb'). rewrite set_COM_set_COM.
  reflexivity.
Qed.

(* ------------------------------------------------------------------ *)
(** ** Status decoding                                                 *)
(* ------------------------------------------------------------------ *)

Lemma canReadLine_split (c : QTcpSocket) :
  canReadLine c = true ->
  exists line rest, buffered c = line ++ LF :: rest /\ ~ In LF line.
Proof.
  unfold canReadLine. induction (buffered c) as [|b bs IH]; [discriminate|].
  cbn [existsb]. destruct (Byte.eqb LF b) eqn:E.
  - intros _. apply Byte.byte_dec_bl in E. subst b.
    exists [], bs. split; [reflexivity|]. intros [].
  - cbn [orb]. intros H. destruct (IH H) as (line & rest & Hb & Hnot).
    exists (b :: line), rest. split; [rewrite Hb; reflexivity|].
    intros [Hin|Hin]; [|exact (Hnot Hin)].
    subst b. rewrite (Byte.byte_dec_lb eq_refl) in E. discriminate.
Qed.

Lemma canReadLine_none (c : QTcpSocket) :
  canReadLine c = false -> ~ In LF (buffered c).
Proof.
  unfold canReadLine. intros H Hin.
  assert (Ht : existsb (Byte.eqb LF) (buffered c) = true).
  { apply existsb_exists. exists LF. split; [exact Hin|apply Byte.byte_dec_lb; reflexivity]. }
  rewrite H in Ht. discriminate.
Qed.

(** The loop of [_waitline]: it only waits, with the timeout it is given;
    what arrives is appended to the buffer, of which nothing is taken; it
    does not wait when a line is there; it ends with [true] exactly when a
    line can be read, and with [false] after a wait that met nothing. *)
Lemma _waitline_loop_spec (fuel : nat) (timeout : Z) :
  forall c : QTcpSocket,
    (length (peer c) < fuel)%nat ->
    let r := _waitline_loop fuel timeout c in
    exists arrived waits,
      connected (snd r) = connected c /\
      buffered (snd r) = buffered c ++ arrived /\
      transcript (snd r) = transcript c ++ waits /\
      waits_only timeout waits /\
      fst r = canReadLine (snd r) /\
      (canReadLine c = true -> snd r = c) /\
      (fst r = false -> exists before, waits = before ++ [Waited timeout false]).
Proof.
  induction fuel as [|k IH]; intros c Hk; [lia|].
  cbn [_waitline_loop]. destruct (canReadLine c) eqn:E.
  - exists [], []. cbn [fst snd]. rewrite !app_nil_r.
    repeat split; try reflexivity; try (symmetry; exact E); try constructor.
    discriminate.
  - unfold waitForReadyRead. destruct (peer c) as [|[bs|] later] eqn:Ep.
    + exists [], [Waited timeout false]. cbn [fst snd log connected buffered transcript].
      rewrite app_nil_r. repeat split; try discriminate.
      * constructor; [exists false; reflexivity|constructor].
      * symmetry. exact E.
      * exists []. reflexivity.
    + cbn [length] in Hk.
      specialize (IH (mkSocket (connected c) (buffered c ++ bs) later
                               (transcript c ++ [Waited timeout true]))).
      cbn [peer] in IH.
      destruct (IH ltac:(lia)) as (arrived & waits & H1 & H2 & H3 & H4 & H5 & _ & H7).
      cbn [connected buffered transcript] in *.
      exists (bs ++ arrived), (Waited timeout true :: waits).
      split; [exact H1|]. split; [rewrite H2, <- app_assoc; reflexivity|].
      split; [rewrite H3, <- app_assoc; reflexivity|].
      split; [constructor; [exists true; reflexivity|exact H4]|].
      split; [exact H5|]. split; [discriminate|].
      intros Hf. destruct (H7 Hf) as [before Hb]. exists (Waited timeout true :: before).
      rewrite Hb. reflexivity.
    + exists [], [Waited timeout false]. cbn [fst snd connected buffered transcript].
      rewrite app_nil_r. repeat split; try discriminate.
      * constructor; [exists false; reflexivity|constructor].
      * symmetry. exact E.
      * exists []. reflexivity.
Qed.

(** [_recv_Line] by what [_waitline] leaves ([w] is the socket then): the
    first line, its terminator included, is taken when there is one, and
    everything buffered otherwise. *)
Lemma _recv_Line_waited (s : RoboDK) (c w : QTcpSocket) (ok : bool) :
  _COM s = Some c ->
  _waitline_loop (S (length (peer c))) (_TIMEOUT s) c = (ok, w) ->
  (ok = true ->
   forall line rest,
     buffered w = line ++ LF :: rest -> ~ In LF line ->
     _recv_Line s =
     (trimmed (line ++ [LF]), set_COM (Some (took (line ++ [LF]) rest w)) s)) /\
  (ok = false -> _recv_Line s = ([], set_COM (Some (took (buffered w) [] w)) s)).
Proof.
  intros Hc Hw. unfold _recv_Line, _waitline. rewrite Hc, Hw. split.
  - intros -> line rest Hb Hnot. cbn [negb]. rewrite _COM_set_COM. unfold readLine.
    rewrite Hb at 1. rewrite (line_length_front line rest Hnot).
    assert (Hb' : buffered w = (line ++ [LF]) ++ rest).
    { rewrite Hb, <- app_assoc. reflexivity. }
    rewrite (read_front (line ++ [LF]) rest w Hb'). rewrite set_COM_set_COM.
    reflexivity.
  - intros ->. cbn [negb]. rewrite _COM_set_COM. unfold readAll.
    rewrite (read_front (buffered w) [] w (eq_sym (app_nil_r _))).
    rewrite set_COM_set_COM. reflexivity.
Qed.

(** The claim C1 fails on the code: the words "exactly one message line"
    do not hold when the line is not complete as the wait times out.  On
    [cut_short] the status is 2, seven bytes of the message are buffered and
    the rest of the line comes too late: [_check_status] reports success,
    and what it has taken after the status word is those seven bytes, which
    are no line; the end of the line will be met by the next receive. *)
Lemma check_status_discards_on_timeout :
  _check_status cut_short =
  (false,
   client_with
     (Some (mkSocket true [] [Data (bytes_of_string "tery" ++ [LF])]
              [Taken (be_encode 4 2); Waited 1000 false;
               Taken (bytes_of_string "low bat")]))
     ROBODK_API_TIMEOUT).
Proof. vm_compute. reflexivity. Qed.

(** On [no_message] what is taken and thrown away after the status 2 is
    the status word of the next reply. *)
Example check_status_swallows_next_word :
  _check_status no_message =
  (false,
   client_with
     (Some (mkSocket true [] []
              [Taken (be_encode 4 2); Waited 1000 false; Taken (be_encode 4 0)]))
     ROBODK_API_TIMEOUT).
Proof. vm_compute. reflexivity. Qed.

(** C1, amended — [_check_status] after the status word [status] has been
    read ([s1] is the client right after that read).  Status 0 is success
    ([false], "no problem"), status 1 and status 9 are failures, and for
    every status but 2 and 3 nothing more is consumed: no line is read.
    Status 2 is success and status 3 is a failure, and for both one
    [_recv_Line] follows: it waits with the timeout of the client, taking
    nothing (and does not wait when a line is there already), until the
    buffer ([w] is the socket as [_waitline] leaves it) holds a line feed
    or a wait meets nothing.  With a line feed in the buffer, exactly the first line, its
    line feed included, is taken and what follows it stays, also when the
    line came with the waits.  Otherwise everything buffered is taken,
    line or not, and the result is the same success or failure. *)
Theorem check_status_taxonomy (s s1 : RoboDK) (status : Z) :
  _recv_Int s = (status, s1) ->
  (status = 0 -> _check_status s = (false, s1)) /\
  (status = 1 \/ status = 9 -> _check_status s = (true, s1)) /\
  (status <> 2 -> status <> 3 -> snd (_check_status s) = s1) /\
  (status = 2 -> fst (_check_status s) = false) /\
  (status = 3 -> fst (_check_status s) = true) /\
  (status = 2 \/ status = 3 ->
   exists c w arrived waits,
     _COM s1 = Some c /\
     _waitline s1 = (canReadLine w, set_COM (Some w) s1) /\
     connected w = connected c /\
     buffered w = buffered c ++ arrived /\
     transcript w = transcript c ++ waits /\
     waits_only (_TIMEOUT s1) waits /\
     (canReadLine c = true -> w = c) /\
     ((exists line rest,
          buffered w = line ++ LF :: rest /\ ~ In LF line /\
          snd (_check_status s) = set_COM (Some (took (line ++ [LF]) rest w)) s1) \/
      (~ In LF (buffered w) /\
       (exists before, waits = before ++ [Waited (_TIMEOUT s1) false]) /\
       snd (_check_status s) = set_COM (Some (took (buffered w) [] w)) s1))).
Proof.
  intros Hint.
  assert (Hline : status = 2 \/ status = 3 ->
                  snd (_check_status s) = snd (_recv_Line s1)).
  { unfold _check_status. rewrite Hint.
    intros [-> | ->]; cbn; destruct (_recv_Line s1); reflexivity. }
  split; [|split; [|split; [|split; [|split]]]].
  - intros ->. unfold _check_status. rewrite Hint. reflexivity.
  - unfold _check_status. rewrite Hint. intros [-> | ->]; reflexivity.
  - intros H2 H3. unfold _check_status. rewrite Hint.
    destruct ((0 <? status) && (status <? 10)); [|destruct (status =? 0); reflexivity].
    destruct (status =? 1); [reflexivity|].
    destruct (status =? 2) eqn:E2; [apply Z.eqb_eq in E2; contradiction|].
    destruct (status =? 3) eqn:E3; [apply Z.eqb_eq in E3; contradiction|].
    destruct (status =? 9); reflexivity.
  - intros ->. unfold _check_status. rewrite Hint. cbn.
    destruct (_recv_Line s1). reflexivity.
  - intros ->. unfold _check_status. rewrite Hint. cbn.
    destruct (_recv_Line s1). reflexivity.
  - intros Hst. rewrite (Hline Hst).
    assert (Hsock : exists c, _COM s1 = Some c).
    { unfold _recv_Int in Hint. destruct (_COM s) as [c0|].
      - destruct (await 4 (_TIMEOUT s) c0) as [enough c1].
        destruct enough; cbn [negb] in Hint.
        + destruct (stream_get 4 c1) as [v c2]. inversion Hint. eexists. reflexivity.
        + inversion Hint. eexists. reflexivity.
      - inversion Hint. lia. }
    destruct Hsock as [c Hc].
    destruct (_waitline_loop_spec (S (length (peer c))) (_TIMEOUT s1) c
                (Nat.lt_succ_diag_r _))
      as (arrived & waits & H1 & H2 & H3 & H4 & H5 & H6 & H7).
    destruct (_waitline_loop (S (length (peer c))) (_TIMEOUT s1) c) as [ok w] eqn:Ew.
    cbn [fst snd] in *.
    destruct (_recv_Line_waited s1 c w ok Hc Ew) as (Rt & Rf).
    exists c, w, arrived, waits.
    split; [exact Hc|].
    split; [unfold _waitline; rewrite Hc, Ew, H5; reflexivity|].
    split; [exact H1|]. split; [exact H2|]. split; [exact H3|].
    split; [exact H4|]. split; [exact H6|].
    destruct ok.
    + left. destruct (canReadLine_split w (eq_sym H5)) as (line & rest & Hb & Hnot).
      exists line, rest. split; [exact Hb|]. split; [exact Hnot|].
      rewrite (Rt eq_refl line rest Hb Hnot). reflexivity.
    + right. split; [apply canReadLine_none; symmetry; exact H5|].
      split; [exact (H7 eq_refl)|]. rewrite (Rf eq_refl). reflexivity.
Qed.

(** On [late_line] the status is 2 and the call reports success. *)
Lemma check_status_taxonomy_witness : fst (_check_status late_line) = false.
Proof.
  exact (proj1 (proj2 (proj2 (proj2
           (check_status_taxonomy late_line (snd (_recv_Int late_line)) 2 eq_refl))))
               eq_refl).
Defined.

(** On [warned] the message line is in the buffer: it is taken after the
    status word, and no more. *)
Example check_status_line_buffered :
  _check_status warned =
  (false,
   client_with
     (Some (mkSocket true (be_encode 4 0) []
              [Taken (be_encode 4 2); Taken (bytes_of_string "low battery" ++ [LF])]))
     ROBODK_API_TIMEOUT).
Proof. vm_compute. reflexivity. Qed.

(** On [late_line] the end of the line comes with the wait: the line is
    taken whole, and the status word that came with it stays. *)
Example check_status_line_arrives :
  _check_status late_line =
  (false,
   client_with
     (Some (mkSocket true (be_encode 4 0) []
              [Taken (be_encode 4 2); Waited 1000 true;
               Taken (bytes_of_string "low battery" ++ [LF])]))
     ROBODK_API_TIMEOUT).
Proof. vm_compute. reflexivity. Qed.

(* ------------------------------------------------------------------ *)
(** ** Receiving an array                                              *)
(* ------------------------------------------------------------------ *)

Lemma _recv_Int_keeps_socket (s s1 : RoboDK) (n : Z) :
  _recv_Int s = (n, s1) ->
  match _COM s with
  | None => n = 0 /\ s1 = s
  | Some _ => exists c1, _COM s1 = Some c1
  end.
Proof.
  unfold _recv_Int. destruct (_COM s) as [c|].
  - destruct (await 4 (_TIMEOUT s) c) as [enough c1].
    destruct enough; cbn [negb].
    + destruct (stream_get 4 c1) as [v c2]. intros H. inversion H. eexists. reflexivity.
    + intros H. inversion H. eexists. reflexivity.
  - intros H. inversion H. split; reflexivity.
Qed.

Lemma _recv_Array_rejected (values : list double) (psize : option Z)
      (s s1 : RoboDK) (n : Z) :
  _recv_Int s = (n, s1) -> 50 < n ->
  _recv_Array values psize s =
  (false, values, match psize with Some _ => Some n | None => None end, s1).
Proof.
  intros Hint Hn. unfold _recv_Array. rewrite Hint.
  pose proof (_recv_Int_keeps_socket s s1 n Hint) as Hk.
  destruct (_COM s) as [c|].
  - destruct Hk as [c1 Hc1]. rewrite Hc1.
    replace (n <? 0) with false by (symmetry; apply Z.ltb_ge; lia).
    replace (50 <? n) with true by (symmetry; apply Z.ltb_lt; lia).
    reflexivity.
  - destruct Hk as [Hz _]. lia.
Qed.

(** C3 — a declared count [n > 50] ([s1] is the client right after the
    count has been read): [_recv_Array] reports failure, leaves the array
    as it was, and leaves the channel exactly where the read of the count
    left it: with the count at the front of the buffer, the four bytes of
    the count are the only ones taken and no wait is made. *)
Theorem recv_Array_rejects_large_count (values : list double) (psize : option Z)
        (s s1 : RoboDK) (n : Z) :
  _recv_Int s = (n, s1) -> 50 < n ->
  let '(ok, values', _, s') := _recv_Array values psize s in
  ok = false /\ values' = values /\ s' = s1 /\
  (forall c rest,
      _COM s = Some c -> buffered c = be_encode 4 n ++ rest ->
      s' = set_COM (Some (took (be_encode 4 n) rest c)) s).
Proof.
  intros Hint Hn. rewrite (_recv_Array_rejected values psize s s1 n Hint Hn).
  repeat split.
  intros c rest Hc Hb.
  rewrite (_recv_Int_front s c n rest Hc Hb) in Hint. inversion Hint. reflexivity.
Qed.

(** On [oversized] the count 51 is refused: only its four bytes are taken,
    the doubles behind it stay in the buffer and the peer is not waited
    for. *)
Lemma recv_Array_rejects_large_count_witness :
  fst (fst (fst (_recv_Array (Values six_joints) None oversized))) = false /\
  snd (_recv_Array (Values six_joints) None oversized) =
  client_with
    (Some (mkSocket true (be_encode 8 4607182418800017408) [Data (be_encode 8 0)]
                    [Taken (be_encode 4 51)]))
    ROBODK_API_TIMEOUT.
Proof.
  pose proof (recv_Array_rejects_large_count (Values six_joints) None oversized
                (snd (_recv_Int oversized)) 51 eq_refl eq_refl) as H.
  destruct (_recv_Array (Values six_joints) None oversized) as [[[ok v] p] s'].
  destruct H as (H1 & _ & H3 & _). split; [exact H1|].
  cbn [snd]. rewrite H3. reflexivity.
Defined.

(** C10 — a declared count [n > 50]: the count is stored through [psize]
    before it is checked, so [_recv_Array] fails with [*psize = n]; a
    receive into a joint vector fails with [nDOFs = n], above the ceiling
    of 50, and with [Values] untouched. *)
Theorem recv_Array_size_written_before_check (jnts : tJoints)
        (s s1 : RoboDK) (n : Z) :
  _recv_Int s = (n, s1) -> 50 < n ->
  _recv_Array_joints jnts s = (false, mkJoints (Values jnts) n, s1) /\
  50 < nDOFs (snd (fst (_recv_Array_joints jnts s))) /\
  (forall values old, _recv_Array values (Some old) s = (false, values, Some n, s1)).
Proof.
  intros Hint Hn.
  assert (H : _recv_Array_joints jnts s = (false, mkJoints (Values jnts) n, s1)).
  { unfold _recv_Array_joints.
    rewrite (_recv_Array_rejected (Values jnts) (Some (nDOFs jnts)) s s1 n Hint Hn).
    reflexivity. }
  split; [exact H|]. split.
  - rewrite H. exact Hn.
  - intros values old. apply (_recv_Array_rejected values (Some old) s s1 n Hint Hn).
Qed.

(** On [oversized] a joint vector of six comes back with [nDOFs = 51]. *)
Lemma recv_Array_size_written_before_check_witness :
  _recv_Array_joints six_joints oversized =
  (false, mkJoints [0; 0; 0; 0; 0; 0] 51, snd (_recv_Int oversized)).
Proof.
  exact (proj1 (recv_Array_size_written_before_check six_joints oversized
                  (snd (_recv_Int oversized)) 51 eq_refl eq_refl)).
Defined.

(* ------------------------------------------------------------------ *)
(** ** Handles                                                         *)
(* ------------------------------------------------------------------ *)

Lemma write_open (bs : list byte) (c : QTcpSocket) :
  connected c = true -> write bs c = log (Written bs) c.
Proof. intros H. unfold write, isOpen. rewrite H. reflexivity. Qed.

Lemma await_short (size timeout : Z) (c : QTcpSocket) :
  bytesAvailable c < size ->
  bytesAvailable (snd (waitForReadyRead timeout c)) < size ->
  await size timeout c = (false, snd (waitForReadyRead timeout c)).
Proof.
  intros H1 H2. unfold await.
  replace (bytesAvailable c <? size) with true by (symmetry; apply Z.ltb_lt; lia).
  destruct (waitForReadyRead timeout c) as [r c']. cbn [snd] in *.
  replace (bytesAvailable c' <? size) with true by (symmetry; apply Z.ltb_lt; lia).
  reflexivity.
Qed.


(** When the peer sends the identifier alone, the read of the tag comes
    back empty and the stream delivers zero: the tag is 0, not [-1]. *)
Example recv_Item_tag_missing :
  fst (_recv_Item (client_with (Some (socket_holding (be_encode 8 5) [Silence]))
                               ROBODK_API_TIMEOUT))
  = mkItem 5 0.
Proof. vm_compute. reflexivity. Qed.



(** A tag of [-1] can come from the wire as well. *)
Example recv_Item_tag_minus_one :
  fst (_recv_Item (holding (be_encode 8 5 ++ be_encode 4 (-1)))) = mkItem 5 (-1).
Proof. vm_compute. reflexivity. Qed.



(* ------------------------------------------------------------------ *)
(** ** Poses                                                           *)
(* ------------------------------------------------------------------ *)

Lemma float_to_double_range (f : float) : is_float f -> is_double (float_to_double f).
Proof.
  intros Hf.
  destruct (float_fields f Hf) as (Hdec & Hs & He & Hm).
  unfold float_to_double, is_double.
  set (s := f / 2 ^ 31) in *.
  set (e := (f / 2 ^ 23) mod 2 ^ 8) in *.
  set (m := f mod 2 ^ 23) in *.
  change (2 ^ 8) with 256 in He.
  destruct (e =? 255) eqn:E255; [apply Z.eqb_eq in E255|apply Z.eqb_neq in E255].
  - destruct (m =? 0); [lia|]. pose proof (quiet_range m Hm). lia.
  - destruct (e =? 0) eqn:E0; [apply Z.eqb_eq in E0|apply Z.eqb_neq in E0]; [|lia].
    destruct (m =? 0) eqn:Em; [lia|apply Z.eqb_neq in Em].
    assert (Hm1 : 0 < m) by lia.
    destruct (Z.log2_spec m Hm1) as [Hk1 Hk2].
    pose proof (Z.log2_nonneg m) as Hk0.
    set (k := Z.log2 m) in *.
    assert (Hk22 : k <= 22).
    { destruct (Z.le_gt_cases k 22) as [|Hgt]; [assumption|exfalso].
      assert (2 ^ 23 <= 2 ^ k) by (apply Z.pow_le_mono_r; lia). lia. }
    assert (Hpow : 2 ^ k * 2 ^ (52 - k) = 2 ^ 52).
    { rewrite <- Z.pow_add_r by lia. f_equal. lia. }
    assert (Hp1 : 0 < 2 ^ (52 - k)) by (apply Z.pow_pos_nonneg; lia).
    assert (Hp2 : 0 < 2 ^ k) by (apply Z.pow_pos_nonneg; lia).
    rewrite Z.pow_succ_r in Hk2 by lia.
    assert (0 <= (m - 2 ^ k) * 2 ^ (52 - k) < 2 ^ 52) by nia.
    lia.
Qed.

Lemma took_took_all (fs : list (list byte)) (b rest : list byte) (c : QTcpSocket) :
  took b rest (took_all fs (b ++ rest) c) = took_all (fs ++ [b]) rest c.
Proof.
  unfold took, took_all. cbn. rewrite map_app, app_assoc. reflexivity.
Qed.

Lemma stream_get_next (fs : list (list byte)) (v : Z) (rest : list byte) (c : QTcpSocket) :
  stream_get 8 (took_all fs (be_encode 8 v ++ rest) c) =
  (v mod 2 ^ 64, took_all (fs ++ [be_encode 8 v]) rest c).
Proof.
  rewrite (stream_get_front 8 (be_encode 8 v) rest
             (took_all fs (be_encode 8 v ++ rest) c) (be_encode_length 8 v) eq_refl).
  rewrite be_decode_encode, took_took_all. reflexivity.
Qed.

Lemma took_all_nil (c : QTcpSocket) : took_all [] (buffered c) c = c.
Proof. destruct c. unfold took_all. cbn. rewrite app_nil_r. reflexivity. Qed.

Lemma sent_app (a b : list IOEvent) : sent (a ++ b) = sent a ++ sent b.
Proof. unfold sent. apply flat_map_app. Qed.

Lemma is_Mat_entries (m : Mat) (i j : Z) :
  is_Mat m -> In i idx4 -> In j idx4 -> is_float (vec_get (row m i) j).
Proof.
  intros (H0 & H1 & H2 & H3) Hi Hj.
  destruct H0 as (? & ? & ? & ?), H1 as (? & ? & ? & ?),
           H2 as (? & ? & ? & ?), H3 as (? & ? & ? & ?).
  cbn in Hi, Hj.
  destruct Hi as [<-|[<-|[<-|[<-|[]]]]]; destruct Hj as [<-|[<-|[<-|[<-|[]]]]];
    cbn; assumption.
Qed.

Lemma Mat_Get_range (m : Mat) (i j : Z) :
  is_Mat m -> In i idx4 -> In j idx4 -> Mat_Get m i j mod 2 ^ 64 = Mat_Get m i j.
Proof.
  intros Hm Hi Hj. apply Z.mod_small.
  apply float_to_double_range, is_Mat_entries; assumption.
Qed.

(** The two nested loops over a pose, as one loop over the sixteen pairs
    (column, row). *)
Lemma fold_idx4_prod (A : Type) (F : A -> Z -> Z -> A) (a : A) :
  fold_left (fun a j => fold_left (fun a i => F a i j) idx4 a) idx4 a =
  fold_left (fun a (ji : Z * Z) => F a (snd ji) (fst ji)) (list_prod idx4 idx4) a.
Proof. reflexivity. Qed.

(** A loop that takes one double per turn from a buffer holding the
    doubles [vs]: every turn gets its double, reduced to 64 bits. *)
Lemma stream_get_loop (A B : Type) (g : A -> B -> Z -> A) (bs : list B) :
  forall (vs : list Z) (fs : list (list byte)) (rest : list byte)
         (c : QTcpSocket) (a : A),
    length vs = length bs ->
    fold_left (fun (st : A * QTcpSocket) b =>
                 let (v, c) := stream_get 8 (snd st) in (g (fst st) b v, c))
              bs (a, took_all fs (flat_map (be_encode 8) vs ++ rest) c) =
    (fold_left (fun a bv => g a (fst bv) (snd bv mod 2 ^ 64)) (combine bs vs) a,
     took_all (fs ++ map (be_encode 8) vs) rest c).
Proof.
  induction bs as [|b bs IH]; intros vs fs rest c a Hlen.
  - destruct vs; [|discriminate]. cbn. rewrite app_nil_r. reflexivity.
  - destruct vs as [|v vs]; [discriminate|].
    cbn [fold_left flat_map combine map fst snd].
    rewrite <- app_assoc, stream_get_next.
    rewrite IH by (cbn in Hlen; lia).
    cbn [fst snd]. rewrite <- app_assoc. reflexivity.
Qed.

(** What [_recv_Pose] builds from the sixteen doubles of [m]. *)
Lemma _recv_Pose_front (r : RoboDK) (d : QTcpSocket) (m : Mat) (rest : list byte) :
  _COM r = Some d -> buffered d = pose_wire m ++ rest ->
  _recv_Pose r =
  (Mat_map (fun f => double_to_float (float_to_double f mod 2 ^ 64)) m,
   set_COM (Some (took_all (map (be_encode 8) (pose_values m)) rest d)) r).
Proof.
  intros Hd Hb. unfold _recv_Pose. rewrite Hd.
  rewrite await_ready.
  2:{ unfold bytesAvailable. rewrite Hb, length_app. unfold pose_wire, pose_values.
      cbn [flat_map map app]. rewrite !length_app, !be_encode_length. cbn. lia. }
  cbn [negb].
  set (step := fun (p : Mat) (ji : Z * Z) (v : Z) => Mat_Set p (snd ji) (fst ji) v).
  rewrite (fold_idx4_prod (Mat * QTcpSocket)
             (fun st i j => let (valuei, c) := stream_get 8 (snd st) in
                            (Mat_Set (fst st) i j valuei, c))).
  change (fun (a : Mat * QTcpSocket) (ji : Z * Z) =>
            let (valuei, c) := stream_get 8 (snd a) in
            (Mat_Set (fst a) (snd ji) (fst ji) valuei, c))
    with (fun (st : Mat * QTcpSocket) (ji : Z * Z) =>
            let (v, c) := stream_get 8 (snd st) in (step (fst st) ji v, c)).
  rewrite <- (took_all_nil d) at 1. rewrite Hb. unfold pose_wire.
  rewrite (stream_get_loop Mat (Z * Z) step (list_prod idx4 idx4) (pose_values m)
             [] rest d Mat_new eq_refl).
  destruct m as [[a0 a1 a2 a3] [b0 b1 b2 b3] [c0 c1 c2 c3] [d0 d1 d2 d3]].
  reflexivity.
Qed.

Lemma did_nil (c : QTcpSocket) : did [] c = c.
Proof. destruct c. unfold did. cbn. rewrite app_nil_r. reflexivity. Qed.

(** A loop that puts one double per turn on an open socket. *)
Lemma stream_put_loop (B : Type) (h : B -> Z) (bs : list B) :
  forall (evs : list IOEvent) (c : QTcpSocket),
    connected c = true ->
    fold_left (fun c b => stream_put 8 (h b) c) bs (did evs c) =
    did (evs ++ map (fun b => Written (be_encode 8 (h b))) bs) c.
Proof.
  induction bs as [|b bs IH]; intros evs c Hopen; cbn [fold_left map].
  - rewrite app_nil_r. reflexivity.
  - unfold stream_put at 2. rewrite write_open by exact Hopen.
    replace (log (Written (be_encode 8 (h b))) (did evs c))
      with (did (evs ++ [Written (be_encode 8 (h b))]) c)
      by (unfold log, did; cbn; rewrite app_assoc; reflexivity).
    rewrite IH by exact Hopen. rewrite <- app_assoc. reflexivity.
Qed.

Lemma sent_Written (vs : list (list byte)) : sent (map Written vs) = concat vs.
Proof.
  induction vs as [|v vs IH]; [reflexivity|].
  cbn [map]. change (sent (Written v :: map Written vs)) with (v ++ sent (map Written vs)).
  rewrite IH. reflexivity.
Qed.

Lemma _send_Pose_open (pose : Mat) (s : RoboDK) (c : QTcpSocket) :
  _COM s = Some c -> connected c = true ->
  exists c',
    _send_Pose pose s = (true, set_COM (Some c') s) /\
    sent (transcript c') = sent (transcript c) ++ pose_wire pose.
Proof.
  intros Hc Hopen. unfold _send_Pose. rewrite Hc. unfold isOpen. rewrite Hopen.
  cbn [negb]. eexists. split; [reflexivity|].
  rewrite (fold_idx4_prod QTcpSocket (fun c i j => stream_put 8 (Mat_Get pose i j) c)).
  rewrite <- (did_nil c) at 1.
  rewrite (stream_put_loop (Z * Z) (fun ji => Mat_Get pose (snd ji) (fst ji))
             (list_prod idx4 idx4) [] c Hopen).
  cbn [did transcript app]. rewrite sent_app. apply f_equal.
  unfold pose_wire.
  rewrite <- (map_map (fun ji : Z * Z => be_encode 8 (Mat_Get pose (snd ji) (fst ji))) Written).
  rewrite sent_Written, <- flat_map_concat_map.
  reflexivity.
Qed.

(** C7 — a pose [pose] (every entry a float): [_send_Pose] writes the 128
    bytes [pose_wire pose], which are the sixteen doubles [Get(i, j)] with
    the column [j] in the outer loop and the row [i] in the inner one; and
    [_recv_Pose] on those bytes takes exactly them and returns a pose whose
    sixteen doubles [Get(i, j)] are bit for bit those of [pose]. *)
Theorem pose_roundtrip (pose : Mat) :
  is_Mat pose ->
  (forall s c,
      _COM s = Some c -> connected c = true ->
      exists c',
        _send_Pose pose s = (true, set_COM (Some c') s) /\
        sent (transcript c') = sent (transcript c) ++ pose_wire pose) /\
  pose_wire pose =
    flat_map (fun j => flat_map (fun i => be_encode 8 (Mat_Get pose i j)) idx4) idx4 /\
  length (pose_wire pose) = 128%nat /\
  (forall r d rest,
      _COM r = Some d -> buffered d = pose_wire pose ++ rest ->
      exists pose' d',
        _recv_Pose r = (pose', set_COM (Some d') r) /\
        buffered d' = rest /\
        forall i j, In i idx4 -> In j idx4 -> Mat_Get pose' i j = Mat_Get pose i j).
Proof.
  intros Hm. split; [|split; [|split]].
  - intros s c Hc Hopen. exact (_send_Pose_open pose s c Hc Hopen).
  - unfold pose_wire, pose_values. cbn [flat_map map app idx4].
    repeat rewrite app_nil_r. repeat rewrite <- app_assoc. reflexivity.
  - unfold pose_wire, pose_values. cbn [flat_map map app].
    rewrite !length_app, !be_encode_length. reflexivity.
  - intros r d rest Hd Hb.
    rewrite (_recv_Pose_front r d pose rest Hd Hb).
    eexists. eexists. split; [reflexivity|]. split; [reflexivity|].
    intros i j Hi Hj.
    pose proof (is_Mat_entries pose i j Hm Hi Hj) as Hf.
    assert (Hget : Mat_Get (Mat_map (fun f => double_to_float (float_to_double f mod 2 ^ 64)) pose) i j
                   = float_to_double (double_to_float
                       (float_to_double (vec_get (row pose i) j) mod 2 ^ 64))).
    { cbn in Hi, Hj.
      destruct Hi as [<-|[<-|[<-|[<-|[]]]]]; destruct Hj as [<-|[<-|[<-|[<-|[]]]]];
        reflexivity. }
    rewrite Hget.
    rewrite Z.mod_small by (apply float_to_double_range; exact Hf).
    unfold Mat_Get. apply float_to_double_roundtrip. exact Hf.
Qed.

Lemma is_Mat_shifted_pose : is_Mat shifted_pose.
Proof.
  unfold is_Mat, is_vec, is_float, shifted_pose, float_one, float_zero.
  cbn [row0 row1 row2 row3 vx vy vz vw]. lia.
Qed.

(** [shifted_pose] sent on [idle] and received from a buffer holding what
    was sent. *)
Lemma pose_roundtrip_witness :
  length (pose_wire shifted_pose) = 128%nat /\
  forall r d rest,
    _COM r = Some d -> buffered d = pose_wire shifted_pose ++ rest ->
    exists pose' d',
      _recv_Pose r = (pose', set_COM (Some d') r) /\
      buffered d' = rest /\
      forall i j, In i idx4 -> In j idx4 ->
                  Mat_Get pose' i j = Mat_Get shifted_pose i j.
Proof.
  exact (proj2 (proj2 (pose_roundtrip shifted_pose is_Mat_shifted_pose))).
Defined.

(** [shifted_pose] written by [_send_Pose] on [idle], and [_recv_Pose] on a
    socket that holds the bytes written. *)
Example pose_roundtrip_run :
  fst (_recv_Pose
         (client_with
            (Some (socket_holding (sent (trace (snd (_send_Pose shifted_pose idle)))) []))
            ROBODK_API_TIMEOUT))
  = shifted_pose.
Proof. vm_compute. reflexivity. Qed.

Lemma is_Mat_identity : is_Mat setToIdentity.
Proof.
  unfold is_Mat, is_vec, is_float, setToIdentity, float_one, float_zero.
  cbn [row0 row1 row2 row3 vx vy vz vw]. lia.
Qed.

(** C9 — [_recv_Pose] returns the identity, the pose [Mat()] builds, when
    it has no socket and when fewer than 128 bytes are there after its one
    wait; it returns the same matrix when the peer really sends the
    identity, so the caller cannot tell the two apart. *)
Theorem recv_Pose_failure_is_identity :
  Mat_new = setToIdentity /\
  (forall s, _COM s = None -> fst (_recv_Pose s) = setToIdentity) /\
  (forall s c,
      _COM s = Some c ->
      bytesAvailable c < 128 ->
      bytesAvailable (snd (waitForReadyRead (_TIMEOUT s) c)) < 128 ->
      fst (_recv_Pose s) = setToIdentity) /\
  (forall s c rest,
      _COM s = Some c -> buffered c = pose_wire setToIdentity ++ rest ->
      fst (_recv_Pose s) = setToIdentity).
Proof.
  repeat split.
  - intros s Hc. unfold _recv_Pose. rewrite Hc. reflexivity.
  - intros s c Hc H1 H2. unfold _recv_Pose. rewrite Hc.
    change (16 * 8) with 128.
    rewrite (await_short 128 (_TIMEOUT s) c H1 H2). reflexivity.
  - intros s c rest Hc Hb.
    rewrite (_recv_Pose_front s c setToIdentity rest Hc Hb). reflexivity.
Qed.

(** On [starved] 56 bytes are buffered and 64 more come with the wait: 120
    in all, and the pose returned is the identity. *)
Lemma recv_Pose_failure_is_identity_witness :
  fst (_recv_Pose starved) = setToIdentity.
Proof.
  refine (proj1 (proj2 (proj2 recv_Pose_failure_is_identity)) starved
            (socket_holding (firstn 56 (pose_wire shifted_pose))
               [Data (firstn 64 (skipn 56 (pose_wire shifted_pose))); Silence])
            eq_refl _ _); vm_compute; reflexivity.
Defined.

(* ------------------------------------------------------------------ *)
(** ** Connecting                                                      *)
(* ------------------------------------------------------------------ *)

Lemma host_disconnect (s : RoboDK) : host (_disconnect s) = host s.
Proof. unfold _disconnect. destruct (_COM s); reflexivity. Qed.

Lemma _connect_result (s : RoboDK) :
  fst (_connect s) =
  match handshake_reply (host s) with
  | Some bs => startsWith bs ROBODK_API_READY_STRING
  | None => false
  end /\
  (fst (_connect s) = false -> _COM (snd (_connect s)) = None) /\
  (fst (_connect s) = true -> _connected (snd (_connect s)) = true).
Proof.
  unfold _connect, handshake_reply, dial. rewrite host_disconnect.
  destruct (dials (host s)) as [|[|server] later]; cbn [fst snd].
  1, 2: split; [reflexivity | split; [intros _; reflexivity | discriminate]].
  unfold write, isOpen, canReadLine, waitForReadyRead.
  cbn [connected log buffered peer transcript existsb].
  destruct server as [|[bs|] more]; cbn [negb fst snd].
  1, 3: split; [reflexivity | split; [intros _; reflexivity | discriminate]].
  unfold readAll, read. cbn [buffered app connected peer transcript].
  rewrite firstn_all.
  destruct (startsWith bs ROBODK_API_READY_STRING) eqn:E; cbn [negb fst snd].
  - split; [reflexivity | split; [discriminate | intros _; reflexivity]].
  - split; [reflexivity | split; [intros _; reflexivity | discriminate]].
Qed.

(** C6 — [_connect] succeeds exactly when the connection is made and the
    first thing read from the server starts with [READY]; in every other
    case (connection refused, nothing read before the timeout, another
    reply) it returns [false] with [_COM = NULL], so that [_connected()] is
    false; when it succeeds [_connected()] is true. *)
Theorem connect_all_or_nothing (s : RoboDK) :
  fst (_connect s) =
  match handshake_reply (host s) with
  | Some bs => startsWith bs ROBODK_API_READY_STRING
  | None => false
  end /\
  (fst (_connect s) = false ->
   _COM (snd (_connect s)) = None /\ _connected (snd (_connect s)) = false) /\
  (fst (_connect s) = true -> _connected (snd (_connect s)) = true).
Proof.
  destruct (_connect_result s) as (H1 & H2 & H3).
  split; [exact H1|]. split; [|exact H3].
  intros Hf. specialize (H2 Hf). split; [exact H2|].
  unfold _connected. rewrite H2. reflexivity.
Qed.

(** On [greeted_wrongly] the reply [HELLO] is refused and no socket is
    kept. *)
Lemma connect_all_or_nothing_witness :
  fst (_connect greeted_wrongly) = false /\
  _COM (snd (_connect greeted_wrongly)) = None /\
  _connected (snd (_connect greeted_wrongly)) = false.
Proof.
  split; [reflexivity|].
  exact (proj1 (proj2 (connect_all_or_nothing greeted_wrongly)) eq_refl).
Defined.

(* ------------------------------------------------------------------ *)
(** ** The timeout                                                     *)
(* ------------------------------------------------------------------ *)

(** Case analysis on whatever the goal matches on. *)
Ltac split_match :=
  match goal with
  | |- context [match ?x with _ => _ end] => destruct x eqn:?
  end.

Ltac frame :=
  repeat (cbn [fst snd _TIMEOUT set_COM set_host set_PROCESS set_TIMEOUT negb];
          try reflexivity; split_match).

Lemma _TIMEOUT_connect (s : RoboDK) : _TIMEOUT (snd (_connect s)) = _TIMEOUT s.
Proof.
  unfold _connect, _disconnect.
  destruct s as [com ip port t pr bin args h]; cbn [_COM _IP _PORT host _TIMEOUT].
  destruct com; frame.
Qed.

Lemma _TIMEOUT_scan_output (lines : list (list byte)) (s : RoboDK) :
  _TIMEOUT (snd (scan_output lines s)) = _TIMEOUT s.
Proof.
  induction lines as [|raw later IH]; cbn [scan_output]; [reflexivity|].
  destruct (contains_ci (trimmed raw) (bytes_of_string "Running"));
    [apply _TIMEOUT_connect | exact IH].
Qed.

Lemma _TIMEOUT_connect_smart (s : RoboDK) :
  _TIMEOUT (snd (_connect_smart s)) = _TIMEOUT s.
Proof.
  unfold _connect_smart. pose proof (_TIMEOUT_connect s) as H.
  destruct (_connect s) as [ok s1]. cbn [snd] in H.
  destruct ok; [exact H|].
  destruct (launches (host s1)) as [|p later]; [exact H|].
  rewrite _TIMEOUT_scan_output. exact H.
Qed.

Lemma _TIMEOUT_check_connection (s : RoboDK) :
  _TIMEOUT (snd (_check_connection s)) = _TIMEOUT s.
Proof.
  unfold _check_connection. destruct (_connected s); [reflexivity|].
  apply _TIMEOUT_connect_smart.
Qed.

Lemma _TIMEOUT_send_Line (text : list byte) (s : RoboDK) :
  _TIMEOUT (snd (_send_Line text s)) = _TIMEOUT s.
Proof. unfold _send_Line. frame. Qed.

Lemma _TIMEOUT_send_Int (v : Z) (s : RoboDK) :
  _TIMEOUT (snd (_send_Int v s)) = _TIMEOUT s.
Proof. unfold _send_Int. frame. Qed.

Lemma _TIMEOUT_send_Item (item : option Item) (s : RoboDK) :
  _TIMEOUT (snd (_send_Item item s)) = _TIMEOUT s.
Proof. unfold _send_Item. frame. Qed.

Lemma _TIMEOUT_send_Array (values : list double) (n : Z) (s : RoboDK) :
  _TIMEOUT (snd (_send_Array values n s)) = _TIMEOUT s.
Proof.
  unfold _send_Array. pose proof (_TIMEOUT_send_Int n s) as H.
  destruct (_COM s) as [c|]; [|reflexivity].
  destruct (negb (isOpen c)); [reflexivity|].
  destruct (_send_Int n s) as [ok s1]. cbn [snd] in H.
  destruct ok; cbn [negb]; [|exact H].
  destruct (_COM s1); exact H.
Qed.

Lemma _TIMEOUT_send_Array_joints (jnts : option tJoints) (s : RoboDK) :
  _TIMEOUT (snd (_send_Array_joints jnts s)) = _TIMEOUT s.
Proof.
  destruct jnts; [apply _TIMEOUT_send_Array | apply _TIMEOUT_send_Int].
Qed.

Lemma _TIMEOUT_recv_Int (s : RoboDK) : _TIMEOUT (snd (_recv_Int s)) = _TIMEOUT s.
Proof. unfold _recv_Int. frame. Qed.

Lemma _TIMEOUT_recv_Item (s : RoboDK) : _TIMEOUT (snd (_recv_Item s)) = _TIMEOUT s.
Proof. unfold _recv_Item. frame. Qed.

Lemma _TIMEOUT_recv_Line (s : RoboDK) : _TIMEOUT (snd (_recv_Line s)) = _TIMEOUT s.
Proof.
  unfold _recv_Line, _waitline.
  destruct (_COM s) as [c|] eqn:Ec.
  - destruct (_waitline_loop (S (length (peer c))) (_TIMEOUT s) c) as [ok c1].
    destruct ok; cbn [negb]; rewrite _COM_set_COM;
      [destruct (readLine c1) | destruct (readAll c1)]; reflexivity.
  - cbn [negb]. rewrite Ec. reflexivity.
Qed.

Lemma _TIMEOUT_check_status (s : RoboDK) :
  _TIMEOUT (snd (_check_status s)) = _TIMEOUT s.
Proof.
  unfold _check_status. pose proof (_TIMEOUT_recv_Int s) as H.
  destruct (_recv_Int s) as [status s1]. cbn [snd] in H.
  pose proof (_TIMEOUT_recv_Line s1) as HL.
  destruct (_recv_Line s1) as [msg s2]. cbn [snd] in HL.
  repeat match goal with
         | |- context [if ?b then _ else _] => destruct b
         end; cbn [snd]; congruence.
Qed.

(** [WaitMove], [MoveJ_Test] and [ItemUserPick] assign the constant
    [ROBODK_API_TIMEOUT] to the timeout after their blocking receive, and
    nothing assigns it after that: it is the timeout they return with. *)
Lemma _TIMEOUT_after_long_call :
  (forall item timeout_ms s,
      _TIMEOUT (WaitMove item timeout_ms s) = ROBODK_API_TIMEOUT) /\
  (forall item j1 j2 minstep s,
      _TIMEOUT (snd (MoveJ_Test item j1 j2 minstep s)) = ROBODK_API_TIMEOUT) /\
  (forall message itemtype s,
      _TIMEOUT (snd (ItemUserPick message itemtype s)) = ROBODK_API_TIMEOUT) /\
  (forall item timeout_ms j1 j2 minstep message itemtype s,
      _TIMEOUT s = ROBODK_API_TIMEOUT ->
      _TIMEOUT (WaitMove item timeout_ms s) = _TIMEOUT s /\
      _TIMEOUT (snd (MoveJ_Test item j1 j2 minstep s)) = _TIMEOUT s /\
      _TIMEOUT (snd (ItemUserPick message itemtype s)) = _TIMEOUT s).
Proof.
  assert (HW : forall item timeout_ms s,
             _TIMEOUT (WaitMove item timeout_ms s) = ROBODK_API_TIMEOUT).
  { intros item timeout_ms s. unfold WaitMove.
    repeat match goal with
           | |- context [let (_, _) := ?e in _] => destruct e
           end.
    reflexivity. }
  assert (HM : forall item j1 j2 minstep s,
             _TIMEOUT (snd (MoveJ_Test item j1 j2 minstep s)) = ROBODK_API_TIMEOUT).
  { intros item j1 j2 minstep s. unfold MoveJ_Test.
    repeat match goal with
           | |- context [let (_, _) := _check_status ?e in _] => fail 1
           | |- context [let (_, _) := ?e in _] => destruct e
           end.
    match goal with
    | |- context [_check_status ?e] =>
        pose proof (_TIMEOUT_check_status e) as H; destruct (_check_status e)
    end.
    exact H. }
  assert (HP : forall message itemtype s,
             _TIMEOUT (snd (ItemUserPick message itemtype s)) = ROBODK_API_TIMEOUT).
  { intros message itemtype s. unfold ItemUserPick.
    repeat match goal with
           | |- context [let (_, _) := _check_status ?e in _] => fail 1
           | |- context [let (_, _) := ?e in _] => destruct e
           end.
    match goal with
    | |- context [_check_status ?e] =>
        pose proof (_TIMEOUT_check_status e) as H; destruct (_check_status e)
    end.
    exact H. }
  repeat split; try (intros; first [apply HW | apply HM | apply HP]).
  - intros. rewrite HW. symmetry. assumption.
  - rewrite HM. symmetry. assumption.
  - rewrite HP. symmetry. assumption.
Qed.

(* ------------------------------------------------------------------ *)
(** ** What a call does on the socket                                  *)
(* ------------------------------------------------------------------ *)

Lemma inputs_only_app (a b : list IOEvent) :
  inputs_only a -> inputs_only b -> inputs_only (a ++ b).
Proof.
  unfold inputs_only. intros Ha Hb. rewrite forallb_app, Ha, Hb. reflexivity.
Qed.

Lemma outputs_only_app (a b : list IOEvent) :
  outputs_only a -> outputs_only b -> outputs_only (a ++ b).
Proof.
  unfold outputs_only. intros Ha Hb. rewrite forallb_app, Ha, Hb. reflexivity.
Qed.

Lemma hears_refl (c : QTcpSocket) : hears c c [].
Proof. unfold hears. rewrite app_nil_r. repeat split. Qed.

Lemma hears_trans (a b c : QTcpSocket) (t u : list IOEvent) :
  hears a b t -> hears b c u -> hears a c (t ++ u).
Proof.
  intros (H1 & H2 & H3) (K1 & K2 & K3). repeat split.
  - congruence.
  - rewrite K2, H2, app_assoc. reflexivity.
  - apply inputs_only_app; assumption.
Qed.

Lemma waitForReadyRead_hears (msecs : Z) (c : QTcpSocket) :
  hears c (snd (waitForReadyRead msecs c)) [Waited msecs (fst (waitForReadyRead msecs c))].
Proof.
  unfold waitForReadyRead. destruct (peer c) as [|[bs|] later]; repeat split.
Qed.

Lemma read_hears (n : nat) (c : QTcpSocket) :
  hears c (snd (read n c)) [Taken (fst (read n c))].
Proof. repeat split. Qed.

Lemma stream_get_hears (n : nat) (c : QTcpSocket) :
  exists bs, hears c (snd (stream_get n c)) [Taken bs].
Proof.
  unfold stream_get. pose proof (read_hears n c) as H.
  destruct (read n c) as [got c']. eexists. exact H.
Qed.

Lemma await_hears (size timeout : Z) (c : QTcpSocket) :
  exists tr,
    hears c (snd (await size timeout c)) tr /\
    (fst (await size timeout c) = false -> tr <> []).
Proof.
  unfold await. destruct (bytesAvailable c <? size).
  - pose proof (waitForReadyRead_hears timeout c) as H.
    destruct (waitForReadyRead timeout c) as [r c']. cbn [fst snd] in *.
    eexists. split; [exact H|]. intros _. discriminate.
  - exists []. split; [apply hears_refl|]. cbn. discriminate.
Qed.

Lemma _waitline_loop_hears (fuel : nat) (timeout : Z) (c : QTcpSocket) :
  exists tr, hears c (snd (_waitline_loop fuel timeout c)) tr.
Proof.
  revert c. induction fuel as [|k IH]; intros c; cbn [_waitline_loop].
  - destruct (canReadLine c); exists []; apply hears_refl.
  - destruct (canReadLine c); [exists []; apply hears_refl|].
    pose proof (waitForReadyRead_hears timeout c) as H.
    destruct (waitForReadyRead timeout c) as [ready c']. cbn [fst snd] in H.
    destruct ready.
    + destruct (IH c') as [tr Htr]. eexists. exact (hears_trans _ _ _ _ _ H Htr).
    + eexists. exact H.
Qed.

(** The fuel of [_waitline] is never used up: with more fuel the loop does
    the same. *)
Lemma _waitline_loop_fuel (k : nat) (timeout : Z) (c : QTcpSocket) :
  (length (peer c) < k)%nat ->
  _waitline_loop (S k) timeout c = _waitline_loop k timeout c.
Proof.
  revert c. induction k as [|k IH]; intros c Hk; [lia|].
  cbn [_waitline_loop]. destruct (canReadLine c); [reflexivity|].
  unfold waitForReadyRead.
  destruct (peer c) as [|[bs|] later] eqn:Ep; [reflexivity| |reflexivity].
  specialize (IH (mkSocket (connected c) (buffered c ++ bs) later
                           (transcript c ++ [Waited timeout true]))).
  cbn [peer length] in IH, Hk. apply IH. lia.
Qed.

Lemma connected_socket (s : RoboDK) :
  _connected s = true -> exists c, _COM s = Some c /\ connected c = true.
Proof.
  unfold _connected. destruct (_COM s) as [c|]; [|discriminate].
  intros H. exists c. split; [reflexivity|exact H].
Qed.

Lemma runs_hears (s : RoboDK) (c c' : QTcpSocket) (tr : list IOEvent) :
  _COM s = Some c -> connected c = true -> hears c c' tr ->
  runs s (set_COM (Some c') s) tr.
Proof.
  intros Hc Hopen (H1 & H2 & _). unfold runs, _connected, trace.
  rewrite _COM_set_COM, Hc. split; congruence.
Qed.

Lemma runs_trans (a b c : RoboDK) (t u : list IOEvent) :
  runs a b t -> runs b c u -> runs a c (t ++ u).
Proof.
  intros (_ & H2) (K1 & K2). split; [exact K1|].
  rewrite K2, H2, app_assoc. reflexivity.
Qed.

Lemma runs_connected (a b : RoboDK) (t : list IOEvent) : runs a b t -> _connected b = true.
Proof. intros [H _]. exact H. Qed.

Lemma runs_set_TIMEOUT (t : Z) (s : RoboDK) :
  _connected s = true -> runs s (set_TIMEOUT t s) [].
Proof.
  intros H. split; [exact H|]. unfold trace. cbn [set_TIMEOUT _COM].
  rewrite app_nil_r. reflexivity.
Qed.

Lemma _recv_Int_runs (s : RoboDK) :
  _connected s = true ->
  exists tr, runs s (snd (_recv_Int s)) tr /\ inputs_only tr /\ tr <> [].
Proof.
  intros Hs. destruct (connected_socket s Hs) as (c & Hc & Hopen).
  unfold _recv_Int. rewrite Hc.
  destruct (await_hears 4 (_TIMEOUT s) c) as (tr & Htr & Hne).
  destruct (await 4 (_TIMEOUT s) c) as [enough c1]. cbn [fst snd] in *.
  destruct enough; cbn [negb].
  - destruct (stream_get_hears 4 c1) as (bs & Hbs).
    destruct (stream_get 4 c1) as [v c2]. cbn [snd] in *.
    pose proof (hears_trans _ _ _ _ _ Htr Hbs) as H.
    exists (tr ++ [Taken bs]). split; [exact (runs_hears s c c2 _ Hc Hopen H)|].
    split; [apply H|]. intros E. apply app_eq_nil in E. destruct E; discriminate.
  - exists tr. split; [exact (runs_hears s c c1 _ Hc Hopen Htr)|].
    split; [apply Htr|]. apply Hne. reflexivity.
Qed.

Lemma _recv_Line_runs (s : RoboDK) :
  _connected s = true ->
  exists tr, runs s (snd (_recv_Line s)) tr /\ inputs_only tr /\ tr <> [].
Proof.
  intros Hs. destruct (connected_socket s Hs) as (c & Hc & Hopen).
  unfold _recv_Line, _waitline. rewrite Hc.
  destruct (_waitline_loop_hears (S (length (peer c))) (_TIMEOUT s) c) as (tr & Htr).
  destruct (_waitline_loop (S (length (peer c))) (_TIMEOUT s) c) as [ok c1].
  cbn [snd] in Htr.
  assert (Hrd : forall n, exists bs,
               hears c (snd (read n c1)) (tr ++ [Taken bs])).
  { intros n. eexists. exact (hears_trans _ _ _ _ _ Htr (read_hears n c1)). }
  destruct ok; cbn [negb]; rewrite _COM_set_COM.
  - unfold readLine. destruct (Hrd (line_length (buffered c1))) as (bs & Hbs).
    destruct (read (line_length (buffered c1)) c1) as [line c2]. cbn [snd] in *.
    rewrite set_COM_set_COM.
    exists (tr ++ [Taken bs]). split; [exact (runs_hears s c c2 _ Hc Hopen Hbs)|].
    split; [apply Hbs|]. intros E. apply app_eq_nil in E. destruct E; discriminate.
  - unfold readAll. destruct (Hrd (length (buffered c1))) as (bs & Hbs).
    destruct (read (length (buffered c1)) c1) as [line c2]. cbn [snd] in *.
    rewrite set_COM_set_COM.
    exists (tr ++ [Taken bs]). split; [exact (runs_hears s c c2 _ Hc Hopen Hbs)|].
    split; [apply Hbs|]. intros E. apply app_eq_nil in E. destruct E; discriminate.
Qed.

Lemma _check_status_runs (s : RoboDK) :
  _connected s = true ->
  exists tr, runs s (snd (_check_status s)) tr /\ inputs_only tr /\ tr <> [].
Proof.
  intros Hs. unfold _check_status.
  destruct (_recv_Int_runs s Hs) as (tr & Htr & Hin & Hne).
  destruct (_recv_Int s) as [status s1]. cbn [snd] in Htr.
  destruct (_recv_Line_runs s1 (runs_connected _ _ _ Htr)) as (tl & Htl & Hil & _).
  destruct (_recv_Line s1) as [msg s2]. cbn [snd] in Htl.
  assert (Hboth : exists tr', runs s s2 tr' /\ inputs_only tr' /\ tr' <> []).
  { exists (tr ++ tl). split; [exact (runs_trans _ _ _ _ _ Htr Htl)|].
    split; [apply inputs_only_app; assumption|].
    intros E. apply app_eq_nil in E. destruct E; contradiction. }
  assert (Hone : exists tr', runs s s1 tr' /\ inputs_only tr' /\ tr' <> []).
  { exists tr. repeat split; try assumption; apply Htr. }
  repeat split_match; cbn [snd]; assumption.
Qed.

Lemma runs_did (s : RoboDK) (c : QTcpSocket) (evs : list IOEvent) :
  _COM s = Some c -> connected c = true ->
  runs s (set_COM (Some (did evs c)) s) evs.
Proof.
  intros Hc Hopen. unfold runs, _connected, trace.
  rewrite _COM_set_COM, Hc. split; [exact Hopen|reflexivity].
Qed.

Lemma _send_Line_runs (text : list byte) (s : RoboDK) :
  _connected s = true -> runs s (snd (_send_Line text s)) (line_events text).
Proof.
  intros Hs. destruct (connected_socket s Hs) as (c & Hc & Hopen).
  unfold _send_Line. rewrite Hc. unfold isOpen. rewrite Hopen. cbn [negb snd].
  rewrite (write_open text c Hopen).
  rewrite (write_open ROBODK_API_LF (log (Written text) c) Hopen).
  replace (log (Written ROBODK_API_LF) (log (Written text) c))
    with (did (line_events text) c)
    by (unfold log, did, line_events; cbn; rewrite <- app_assoc; reflexivity).
  exact (runs_did s c _ Hc Hopen).
Qed.

Lemma stream_put_did (n : nat) (v : Z) (c : QTcpSocket) :
  connected c = true -> stream_put n v c = did [Written (be_encode n v)] c.
Proof. intros Hopen. unfold stream_put. rewrite write_open by exact Hopen. reflexivity. Qed.

Lemma _send_Int_runs (v : Z) (s : RoboDK) :
  _connected s = true -> runs s (snd (_send_Int v s)) [Written (be_encode 4 v)].
Proof.
  intros Hs. destruct (connected_socket s Hs) as (c & Hc & Hopen).
  unfold _send_Int. rewrite Hc. unfold isOpen. rewrite Hopen. cbn [negb snd].
  rewrite (stream_put_did 4 v c Hopen). exact (runs_did s c _ Hc Hopen).
Qed.

Lemma _send_Item_runs (item : option Item) (s : RoboDK) :
  _connected s = true ->
  runs s (snd (_send_Item item s))
       [Written (be_encode 8 (match item with Some it => _PTR it | None => 0 end))].
Proof.
  intros Hs. destruct (connected_socket s Hs) as (c & Hc & Hopen).
  unfold _send_Item. rewrite Hc. unfold isOpen. rewrite Hopen. cbn [negb snd].
  rewrite (stream_put_did 8 _ c Hopen). exact (runs_did s c _ Hc Hopen).
Qed.

Lemma _send_Array_runs (values : list double) (nvalues : Z) (s : RoboDK) :
  _connected s = true ->
  runs s (snd (_send_Array values nvalues s)) (array_events values nvalues).
Proof.
  intros Hs. destruct (connected_socket s Hs) as (c & Hc & Hopen).
  unfold _send_Array. rewrite Hc. unfold isOpen. rewrite Hopen. cbn [negb].
  unfold _send_Int. rewrite Hc. unfold isOpen. rewrite Hopen. cbn [negb].
  rewrite _COM_set_COM, set_COM_set_COM. cbn [snd].
  rewrite (stream_put_did 4 nvalues c Hopen).
  rewrite (stream_put_loop nat (fun i => nth i values double_zero)
             (seq 0 (Z.to_nat nvalues)) [Written (be_encode 4 nvalues)] c Hopen).
  exact (runs_did s c _ Hc Hopen).
Qed.

Lemma _send_Array_joints_runs (jnts : option tJoints) (s : RoboDK) :
  _connected s = true ->
  runs s (snd (_send_Array_joints jnts s))
       (match jnts with
        | Some j => array_events (Values j) (nDOFs j)
        | None => [Written (be_encode 4 0)]
        end).
Proof.
  intros Hs. destruct jnts as [j|]; cbn [_send_Array_joints].
  - apply _send_Array_runs. exact Hs.
  - apply _send_Int_runs. exact Hs.
Qed.

Lemma _send_Array_mat_runs (m : Mat) (s : RoboDK) :
  _connected s = true ->
  runs s (snd (_send_Array_mat (Some m) s)) (array_events (pose_values m) 16).
Proof.
  intros Hs. cbn [_send_Array_mat].
  exact (_send_Array_runs (pose_values m) 16 s Hs).
Qed.

Lemma outputs_only_array (values : list double) (nvalues : Z) :
  outputs_only (array_events values nvalues).
Proof.
  unfold outputs_only, array_events. cbn [forallb is_input negb andb].
  induction (seq 0 (Z.to_nat nvalues)) as [|i l IH]; [reflexivity|exact IH].
Qed.

Lemma outputs_only_target (target : option Item) (joints : option tJoints)
      (mat_target : option Mat) :
  outputs_only (target_events target joints mat_target).
Proof.
  unfold target_events.
  destruct target as [t|]; [reflexivity|].
  destruct joints as [j|].
  - apply (outputs_only_app [_]); [reflexivity|].
    apply outputs_only_app; [apply outputs_only_array|reflexivity].
  - destruct mat_target as [m|]; [|reflexivity].
    apply (outputs_only_app [_]); [reflexivity|].
    apply outputs_only_app; [apply outputs_only_array|reflexivity].
Qed.

Lemma send_target_runs (target : option Item) (joints : option tJoints)
      (mat_target : option Mat) (s : RoboDK) :
  _connected s = true ->
  target <> None \/ joints <> None \/ mat_target <> None ->
  fst (send_target target joints mat_target s) = Returned /\
  runs s (snd (send_target target joints mat_target s))
       (target_events target joints mat_target).
Proof.
  intros Hs Hsome. unfold send_target, target_events.
  destruct target as [t|].
  - pose proof (_send_Int_runs 3 s Hs) as H1.
    destruct (_send_Int 3 s) as [o1 s1]. cbn [snd] in H1.
    pose proof (_send_Array_joints_runs None s1 (runs_connected _ _ _ H1)) as H2.
    destruct (_send_Array_joints None s1) as [o2 s2]. cbn [snd] in H2.
    pose proof (_send_Item_runs (Some t) s2 (runs_connected _ _ _ H2)) as H3.
    destruct (_send_Item (Some t) s2) as [o3 s3]. cbn [snd fst] in *.
    split; [reflexivity|].
    exact (runs_trans _ _ _ _ _ H1 (runs_trans _ _ _ _ _ H2 H3)).
  - destruct joints as [j|].
    + pose proof (_send_Int_runs 1 s Hs) as H1.
      destruct (_send_Int 1 s) as [o1 s1]. cbn [snd] in H1.
      pose proof (_send_Array_joints_runs (Some j) s1 (runs_connected _ _ _ H1)) as H2.
      destruct (_send_Array_joints (Some j) s1) as [o2 s2]. cbn [snd] in H2.
      pose proof (_send_Item_runs None s2 (runs_connected _ _ _ H2)) as H3.
      destruct (_send_Item None s2) as [o3 s3]. cbn [snd fst] in *.
      split; [reflexivity|].
      exact (runs_trans _ _ _ _ _ H1 (runs_trans _ _ _ _ _ H2 H3)).
    + destruct mat_target as [m|].
      * pose proof (_send_Int_runs 2 s Hs) as H1.
        destruct (_send_Int 2 s) as [o1 s1]. cbn [snd] in H1.
        pose proof (_send_Array_mat_runs m s1 (runs_connected _ _ _ H1)) as H2.
        destruct (_send_Array_mat (Some m) s1) as [o2 s2]. cbn [snd] in H2.
        pose proof (_send_Item_runs None s2 (runs_connected _ _ _ H2)) as H3.
        destruct (_send_Item None s2) as [o3 s3]. cbn [snd fst] in *.
        split; [reflexivity|].
        exact (runs_trans _ _ _ _ _ H1 (runs_trans _ _ _ _ _ H2 H3)).
      * exfalso. destruct Hsome as [H|[H|H]]; apply H; reflexivity.
Qed.

Lemma WaitMove_runs (item : Item) (timeout_ms : Z) (s : RoboDK) :
  _connected s = true ->
  exists tr, runs s (WaitMove item timeout_ms s) tr /\ WaitMove_exchange item tr.
Proof.
  intros Hs. unfold WaitMove, _check_connection. rewrite Hs.
  pose proof (_send_Line_runs (bytes_of_string "WaitMove") s Hs) as H1.
  destruct (_send_Line (bytes_of_string "WaitMove") s) as [o1 s1]. cbn [snd] in H1.
  pose proof (_send_Item_runs (Some item) s1 (runs_connected _ _ _ H1)) as H2.
  destruct (_send_Item (Some item) s1) as [o2 s2]. cbn [snd] in H2.
  destruct (_check_status_runs s2 (runs_connected _ _ _ H2)) as (r3 & H3 & I3 & N3).
  destruct (_check_status s2) as [o3 s3]. cbn [snd] in H3.
  pose proof (runs_set_TIMEOUT timeout_ms s3 (runs_connected _ _ _ H3)) as H4.
  destruct (_check_status_runs (set_TIMEOUT timeout_ms s3) (runs_connected _ _ _ H4))
    as (r5 & H5 & I5 & N5).
  destruct (_check_status (set_TIMEOUT timeout_ms s3)) as [o5 s5]. cbn [snd] in H5.
  pose proof (runs_set_TIMEOUT ROBODK_API_TIMEOUT s5 (runs_connected _ _ _ H5)) as H6.
  exists (WaitMove_request item ++ r3 ++ r5). split.
  - pose proof (runs_trans _ _ _ _ _ H1
                 (runs_trans _ _ _ _ _ H2
                   (runs_trans _ _ _ _ _ H3
                     (runs_trans _ _ _ _ _ H4 (runs_trans _ _ _ _ _ H5 H6))))) as H.
    cbn [app] in H. rewrite app_nil_r in H. exact H.
  - exists (r3 ++ r5). split; [reflexivity|]. split.
    + apply inputs_only_app; assumption.
    + intros E. apply app_eq_nil in E. destruct E; contradiction.
Qed.

(* ------------------------------------------------------------------ *)
(** ** The move orchestrator                                           *)
(* ------------------------------------------------------------------ *)

Section MoveProperties.

Variable WaitMove_default : Z.

(** [_moveX] up to the encoding of the target. *)
Lemma _moveX_head (itemrobot : Item) (movetype : Z) (s : RoboDK) :
  _connected s = true ->
  let s1 := WaitMove itemrobot WaitMove_default s in
  let s2 := snd (_send_Line (bytes_of_string "MoveX") s1) in
  let s3 := snd (_send_Int movetype s2) in
  exists before,
    WaitMove_exchange itemrobot before /\
    runs s s3 (before ++ line_events (bytes_of_string "MoveX")
                      ++ [Written (be_encode 4 movetype)]).
Proof.
  intros Hs s1 s2 s3.
  destruct (WaitMove_runs itemrobot WaitMove_default s Hs) as (before & H1 & Hex).
  fold s1 in H1.
  pose proof (_send_Line_runs (bytes_of_string "MoveX") s1 (runs_connected _ _ _ H1)) as H2.
  fold s2 in H2.
  pose proof (_send_Int_runs movetype s2 (runs_connected _ _ _ H2)) as H3.
  fold s3 in H3.
  exists before. split; [exact Hex|].
  exact (runs_trans _ _ _ _ _ H1 (runs_trans _ _ _ _ _ H2 H3)).
Qed.

(** C4 — a move through [_moveX] on a connected client, with a target
    supplied: the call returns, and what the socket has done during the call
    is, in this order, one wait-until-idle exchange for the robot, the
    request of the move, the reads and waits that decode its status, and
    then nothing more for a non-blocking move, one wait-until-idle exchange
    for the robot for a blocking one.  The request of the move is made of
    writes only. *)
Theorem moveX_waits (target : option Item) (joints : option tJoints)
        (mat_target : option Mat) (itemrobot : Item) (movetype : Z)
        (blocking : bool) (s : RoboDK) :
  _connected s = true ->
  target <> None \/ joints <> None \/ mat_target <> None ->
  exists before decode after,
    fst (_moveX WaitMove_default target joints mat_target itemrobot movetype blocking s)
    = Returned /\
    trace (snd (_moveX WaitMove_default target joints mat_target itemrobot movetype
                       blocking s))
    = trace s ++ before
      ++ MoveX_request movetype target joints mat_target itemrobot
      ++ decode ++ after /\
    WaitMove_exchange itemrobot before /\
    outputs_only (MoveX_request movetype target joints mat_target itemrobot) /\
    inputs_only decode /\ decode <> [] /\
    (if blocking then WaitMove_exchange itemrobot after else after = []).
Proof.
  intros Hs Hsome.
  destruct (_moveX_head itemrobot movetype s Hs) as (before & Hex & H3).
  cbv zeta in H3. unfold _moveX.
  destruct (_send_Line (bytes_of_string "MoveX") (WaitMove itemrobot WaitMove_default s))
    as [o2 s2]. cbn [snd] in H3.
  destruct (_send_Int movetype s2) as [o3 s3]. cbn [snd] in H3.
  destruct (send_target_runs target joints mat_target s3 (runs_connected _ _ _ H3) Hsome)
    as (Hret & H4).
  destruct (send_target target joints mat_target s3) as [out s4]. cbn [fst snd] in *.
  subst out.
  pose proof (_send_Item_runs (Some itemrobot) s4 (runs_connected _ _ _ H4)) as H5.
  destruct (_send_Item (Some itemrobot) s4) as [o5 s5]. cbn [snd] in H5.
  destruct (_check_status_runs s5 (runs_connected _ _ _ H5)) as (decode & H6 & I6 & N6).
  destruct (_check_status s5) as [o6 s6]. cbn [snd] in H6.
  pose proof (runs_trans _ _ _ _ _ H3
               (runs_trans _ _ _ _ _ H4 (runs_trans _ _ _ _ _ H5 H6))) as Hrun.
  assert (Hout : outputs_only (MoveX_request movetype target joints mat_target itemrobot)).
  { unfold MoveX_request. apply outputs_only_app; [reflexivity|].
    apply (outputs_only_app [_]); [reflexivity|].
    apply outputs_only_app; [apply outputs_only_target|reflexivity]. }
  destruct blocking.
  - destruct (WaitMove_runs itemrobot WaitMove_default s6 (runs_connected _ _ _ Hrun))
      as (after & H7 & Hex7).
    exists before, decode, after. cbn [fst snd].
    split; [reflexivity|]. split.
    + destruct (runs_trans _ _ _ _ _ Hrun H7) as [_ Ht]. rewrite Ht.
      unfold MoveX_request. rewrite <- !app_assoc. reflexivity.
    + repeat (split; [assumption|]). assumption.
  - exists before, decode, []. cbn [fst snd].
    split; [reflexivity|]. split.
    + destruct Hrun as [_ Ht]. rewrite Ht.
      unfold MoveX_request. rewrite <- !app_assoc, app_nil_r. reflexivity.
    + repeat (split; [assumption|]). reflexivity.
Qed.

(** C5, amended — a move on a connected client with no target at all ends
    by [throw 0]; by then the socket has done one wait-until-idle exchange
    for the robot and has written the line of the command and the integer
    after it (the move type for [MoveX], the constant 3 for [MoveC]), and,
    for a [MoveC] whose second target alone is missing, the fields of the
    first target.  Nothing else is written: no discriminator for the missing
    target, no identifier of the robot; no status is read and no wait
    follows. *)
Theorem move_without_target (itemrobot : Item) (movetype : Z) (blocking : bool)
        (s : RoboDK) :
  _connected s = true ->
  (exists before,
      WaitMove_exchange itemrobot before /\
      fst (_moveX WaitMove_default None None None itemrobot movetype blocking s)
      = Thrown 0 /\
      trace (snd (_moveX WaitMove_default None None None itemrobot movetype blocking s))
      = trace s ++ before ++ line_events (bytes_of_string "MoveX")
        ++ [Written (be_encode 4 movetype)]) /\
  (forall target2 joints2 mat_target2,
      exists before,
        WaitMove_exchange itemrobot before /\
        fst (_moveC WaitMove_default None None None target2 joints2 mat_target2
                    itemrobot blocking s) = Thrown 0 /\
        trace (snd (_moveC WaitMove_default None None None target2 joints2 mat_target2
                           itemrobot blocking s))
        = trace s ++ before ++ line_events (bytes_of_string "MoveC")
          ++ [Written (be_encode 4 3)]) /\
  (forall target1 joints1 mat_target1,
      target1 <> None \/ joints1 <> None \/ mat_target1 <> None ->
      exists before,
        WaitMove_exchange itemrobot before /\
        fst (_moveC WaitMove_default target1 joints1 mat_target1 None None None
                    itemrobot blocking s) = Thrown 0 /\
        trace (snd (_moveC WaitMove_default target1 joints1 mat_target1 None None None
                           itemrobot blocking s))
        = trace s ++ before ++ line_events (bytes_of_string "MoveC")
          ++ [Written (be_encode 4 3)]
          ++ target_events target1 joints1 mat_target1).
Proof.
  intros Hs.
  destruct (WaitMove_runs itemrobot WaitMove_default s Hs) as (before & H1 & Hex).
  assert (Hhead : forall text v,
    runs s (snd (_send_Int v (snd (_send_Line text (WaitMove itemrobot WaitMove_default s)))))
         (before ++ line_events text ++ [Written (be_encode 4 v)])).
  { intros text v.
    pose proof (_send_Line_runs text _ (runs_connected _ _ _ H1)) as H2.
    pose proof (_send_Int_runs v _ (runs_connected _ _ _ H2)) as H3.
    exact (runs_trans _ _ _ _ _ H1 (runs_trans _ _ _ _ _ H2 H3)). }
  split; [|split].
  - exists before. split; [exact Hex|].
    specialize (Hhead (bytes_of_string "MoveX") movetype). unfold _moveX.
    destruct (_send_Line (bytes_of_string "MoveX") (WaitMove itemrobot WaitMove_default s))
      as [o2 s2]. cbn [snd] in Hhead.
    destruct (_send_Int movetype s2) as [o3 s3]. cbn [snd] in Hhead.
    cbn [send_target fst snd]. split; [reflexivity|apply Hhead].
  - intros target2 joints2 mat_target2. exists before. split; [exact Hex|].
    specialize (Hhead (bytes_of_string "MoveC") 3). unfold _moveC.
    destruct (_send_Line (bytes_of_string "MoveC") (WaitMove itemrobot WaitMove_default s))
      as [o2 s2]. cbn [snd] in Hhead.
    destruct (_send_Int 3 s2) as [o3 s3]. cbn [snd] in Hhead.
    cbn [send_target fst snd]. split; [reflexivity|apply Hhead].
  - intros target1 joints1 mat_target1 Hsome. exists before. split; [exact Hex|].
    specialize (Hhead (bytes_of_string "MoveC") 3). unfold _moveC.
    destruct (_send_Line (bytes_of_string "MoveC") (WaitMove itemrobot WaitMove_default s))
      as [o2 s2]. cbn [snd] in Hhead.
    destruct (_send_Int 3 s2) as [o3 s3]. cbn [snd] in Hhead.
    destruct (send_target_runs target1 joints1 mat_target1 s3
                (runs_connected _ _ _ Hhead) Hsome) as (Hret & H4).
    destruct (send_target target1 joints1 mat_target1 s3) as [out s4].
    cbn [fst snd] in *. subst out. cbn [send_target fst snd].
    split; [reflexivity|].
    destruct (runs_trans _ _ _ _ _ Hhead H4) as [_ Ht]. rewrite Ht.
    rewrite <- !app_assoc. reflexivity.
Qed.

End MoveProperties.

(** A blocking move to [home] on [ready_to_move], the default wait being
    five minutes. *)
Lemma moveX_waits_witness :
  exists before decode after,
    fst (_moveX 300000 (Some home) None None robot 1 true ready_to_move) = Returned /\
    trace (snd (_moveX 300000 (Some home) None None robot 1 true ready_to_move))
    = trace ready_to_move ++ before
      ++ MoveX_request 1 (Some home) None None robot ++ decode ++ after /\
    WaitMove_exchange robot before /\
    outputs_only (MoveX_request 1 (Some home) None None robot) /\
    inputs_only decode /\ decode <> [] /\
    WaitMove_exchange robot after.
Proof.
  apply (moveX_waits 300000 (Some home) None None robot 1 true ready_to_move).
  - reflexivity.
  - left. discriminate.
Defined.

(** The bytes of that move, blocking and not: [WaitMove], the move, and
    [WaitMove] again only when blocking. *)
Example moveX_bytes_nonblocking :
  sent (trace (snd (_moveX 300000 (Some home) None None robot 1 false ready_to_move))) =
  bytes_of_string "WaitMove" ++ [LF] ++ be_encode 8 77
  ++ bytes_of_string "MoveX" ++ [LF] ++ be_encode 4 1
  ++ be_encode 4 3 ++ be_encode 4 0 ++ be_encode 8 9 ++ be_encode 8 77.
Proof. vm_compute. reflexivity. Qed.

Example moveX_bytes_blocking :
  sent (trace (snd (_moveX 300000 (Some home) None None robot 1 true ready_to_move))) =
  bytes_of_string "WaitMove" ++ [LF] ++ be_encode 8 77
  ++ bytes_of_string "MoveX" ++ [LF] ++ be_encode 4 1
  ++ be_encode 4 3 ++ be_encode 4 0 ++ be_encode 8 9 ++ be_encode 8 77
  ++ bytes_of_string "WaitMove" ++ [LF] ++ be_encode 8 77.
Proof. vm_compute. reflexivity. Qed.

(** The claim C5 fails on the code: when no target is supplied, [_moveX]
    has already written the line [MoveX] and the move type when it throws.
    On [slow], after the wait-until-idle exchange, ten bytes of the move
    request are on the wire. *)
Lemma moveX_header_written_before_throw :
  fst (_moveX 300000 None None None robot 1 true slow) = Thrown 0 /\
  sent (trace (snd (_moveX 300000 None None None robot 1 true slow))) =
  bytes_of_string "WaitMove" ++ [LF] ++ be_encode 8 77
  ++ bytes_of_string "MoveX" ++ [LF] ++ be_encode 4 1.
Proof. split; vm_compute; reflexivity. Qed.

(** A move with no target on [slow]. *)
Lemma move_without_target_witness :
  exists before,
    WaitMove_exchange robot before /\
    fst (_moveX 300000 None None None robot 1 true slow) = Thrown 0 /\
    trace (snd (_moveX 300000 None None None robot 1 true slow))
    = trace slow ++ before ++ line_events (bytes_of_string "MoveX")
      ++ [Written (be_encode 4 1)].
Proof.
  exact (proj1 (move_without_target 300000 robot 1 true slow eq_refl)).
Defined.

(* ------------------------------------------------------------------ *)
(** ** Round trips of the channel                                      *)
(* ------------------------------------------------------------------ *)

Lemma emitted_runs (s s' : RoboDK) (tr : list IOEvent) :
  runs s s' tr -> emitted s s' = sent tr.
Proof.
  intros [_ H]. unfold emitted. rewrite H, sent_app.
  rewrite skipn_app, Nat.sub_diag, skipn_all. reflexivity.
Qed.

Lemma to_signed_wrap (v : Z) :
  - 2 ^ 31 <= v < 2 ^ 31 -> to_signed 32 (v mod 2 ^ 32) = v.
Proof.
  intros Hv. unfold to_signed. change (32 - 1) with 31.
  destruct (Z.le_gt_cases 0 v) as [Hpos|Hneg].
  - rewrite Z.mod_small by lia.
    replace (v <? 2 ^ 31) with true by (symmetry; apply Z.ltb_lt; lia). reflexivity.
  - assert (Hm : v mod 2 ^ 32 = v + 2 ^ 32).
    { symmetry. apply Z.mod_unique with (q := -1); lia. }
    rewrite Hm.
    replace (v + 2 ^ 32 <? 2 ^ 31) with false by (symmetry; apply Z.ltb_ge; lia).
    lia.
Qed.

Lemma pending_took (bs rest : list byte) (c : QTcpSocket) (s : RoboDK) :
  pending (set_COM (Some (took bs rest c)) s) = rest.
Proof. reflexivity. Qed.

(** X1 — an integer of 32 bits written by [_send_Int] on a connected
    client and read by [_recv_Int] from a buffer that starts with the bytes
    written comes back as it was, and exactly those four bytes are taken. *)
Theorem Int_roundtrip (v : Z) (s r : RoboDK) (d : QTcpSocket) (rest : list byte) :
  - 2 ^ 31 <= v < 2 ^ 31 ->
  _connected s = true ->
  _COM r = Some d ->
  buffered d = emitted s (snd (_send_Int v s)) ++ rest ->
  length (emitted s (snd (_send_Int v s))) = 4%nat /\
  fst (_recv_Int r) = v /\
  pending (snd (_recv_Int r)) = rest.
Proof.
  intros Hv Hs Hd Hb.
  rewrite (emitted_runs _ _ _ (_send_Int_runs v s Hs)) in *.
  cbn [sent flat_map app] in *. rewrite app_nil_r in *.
  rewrite (_recv_Int_front r d v rest Hd Hb). cbn [fst snd].
  split; [apply be_encode_length|]. split; [apply to_signed_wrap; exact Hv|reflexivity].
Qed.

(** The integer [-3] sent on [idle]. *)
Lemma Int_roundtrip_witness :
  fst (_recv_Int (holding (emitted idle (snd (_send_Int (-3) idle))))) = -3.
Proof.
  refine (proj1 (proj2 (Int_roundtrip (-3) idle
            (holding (emitted idle (snd (_send_Int (-3) idle))))
            (socket_holding (emitted idle (snd (_send_Int (-3) idle))) []) []
            _ eq_refl eq_refl _))).
  - split; [discriminate|reflexivity].
  - rewrite app_nil_r. reflexivity.
Defined.

(* ------------------------------------------------------------------ *)
(** ** Receives that fail                                              *)
(* ------------------------------------------------------------------ *)

Lemma waitForReadyRead_keeps (msecs : Z) (c : QTcpSocket) :
  exists more, buffered (snd (waitForReadyRead msecs c)) = buffered c ++ more.
Proof.
  unfold waitForReadyRead. destruct (peer c) as [|[bs|] later]; cbn [snd buffered log].
  - exists []. rewrite app_nil_r. reflexivity.
  - exists bs. reflexivity.
  - exists []. rewrite app_nil_r. reflexivity.
Qed.

(** X2 — a receive of a field of fixed size that finds too few bytes, also
    after its one wait, returns its failure value ([-1], the invalid handle,
    the identity, [false]) and takes nothing: the bytes that were buffered,
    and those that came with the wait, stay in the buffer for the next
    receive. *)
Theorem short_receive_takes_nothing (s : RoboDK) (c : QTcpSocket) :
  _COM s = Some c ->
  let c' := snd (waitForReadyRead (_TIMEOUT s) c) in
  (exists more, buffered c' = buffered c ++ more) /\
  (bytesAvailable c < 4 -> bytesAvailable c' < 4 ->
   _recv_Int s = (-1, set_COM (Some c') s)) /\
  (bytesAvailable c < 8 -> bytesAvailable c' < 8 ->
   _recv_Item s = (mkItem 0 (-1), set_COM (Some c') s)) /\
  (bytesAvailable c < 128 -> bytesAvailable c' < 128 ->
   _recv_Pose s = (setToIdentity, set_COM (Some c') s)) /\
  (forall pos, bytesAvailable c < 24 -> bytesAvailable c' < 24 ->
   _recv_XYZ pos s = (false, pos, set_COM (Some c') s)).
Proof.
  intros Hc c'. split; [apply waitForReadyRead_keeps|].
  split; [|split; [|split]].
  - intros H1 H2. unfold _recv_Int. rewrite Hc.
    rewrite (await_short 4 (_TIMEOUT s) c H1 H2). reflexivity.
  - intros H1 H2. unfold _recv_Item. rewrite Hc.
    rewrite (await_short 8 (_TIMEOUT s) c H1 H2). reflexivity.
  - intros H1 H2. unfold _recv_Pose. rewrite Hc. change (16 * 8) with 128.
    rewrite (await_short 128 (_TIMEOUT s) c H1 H2). reflexivity.
  - intros pos H1 H2. unfold _recv_XYZ. rewrite Hc. change (3 * 8) with 24.
    rewrite (await_short 24 (_TIMEOUT s) c H1 H2). reflexivity.
Qed.

(** On [trickle] two bytes are buffered and one more comes: [_recv_Int]
    fails and the three bytes are still there. *)
Lemma short_receive_takes_nothing_witness :
  fst (_recv_Int trickle) = -1 /\
  pending (snd (_recv_Int trickle)) = be_encode 2 7 ++ be_encode 1 9.
Proof.
  pose proof (short_receive_takes_nothing trickle
                (socket_holding (be_encode 2 7) [Data (be_encode 1 9); Silence])
                eq_refl) as H.
  cbv zeta in H. destruct H as (_ & H & _).
  rewrite (H eq_refl eq_refl). split; reflexivity.
Defined.

(** X3 — [_check_status] reports a problem exactly when the status word
    read is neither 0 nor 2: every other value, the [-1] of a failed
    receive included, is a problem.  Without a socket the status reads as 0:
    no problem is reported and nothing changes. *)
Theorem check_status_problems (s : RoboDK) :
  fst (_check_status s) =
    negb ((fst (_recv_Int s) =? 0) || (fst (_recv_Int s) =? 2)) /\
  (_COM s = None -> _check_status s = (false, s)).
Proof.
  split.
  - unfold _check_status. destruct (_recv_Int s) as [status s1]. cbn [fst].
    destruct (_recv_Line s1) as [msg s2].
    destruct (Z.eqb_spec status 0) as [->|H0]; [reflexivity|].
    destruct (Z.eqb_spec status 2) as [->|H2]; [reflexivity|].
    cbn [orb negb].
    destruct ((0 <? status) && (status <? 10)); [|reflexivity].
    destruct (status =? 1); [reflexivity|].
    destruct (status =? 3); [reflexivity|].
    destruct (status =? 9); reflexivity.
  - intros Hc. unfold _check_status, _recv_Int. rewrite Hc. reflexivity.
Qed.

(** Without a socket the status check passes. *)
Lemma check_status_problems_witness : _check_status offline = (false, offline).
Proof. exact (proj2 (check_status_problems offline) eq_refl). Defined.

(* ------------------------------------------------------------------ *)
(** ** Lines                                                           *)
(* ------------------------------------------------------------------ *)

Lemma drop_spaces_all (bs : list byte) :
  forallb is_space bs = true -> drop_spaces bs = [].
Proof.
  induction bs as [|b bs IH]; cbn [forallb drop_spaces]; [reflexivity|].
  destruct (is_space b); [exact IH|discriminate].
Qed.

Lemma drop_spaces_app (bs more : list byte) :
  forallb is_space bs = false -> drop_spaces (bs ++ more) = drop_spaces bs ++ more.
Proof.
  induction bs as [|b bs IH]; cbn [forallb drop_spaces app]; [discriminate|].
  destruct (is_space b); [exact IH|reflexivity].
Qed.

Lemma trimmed_LF (text : list byte) : trimmed (text ++ [LF]) = trimmed text.
Proof.
  unfold trimmed. destruct (forallb is_space text) eqn:E.
  - rewrite (drop_spaces_all text E).
    rewrite (drop_spaces_all (text ++ [LF])); [reflexivity|].
    rewrite forallb_app, E. reflexivity.
  - rewrite (drop_spaces_app text [LF] E). rewrite rev_app_distr. reflexivity.
Qed.

Lemma drop_spaces_head (b : byte) (bs : list byte) :
  is_space b = false -> drop_spaces (b :: bs) = b :: bs.
Proof. intros H. cbn [drop_spaces]. rewrite H. reflexivity. Qed.

Lemma trimmed_clean (text : list byte) : edge_not_space text -> trimmed text = text.
Proof.
  destruct text as [|b bs]; [reflexivity|]. intros [Hb Hl].
  unfold trimmed. rewrite (drop_spaces_head b bs Hb).
  destruct (exists_last (l := b :: bs) ltac:(discriminate)) as (front & z & E).
  rewrite E in *. rewrite last_last in Hl.
  rewrite rev_app_distr. cbn [rev app]. rewrite (drop_spaces_head z _ Hl).
  change (z :: rev front) with ([z] ++ rev front).
  rewrite rev_app_distr, rev_involutive. reflexivity.
Qed.

(** X4 — a line without a line feed written by [_send_Line] on a connected
    client and read by [_recv_Line] from a buffer that starts with the bytes
    written: the bytes written are the text and one line feed, exactly they
    are taken, and the text comes back without the white space around it
    (as it was, when it neither starts nor ends with white space). *)
Theorem Line_roundtrip (text : list byte) (s r : RoboDK) (d : QTcpSocket)
        (rest : list byte) :
  ~ In LF text ->
  _connected s = true ->
  _COM r = Some d ->
  buffered d = emitted s (snd (_send_Line text s)) ++ rest ->
  emitted s (snd (_send_Line text s)) = text ++ [LF] /\
  fst (_recv_Line r) = trimmed text /\
  pending (snd (_recv_Line r)) = rest /\
  (edge_not_space text -> fst (_recv_Line r) = text).
Proof.
  intros Hnot Hs Hd Hb.
  rewrite (emitted_runs _ _ _ (_send_Line_runs text s Hs)) in *.
  cbn [line_events sent flat_map app] in *. rewrite app_nil_r in *.
  unfold ROBODK_API_LF in *.
  assert (Hb' : buffered d = text ++ LF :: rest).
  { rewrite Hb, <- app_assoc. reflexivity. }
  rewrite (_recv_Line_front r d text rest Hd Hb' Hnot). cbn [fst snd].
  rewrite trimmed_LF.
  split; [reflexivity|]. split; [reflexivity|]. split; [reflexivity|].
  apply trimmed_clean.
Qed.

(** The name [Robot arm] sent on [idle]. *)
Lemma Line_roundtrip_witness :
  fst (_recv_Line
         (holding (emitted idle (snd (_send_Line (bytes_of_string "Robot arm") idle)))))
  = bytes_of_string "Robot arm".
Proof.
  refine (proj2 (proj2 (proj2 (Line_roundtrip (bytes_of_string "Robot arm") idle
            (holding (emitted idle (snd (_send_Line (bytes_of_string "Robot arm") idle))))
            (socket_holding
               (emitted idle (snd (_send_Line (bytes_of_string "Robot arm") idle))) [])
            [] _ eq_refl eq_refl _))) _).
  - cbn. intros [H|[H|[H|[H|[H|[H|[H|[H|[H|[]]]]]]]]]]; discriminate H.
  - rewrite app_nil_r. reflexivity.
  - split; reflexivity.
Defined.

(** The loop of [_waitline]: what comes back says whether a line can be
    read, and a [false] comes after a wait that met nothing. *)
Lemma _waitline_loop_result (fuel : nat) (timeout : Z) (c : QTcpSocket) :
  (length (peer c) < fuel)%nat ->
  let r := _waitline_loop fuel timeout c in
  fst r = canReadLine (snd r) /\
  (fst r = false ->
   exists tr, transcript (snd r) = transcript c ++ tr ++ [Waited timeout false]).
Proof.
  revert c. induction fuel as [|k IH]; intros c Hk; [lia|].
  cbn [_waitline_loop]. destruct (canReadLine c) eqn:E.
  - cbn [fst snd]. split; [symmetry; exact E|discriminate].
  - unfold waitForReadyRead. destruct (peer c) as [|[bs|] later] eqn:Ep.
    + cbn [fst snd]. split; [symmetry; exact E|].
      intros _. exists []. reflexivity.
    + cbn [length] in Hk.
      specialize (IH (mkSocket (connected c) (buffered c ++ bs) later
                               (transcript c ++ [Waited timeout true]))).
      cbn [peer transcript] in IH. destruct (IH ltac:(lia)) as [H1 H2].
      split; [exact H1|]. intros Hf. destruct (H2 Hf) as [tr Htr].
      exists (Waited timeout true :: tr). rewrite Htr, <- app_assoc. reflexivity.
    + cbn [fst snd]. split; [symmetry; exact E|].
      intros _. exists []. reflexivity.
Qed.

(** X5 — [_waitline] returns [true] exactly when a complete line is in the
    buffer as it returns; when it returns [false] its last act was a wait
    that met nothing before the timeout. *)
Theorem waitline_result (s : RoboDK) (c : QTcpSocket) :
  _COM s = Some c ->
  exists c',
    snd (_waitline s) = set_COM (Some c') s /\
    fst (_waitline s) = canReadLine c' /\
    (fst (_waitline s) = false ->
     exists tr, transcript c' = transcript c ++ tr ++ [Waited (_TIMEOUT s) false]).
Proof.
  intros Hc. unfold _waitline. rewrite Hc.
  pose proof (_waitline_loop_result (S (length (peer c))) (_TIMEOUT s) c
                (Nat.lt_succ_diag_r _)) as H.
  cbv zeta in H.
  destruct (_waitline_loop (S (length (peer c))) (_TIMEOUT s) c) as [ok c'].
  cbn [fst snd] in *. exists c'. split; [reflexivity|exact H].
Qed.

(** On [half_line] no line feed ever comes. *)
Lemma waitline_result_witness :
  exists c',
    snd (_waitline half_line) = set_COM (Some c') half_line /\
    fst (_waitline half_line) = canReadLine c' /\
    (fst (_waitline half_line) = false ->
     exists tr,
       transcript c' = [] ++ tr ++ [Waited (_TIMEOUT half_line) false]).
Proof.
  exact (waitline_result half_line
           (socket_holding (bytes_of_string "Robot")
                           [Data (bytes_of_string " arm"); Silence]) eq_refl).
Defined.

(** X6 — when no complete line comes before the timeout, [_recv_Line]
    returns the empty text and throws away everything that was in the
    buffer. *)
Theorem recv_Line_timeout_discards (s : RoboDK) (c : QTcpSocket) :
  _COM s = Some c ->
  fst (_waitline s) = false ->
  fst (_recv_Line s) = [] /\ pending (snd (_recv_Line s)) = [] /\
  _connected (snd (_recv_Line s)) = connected c.
Proof.
  intros Hc Hf. unfold _recv_Line.
  unfold _waitline in *. rewrite Hc in *.
  destruct (_waitline_loop_hears (S (length (peer c))) (_TIMEOUT s) c) as (tr & Hh & _).
  destruct (_waitline_loop (S (length (peer c))) (_TIMEOUT s) c) as [ok c1].
  cbn [fst snd] in *. subst ok. cbn [negb]. rewrite _COM_set_COM.
  unfold readAll, read. cbn [fst snd]. unfold pending, _connected.
  rewrite _COM_set_COM. cbn [buffered connected]. rewrite skipn_all.
  repeat split. exact Hh.
Qed.

(** On [half_line] the nine bytes received are lost. *)
Lemma recv_Line_timeout_discards_witness :
  fst (_recv_Line half_line) = [] /\ pending (snd (_recv_Line half_line)) = [].
Proof.
  destruct (recv_Line_timeout_discards half_line
              (socket_holding (bytes_of_string "Robot")
                              [Data (bytes_of_string " arm"); Silence])
              eq_refl eq_refl) as (H1 & H2 & _).
  exact (conj H1 H2).
Defined.

(* ------------------------------------------------------------------ *)
(** ** Arrays and points                                               *)
(* ------------------------------------------------------------------ *)

Lemma store_at (pre : list double) (x : double) (rest : list double) (v : double) :
  store (pre ++ x :: rest) (length pre) v = pre ++ v :: rest.
Proof.
  induction pre as [|p pre IH]; cbn [app length store]; [reflexivity|].
  rewrite IH. reflexivity.
Qed.

(** Storing the doubles [vs] one after the other from the index
    [length pre] on. *)
Lemma store_run (vs : list double) :
  forall (pre dst : list double),
    (length vs <= length dst)%nat -> Forall is_double vs ->
    fold_left (fun (a : list double) (bv : nat * Z) => store a (fst bv) (snd bv mod 2 ^ 64))
              (combine (seq (length pre) (length vs)) vs) (pre ++ dst) =
    pre ++ vs ++ skipn (length vs) dst.
Proof.
  induction vs as [|v vs IH]; intros pre dst Hlen Hall.
  - reflexivity.
  - destruct dst as [|x dst]; [cbn in Hlen; lia|].
    cbn [length seq combine fold_left fst snd skipn].
    rewrite store_at.
    rewrite Z.mod_small by (inversion Hall; assumption).
    change (pre ++ v :: dst) with (pre ++ [v] ++ dst). rewrite app_assoc.
    replace (S (length pre)) with (length (pre ++ [v]))
      by (rewrite length_app; cbn; lia).
    rewrite IH; [|cbn in Hlen; lia|inversion Hall; assumption].
    rewrite <- app_assoc. reflexivity.
Qed.

Lemma map_nth_seq (values : list double) (k : nat) :
  (k <= length values)%nat ->
  map (fun i => nth i values double_zero) (seq 0 k) = firstn k values.
Proof.
  revert k. induction values as [|v values IH]; intros k Hk.
  - cbn in Hk. replace k with O by lia. reflexivity.
  - destruct k as [|k]; [reflexivity|].
    cbn [seq map nth firstn]. f_equal.
    rewrite <- seq_shift, map_map. cbn [nth]. apply IH. cbn in Hk. lia.
Qed.

Lemma sent_map_Written (A : Type) (f : A -> list byte) (l : list A) :
  sent (map (fun i => Written (f i)) l) = flat_map f l.
Proof.
  induction l as [|a l IH]; [reflexivity|].
  cbn [map flat_map]. rewrite <- IH. reflexivity.
Qed.

Lemma flat_map_after_map (A B : Type) (g : A -> B) (f : B -> list byte) (l : list A) :
  flat_map f (map g l) = flat_map (fun a => f (g a)) l.
Proof.
  induction l as [|a l IH]; [reflexivity|].
  cbn [map flat_map]. rewrite IH. reflexivity.
Qed.

Lemma sent_array_events (values : list double) (n : Z) :
  (Z.to_nat n <= length values)%nat ->
  sent (array_events values n) =
  be_encode 4 n ++ flat_map (be_encode 8) (firstn (Z.to_nat n) values).
Proof.
  intros Hn. unfold array_events.
  change (sent (Written (be_encode 4 n) :: ?l)) with (be_encode 4 n ++ sent l).
  f_equal.
  rewrite (sent_map_Written nat (fun i => be_encode 8 (nth i values double_zero))).
  rewrite <- (map_nth_seq values (Z.to_nat n) Hn).
  rewrite flat_map_after_map. reflexivity.
Qed.

Lemma length_flat_be8 (vs : list double) :
  length (flat_map (be_encode 8) vs) = (8 * length vs)%nat.
Proof.
  induction vs as [|v vs IH]; [reflexivity|].
  cbn [flat_map]. rewrite length_app, be_encode_length, IH. cbn [length]. lia.
Qed.

(** What [_recv_Array] does with a buffer that starts with a count and as
    many doubles. *)
Lemma _recv_Array_front (vs dst : list double) (psize : option Z)
      (r : RoboDK) (d : QTcpSocket) (rest : list byte) :
  (length vs <= 50)%nat -> (length vs <= length dst)%nat -> Forall is_double vs ->
  _COM r = Some d ->
  buffered d = be_encode 4 (Z.of_nat (length vs)) ++ flat_map (be_encode 8) vs ++ rest ->
  _recv_Array dst psize r =
  (true, vs ++ skipn (length vs) dst,
   match psize with Some _ => Some (Z.of_nat (length vs)) | None => None end,
   set_COM (Some (took_all (be_encode 4 (Z.of_nat (length vs)) :: map (be_encode 8) vs)
                           rest d)) r).
Proof.
  intros H50 Hdst Hall Hd Hb. unfold _recv_Array.
  rewrite (_recv_Int_front r d (Z.of_nat (length vs)) _ Hd Hb).
  rewrite to_signed_wrap by lia.
  rewrite _COM_set_COM.
  replace (Z.of_nat (length vs) <? 0) with false by (symmetry; apply Z.ltb_ge; lia).
  replace (50 <? Z.of_nat (length vs)) with false by (symmetry; apply Z.ltb_ge; lia).
  cbn [orb]. rewrite _TIMEOUT_set_COM.
  rewrite await_ready.
  2:{ unfold bytesAvailable, took. cbn [buffered].
      rewrite length_app, length_flat_be8. lia. }
  cbn [negb]. rewrite Nat2Z.id.
  change (took (be_encode 4 (Z.of_nat (length vs)))
               (flat_map (be_encode 8) vs ++ rest) d)
    with (took_all [be_encode 4 (Z.of_nat (length vs))]
                   (flat_map (be_encode 8) vs ++ rest) d).
  rewrite (stream_get_loop (list double) nat store (seq 0 (length vs)) vs
             [be_encode 4 (Z.of_nat (length vs))] rest d dst).
  2:{ rewrite length_seq. reflexivity. }
  pose proof (store_run vs [] dst Hdst Hall) as Hst.
  rewrite set_COM_set_COM.
  apply (f_equal2 pair); [|reflexivity].
  apply (f_equal2 pair); [|reflexivity].
  apply (f_equal2 pair); [reflexivity|exact Hst].
Qed.

(** X7 — an array of [n <= 50] doubles written by [_send_Array] on a
    connected client and read by [_recv_Array] from a buffer that starts with
    the bytes written: the receive succeeds, the size it reports is [n], the
    first [n] entries of the destination are the [n] doubles sent, bit for
    bit, the entries after them are untouched, and exactly the bytes written
    are taken. *)
Theorem Array_roundtrip (values dst : list double) (n old : Z) (s r : RoboDK)
        (d : QTcpSocket) (rest : list byte) :
  0 <= n <= 50 ->
  (Z.to_nat n <= length values)%nat -> (Z.to_nat n <= length dst)%nat ->
  Forall is_double values ->
  _connected s = true ->
  _COM r = Some d ->
  buffered d = emitted s (snd (_send_Array values n s)) ++ rest ->
  let '(ok, got, psize, r') := _recv_Array dst (Some old) r in
  ok = true /\ psize = Some n /\
  firstn (Z.to_nat n) got = firstn (Z.to_nat n) values /\
  skipn (Z.to_nat n) got = skipn (Z.to_nat n) dst /\
  pending r' = rest.
Proof.
  intros Hn Hvalues Hdst Hall Hs Hd Hb.
  rewrite (emitted_runs _ _ _ (_send_Array_runs values n s Hs)) in Hb.
  rewrite (sent_array_events values n Hvalues) in Hb.
  set (vs := firstn (Z.to_nat n) values) in *.
  assert (Hlen : length vs = Z.to_nat n).
  { unfold vs. rewrite length_firstn. lia. }
  assert (Hn' : Z.of_nat (length vs) = n) by lia.
  rewrite <- Hn' in Hb at 1. rewrite <- app_assoc in Hb.
  rewrite (_recv_Array_front vs dst (Some old) r d rest); try assumption; try lia.
  2:{ apply Forall_forall. intros x Hx. unfold vs in Hx.
      apply (proj1 (Forall_forall _ _) Hall).
      rewrite <- (firstn_skipn (Z.to_nat n) values). apply in_or_app. left. exact Hx. }
  rewrite <- Hlen.
  split; [reflexivity|]. split; [f_equal; exact Hn'|].
  split; [|split].
  - rewrite firstn_app, Nat.sub_diag, firstn_all. cbn [firstn]. apply app_nil_r.
  - rewrite skipn_app, Nat.sub_diag, skipn_all. reflexivity.
  - reflexivity.
Qed.

Lemma is_double_bent : Forall is_double (Values bent).
Proof. repeat constructor; unfold is_double; lia. Qed.

(** The six joints of [bent] sent on [idle] and received into six zeros. *)
Lemma Array_roundtrip_witness :
  fst (fst (fst (_recv_Array [0; 0; 0; 0; 0; 0] (Some 0)
                   (holding (emitted idle (snd (_send_Array (Values bent) 6 idle)))))))
  = true /\
  snd (fst (fst (_recv_Array [0; 0; 0; 0; 0; 0] (Some 0)
                   (holding (emitted idle (snd (_send_Array (Values bent) 6 idle)))))))
  = Values bent.
Proof.
  pose proof (Array_roundtrip (Values bent) [0; 0; 0; 0; 0; 0] 6 0 idle
                (holding (emitted idle (snd (_send_Array (Values bent) 6 idle))))
                (socket_holding (emitted idle (snd (_send_Array (Values bent) 6 idle))) [])
                []) as H.
  destruct (_recv_Array [0; 0; 0; 0; 0; 0] (Some 0)
              (holding (emitted idle (snd (_send_Array (Values bent) 6 idle)))))
    as [[[ok got] psize] r'].
  destruct H as (H1 & _ & H3 & H4 & _).
  - lia.
  - cbn. lia.
  - cbn. lia.
  - exact is_double_bent.
  - reflexivity.
  - reflexivity.
  - rewrite app_nil_r. reflexivity.
  - cbn [fst snd]. split; [exact H1|].
    rewrite <- (firstn_skipn (Z.to_nat 6) got), H3, H4. reflexivity.
Defined.

Lemma _send_XYZ_runs (pos : list double) (s : RoboDK) :
  _connected s = true ->
  runs s (snd (_send_XYZ pos s))
       (map (fun i => Written (be_encode 8 (nth i pos double_zero))) (seq 0 3)).
Proof.
  intros Hs. destruct (connected_socket s Hs) as (c & Hc & Hopen).
  unfold _send_XYZ. rewrite Hc. unfold isOpen. rewrite Hopen. cbn [negb snd].
  rewrite <- (did_nil c) at 1.
  rewrite (stream_put_loop nat (fun i => nth i pos double_zero) (seq 0 3) [] c Hopen).
  exact (runs_did s c _ Hc Hopen).
Qed.

Lemma _recv_XYZ_front (pos dst : list double) (r : RoboDK) (d : QTcpSocket)
      (rest : list byte) :
  length pos = 3%nat -> length dst = 3%nat -> Forall is_double pos ->
  _COM r = Some d -> buffered d = flat_map (be_encode 8) pos ++ rest ->
  _recv_XYZ dst r =
  (true, pos, set_COM (Some (took_all (map (be_encode 8) pos) rest d)) r).
Proof.
  intros Hpos Hdst Hall Hd Hb.
  unfold _recv_XYZ. rewrite Hd. change (3 * 8) with 24.
  rewrite await_ready.
  2:{ unfold bytesAvailable. rewrite Hb, length_app, length_flat_be8. lia. }
  cbn [negb]. rewrite <- (took_all_nil d) at 1. rewrite Hb.
  replace (seq 0 3) with (seq 0 (length pos)) by (rewrite Hpos; reflexivity).
  rewrite (stream_get_loop (list double) nat store (seq 0 (length pos)) pos [] rest d dst).
  2:{ rewrite length_seq. reflexivity. }
  pose proof (store_run pos [] dst ltac:(lia) Hall) as Hst.
  cbn [length app] in Hst. rewrite skipn_all2, app_nil_r in Hst by lia.
  apply (f_equal2 pair); [|reflexivity].
  apply (f_equal2 pair); [reflexivity|exact Hst].
Qed.

(** X8 — a point written by [_send_XYZ] on a connected client and read by
    [_recv_XYZ] from a buffer that starts with the bytes written: 24 bytes
    are written, the receive succeeds, the three doubles come back bit for
    bit and exactly those bytes are taken. *)
Theorem XYZ_roundtrip (pos dst : list double) (s r : RoboDK) (d : QTcpSocket)
        (rest : list byte) :
  length pos = 3%nat -> length dst = 3%nat -> Forall is_double pos ->
  _connected s = true ->
  _COM r = Some d ->
  buffered d = emitted s (snd (_send_XYZ pos s)) ++ rest ->
  length (emitted s (snd (_send_XYZ pos s))) = 24%nat /\
  fst (fst (_recv_XYZ dst r)) = true /\
  snd (fst (_recv_XYZ dst r)) = pos /\
  pending (snd (_recv_XYZ dst r)) = rest.
Proof.
  intros Hpos Hdst Hall Hs Hd Hb.
  rewrite (emitted_runs _ _ _ (_send_XYZ_runs pos s Hs)) in *.
  rewrite (sent_map_Written nat (fun i => be_encode 8 (nth i pos double_zero))) in *.
  rewrite <- (flat_map_after_map nat double (fun i => nth i pos double_zero)
                (be_encode 8)) in *.
  rewrite (map_nth_seq pos 3) in * by lia.
  assert (Hf : firstn 3 pos = pos) by (rewrite <- Hpos; apply firstn_all).
  rewrite Hf in *.
  split; [rewrite length_flat_be8; lia|].
  rewrite (_recv_XYZ_front pos dst r d rest Hpos Hdst Hall Hd Hb).
  repeat split.
Qed.

(** The point [corner] sent on [idle]. *)
Lemma XYZ_roundtrip_witness :
  snd (fst (_recv_XYZ [0; 0; 0] (holding (emitted idle (snd (_send_XYZ corner idle))))))
  = corner.
Proof.
  refine (proj1 (proj2 (proj2 (XYZ_roundtrip corner [0; 0; 0] idle
            (holding (emitted idle (snd (_send_XYZ corner idle))))
            (socket_holding (emitted idle (snd (_send_XYZ corner idle))) []) []
            eq_refl eq_refl _ eq_refl eq_refl _)))).
  - repeat constructor; unfold is_double; lia.
  - rewrite app_nil_r. reflexivity.
Defined.

(* ------------------------------------------------------------------ *)
(** ** Connecting, again                                               *)
(* ------------------------------------------------------------------ *)

Lemma _IP_disconnect (s : RoboDK) : _IP (_disconnect s) = _IP s.
Proof. unfold _disconnect. destruct (_COM s); reflexivity. Qed.

Lemma _PORT_disconnect (s : RoboDK) : _PORT (_disconnect s) = _PORT s.
Proof. unfold _disconnect. destruct (_COM s); reflexivity. Qed.

(** What [_connect] does to the machine around it: one dial, no program
    started. *)
Lemma _connect_host (s : RoboDK) :
  host (snd (_connect s)) =
  mkHost (tl (dials (host s))) (launches (host s))
         (dialled (host s) ++ [dial_address s]).
Proof.
  unfold _connect, dial, dial_address.
  rewrite host_disconnect, _IP_disconnect, _PORT_disconnect.
  destruct (dials (host s)) as [|[|server] later]; try reflexivity.
  cbn [tl]. unfold write, isOpen, canReadLine, waitForReadyRead.
  cbn [connected log buffered peer transcript existsb].
  destruct server as [|[bs|] more]; cbn [negb]; try reflexivity.
  destruct (readAll _) as [read c]. destruct (negb _); reflexivity.
Qed.

(** The socket [_connect] keeps when it succeeds. *)
Lemma _connect_socket (s : RoboDK) :
  fst (_connect s) = true ->
  exists c reply,
    _COM (snd (_connect s)) = Some c /\
    connected c = true /\ buffered c = [] /\
    transcript c =
      [Written ROBODK_API_START_STRING; Written ROBODK_API_LF;
       Written (bytes_of_string "1 0"); Written ROBODK_API_LF;
       Waited (_TIMEOUT s) true; Taken reply].
Proof.
  unfold _connect, dial.
  assert (Ht : _TIMEOUT (_disconnect s) = _TIMEOUT s)
    by (unfold _disconnect; destruct (_COM s); reflexivity).
  destruct (dials (host (_disconnect s))) as [|[|server] later];
    cbn [fst snd]; try discriminate.
  unfold write, isOpen, canReadLine, waitForReadyRead.
  cbn [connected log buffered peer transcript existsb].
  destruct server as [|[bs|] more]; cbn [negb fst snd]; try discriminate.
  unfold readAll, read. cbn [buffered app connected peer transcript].
  rewrite firstn_all, skipn_all.
  destruct (startsWith bs ROBODK_API_READY_STRING); cbn [negb fst snd];
    [|discriminate].
  intros _. eexists. exists bs. rewrite _COM_set_COM.
  split; [reflexivity|]. cbn [connected buffered transcript _TIMEOUT set_host].
  rewrite Ht. repeat split.
Qed.

(** X9 — [_connect] dials once, the address [127.0.0.1] when no address is
    configured, and starts no program.  When it succeeds the client has
    written exactly the two lines [CMD_START] and [1 0], in this order, and
    the read buffer is empty: whatever came with the greeting has been
    taken. *)
Theorem connect_handshake (s : RoboDK) :
  dialled (host (snd (_connect s))) = dialled (host s) ++ [dial_address s] /\
  (_IP s = [] -> fst (dial_address s) = bytes_of_string "127.0.0.1") /\
  launches (host (snd (_connect s))) = launches (host s) /\
  (fst (_connect s) = true ->
   sent (trace (snd (_connect s))) =
     bytes_of_string "CMD_START" ++ [LF] ++ bytes_of_string "1 0" ++ [LF] /\
   pending (snd (_connect s)) = []).
Proof.
  rewrite (_connect_host s). cbn [dialled launches].
  split; [reflexivity|]. split.
  - intros H. unfold dial_address. rewrite H. reflexivity.
  - split; [reflexivity|]. intros Hok.
    destruct (_connect_socket s Hok) as (c & reply & Hc & _ & Hbuf & Htr).
    unfold trace, pending. rewrite Hc, Htr, Hbuf. split; reflexivity.
Qed.

(** The second dial of [cold_start] succeeds. *)
Lemma connect_handshake_witness :
  sent (trace (snd (_connect (snd (_connect cold_start))))) =
  bytes_of_string "CMD_START" ++ [LF] ++ bytes_of_string "1 0" ++ [LF].
Proof.
  exact (proj1 (proj2 (proj2 (proj2 (connect_handshake (snd (_connect cold_start)))))
                      eq_refl)).
Defined.

Lemma _connect_outcome (s : RoboDK) :
  fst (_connect s) = _connected (snd (_connect s)) /\
  (fst (_connect s) = false -> _COM (snd (_connect s)) = None).
Proof.
  destruct (_connect_result s) as (_ & Hf & Ht).
  destruct (fst (_connect s)) eqn:E.
  - split; [symmetry; apply Ht; reflexivity|discriminate].
  - split; [|intros _; apply Hf; reflexivity].
    unfold _connected. rewrite (Hf eq_refl). reflexivity.
Qed.

Lemma scan_output_outcome (lines : list (list byte)) (s : RoboDK) :
  _COM s = None ->
  let r := scan_output lines s in
  fst r = _connected (snd r) /\
  (fst r = false -> _COM (snd r) = None) /\
  (length (dialled (host s)) <= length (dialled (host (snd r)))
   <= length (dialled (host s)) + 1)%nat /\
  launches (host (snd r)) = launches (host s).
Proof.
  intros Hc. induction lines as [|raw later IH]; cbn [scan_output].
  - cbn [fst snd]. unfold _connected. rewrite Hc.
    split; [reflexivity|]. split; [reflexivity|]. split; [lia|reflexivity].
  - destruct (contains_ci (trimmed raw) (bytes_of_string "Running")); [|exact IH].
    cbv zeta. destruct (_connect_outcome s) as [H1 H2].
    split; [exact H1|]. split; [exact H2|].
    rewrite (_connect_host s). cbn [dialled launches]. rewrite length_app.
    cbn [length]. split; [lia|reflexivity].
Qed.

(** X10 — [_connect_smart] returns [true] exactly when the client is
    connected as it returns, and keeps no socket when it returns [false].
    It dials once when the first attempt succeeds (no program is then
    started) and at most twice otherwise; it starts at most one program. *)
Theorem connect_smart_attempts (s : RoboDK) :
  let r := _connect_smart s in
  fst r = _connected (snd r) /\
  (fst r = false -> _COM (snd r) = None) /\
  (length (dialled (host s)) + 1 <= length (dialled (host (snd r)))
   <= length (dialled (host s)) + 2)%nat /\
  (length (launches (host s)) - 1 <= length (launches (host (snd r))))%nat /\
  (fst (_connect s) = true ->
   r = (true, snd (_connect s)) /\
   launches (host (snd r)) = launches (host s) /\
   length (dialled (host (snd r))) = (length (dialled (host s)) + 1)%nat).
Proof.
  cbv zeta. unfold _connect_smart.
  destruct (_connect_outcome s) as [H1 H2].
  pose proof (_connect_host s) as Hh.
  destruct (_connect s) as [ok s1]. cbn [fst snd] in *.
  destruct ok.
  - cbn [fst snd]. rewrite Hh. cbn [dialled launches]. rewrite length_app. cbn [length].
    split; [exact H1|]. split; [discriminate|]. split; [lia|]. split; [lia|].
    intros _. split; [reflexivity|]. split; [reflexivity|lia].
  - specialize (H2 eq_refl).
    destruct (launches (host s1)) as [|p later] eqn:El.
    + cbn [fst snd]. unfold _connected. cbn [set_PROCESS _COM host]. rewrite H2, Hh.
      cbn [dialled launches]. rewrite length_app. cbn [length].
      rewrite Hh in El. cbn [launches] in El. rewrite El. cbn [length].
      split; [reflexivity|]. split; [reflexivity|]. split; [lia|]. split; [lia|].
      discriminate.
    + set (s2 := set_PROCESS (pid p) (set_host (mkHost (dials (host s1)) later
                                                     (dialled (host s1))) s1)).
      assert (Hc2 : _COM s2 = None) by exact H2.
      destruct (scan_output_outcome (stdout p) s2 Hc2) as (K1 & K2 & K3 & K4).
      cbn [host set_PROCESS set_host s2 dialled launches] in K3, K4.
      rewrite Hh in K3, El. cbn [dialled launches] in K3, El.
      rewrite length_app in K3. cbn [length] in K3.
      split; [exact K1|]. split; [exact K2|]. split; [lia|].
      split; [rewrite K4, El; cbn [length]; lia|discriminate].
Qed.

(** On [cold_start] the first dial is refused, the program started prints
    [Running] on its second line, and the second dial connects. *)
Example connect_smart_cold_start :
  fst (_connect_smart cold_start) = true /\
  _PROCESS (snd (_connect_smart cold_start)) = 4242 /\
  length (dialled (host (snd (_connect_smart cold_start)))) = 2%nat.
Proof. vm_compute. repeat split. Qed.

(* ------------------------------------------------------------------ *)
(** ** Circular moves and the public moves                             *)
(* ------------------------------------------------------------------ *)

Lemma send_target_returns (target : option Item) (joints : option tJoints)
      (mat_target : option Mat) (s : RoboDK) :
  target <> None \/ joints <> None \/ mat_target <> None ->
  fst (send_target target joints mat_target s) = Returned.
Proof.
  intros Hsome. unfold send_target.
  destruct target as [t|]; [|destruct joints as [j|]; [|destruct mat_target as [m|]]].
  - destruct (_send_Int 3 s) as [o1 s1].
    destruct (_send_Array_joints None s1) as [o2 s2].
    destruct (_send_Item (Some t) s2); reflexivity.
  - destruct (_send_Int 1 s) as [o1 s1].
    destruct (_send_Array_joints (Some j) s1) as [o2 s2].
    destruct (_send_Item None s2); reflexivity.
  - destruct (_send_Int 2 s) as [o1 s1].
    destruct (_send_Array_mat (Some m) s1) as [o2 s2].
    destruct (_send_Item None s2); reflexivity.
  - exfalso. destruct Hsome as [H|[H|H]]; apply H; reflexivity.
Qed.

Section PublicMoveProperties.

Variable WaitMove_default : Z.
Variable ITEM_TYPE_PROGRAM : Z.

Lemma _moveX_returns (target : option Item) (joints : option tJoints)
      (mat_target : option Mat) (itemrobot : Item) (movetype : Z) (blocking : bool)
      (s : RoboDK) :
  target <> None \/ joints <> None \/ mat_target <> None ->
  fst (_moveX WaitMove_default target joints mat_target itemrobot movetype blocking s)
  = Returned.
Proof.
  intros Hsome. unfold _moveX.
  destruct (_send_Line _ _) as [o1 s1]. destruct (_send_Int movetype s1) as [o2 s2].
  pose proof (send_target_returns target joints mat_target s2 Hsome) as H.
  destruct (send_target target joints mat_target s2) as [out s3]. cbn [fst] in H.
  subst out. destruct (_send_Item _ s3) as [o4 s4]. destruct (_check_status s4).
  destruct blocking; reflexivity.
Qed.

Lemma _moveC_returns (target1 : option Item) (joints1 : option tJoints)
      (mat_target1 : option Mat) (target2 : option Item) (joints2 : option tJoints)
      (mat_target2 : option Mat) (itemrobot : Item) (blocking : bool) (s : RoboDK) :
  target1 <> None \/ joints1 <> None \/ mat_target1 <> None ->
  target2 <> None \/ joints2 <> None \/ mat_target2 <> None ->
  fst (_moveC WaitMove_default target1 joints1 mat_target1 target2 joints2 mat_target2
              itemrobot blocking s) = Returned.
Proof.
  intros Hone Htwo. unfold _moveC.
  destruct (_send_Line _ _) as [o1 s1]. destruct (_send_Int 3 s1) as [o2 s2].
  pose proof (send_target_returns target1 joints1 mat_target1 s2 Hone) as H.
  destruct (send_target target1 joints1 mat_target1 s2) as [out s3]. cbn [fst] in H.
  subst out.
  pose proof (send_target_returns target2 joints2 mat_target2 s3 Htwo) as H.
  destruct (send_target target2 joints2 mat_target2 s3) as [out s4]. cbn [fst] in H.
  subst out. destruct (_send_Item _ s4) as [o5 s5]. destruct (_check_status s5).
  destruct blocking; reflexivity.
Qed.

(** X11 — a circular move through [_moveC] on a connected client, with both
    targets supplied: the call returns, and what the socket has done during
    the call is, in this order, one wait-until-idle exchange for the robot,
    the request (the line [MoveC], the constant 3, the first target, the
    second target, the identifier of the robot; writes only), the reads and
    waits that decode the status, and then one more wait-until-idle exchange
    for a blocking move, nothing for a non-blocking one. *)
Theorem moveC_waits (target1 : option Item) (joints1 : option tJoints)
        (mat_target1 : option Mat) (target2 : option Item) (joints2 : option tJoints)
        (mat_target2 : option Mat) (itemrobot : Item) (blocking : bool) (s : RoboDK) :
  _connected s = true ->
  target1 <> None \/ joints1 <> None \/ mat_target1 <> None ->
  target2 <> None \/ joints2 <> None \/ mat_target2 <> None ->
  exists before decode after,
    fst (_moveC WaitMove_default target1 joints1 mat_target1 target2 joints2 mat_target2
                itemrobot blocking s) = Returned /\
    trace (snd (_moveC WaitMove_default target1 joints1 mat_target1
                       target2 joints2 mat_target2 itemrobot blocking s))
    = trace s ++ before
      ++ MoveC_request target1 joints1 mat_target1 target2 joints2 mat_target2 itemrobot
      ++ decode ++ after /\
    WaitMove_exchange itemrobot before /\
    outputs_only (MoveC_request target1 joints1 mat_target1 target2 joints2 mat_target2
                                itemrobot) /\
    inputs_only decode /\ decode <> [] /\
    (if blocking then WaitMove_exchange itemrobot after else after = []).
Proof.
  intros Hs Hone Htwo.
  destruct (WaitMove_runs itemrobot WaitMove_default s Hs) as (before & H1 & Hex).
  pose proof (_moveC_returns target1 joints1 mat_target1 target2 joints2 mat_target2
                itemrobot blocking s Hone Htwo) as Hret.
  revert Hret. unfold _moveC.
  pose proof (_send_Line_runs (bytes_of_string "MoveC") _ (runs_connected _ _ _ H1)) as H2.
  destruct (_send_Line (bytes_of_string "MoveC") (WaitMove itemrobot WaitMove_default s))
    as [o2 s2]. cbn [snd] in H2.
  pose proof (_send_Int_runs 3 s2 (runs_connected _ _ _ H2)) as H3.
  destruct (_send_Int 3 s2) as [o3 s3]. cbn [snd] in H3.
  destruct (send_target_runs target1 joints1 mat_target1 s3 (runs_connected _ _ _ H3) Hone)
    as (R4 & H4).
  destruct (send_target target1 joints1 mat_target1 s3) as [out s4]. cbn [fst snd] in *.
  subst out.
  destruct (send_target_runs target2 joints2 mat_target2 s4 (runs_connected _ _ _ H4) Htwo)
    as (R5 & H5).
  destruct (send_target target2 joints2 mat_target2 s4) as [out s5]. cbn [fst snd] in *.
  subst out.
  pose proof (_send_Item_runs (Some itemrobot) s5 (runs_connected _ _ _ H5)) as H6.
  destruct (_send_Item (Some itemrobot) s5) as [o6 s6]. cbn [snd] in H6.
  destruct (_check_status_runs s6 (runs_connected _ _ _ H6)) as (decode & H7 & I7 & N7).
  destruct (_check_status s6) as [o7 s7]. cbn [snd] in H7.
  pose proof (runs_trans _ _ _ _ _ H1
               (runs_trans _ _ _ _ _ H2
                 (runs_trans _ _ _ _ _ H3
                   (runs_trans _ _ _ _ _ H4
                     (runs_trans _ _ _ _ _ H5 (runs_trans _ _ _ _ _ H6 H7)))))) as Hrun.
  assert (Hout : outputs_only (MoveC_request target1 joints1 mat_target1
                                             target2 joints2 mat_target2 itemrobot)).
  { unfold MoveC_request. apply outputs_only_app; [reflexivity|].
    apply (outputs_only_app [_]); [reflexivity|].
    apply outputs_only_app; [apply outputs_only_target|].
    apply outputs_only_app; [apply outputs_only_target|reflexivity]. }
  intros Hret. destruct blocking.
  - destruct (WaitMove_runs itemrobot WaitMove_default s7 (runs_connected _ _ _ Hrun))
      as (after & H8 & Hex8).
    exists before, decode, after. cbn [fst snd].
    split; [reflexivity|]. split.
    + destruct (runs_trans _ _ _ _ _ Hrun H8) as [_ Ht]. rewrite Ht.
      unfold MoveC_request. rewrite <- !app_assoc. reflexivity.
    + repeat (split; [assumption|]). assumption.
  - exists before, decode, []. cbn [fst snd].
    split; [reflexivity|]. split.
    + destruct Hrun as [_ Ht]. rewrite Ht.
      unfold MoveC_request. rewrite <- !app_assoc, app_nil_r. reflexivity.
    + repeat (split; [assumption|]). reflexivity.
Qed.

(** X12 — none of the nine public moves of an item ends by [throw]: each
    hands a target to [_moveX] or [_moveC], so that their [throw 0] is out of
    reach from [Item::MoveJ], [Item::MoveL] and [Item::MoveC], whatever the
    state of the connection and whatever the server answers. *)
Theorem public_moves_return (this : Item) (blocking : bool) (s : RoboDK) :
  (forall t : Item,
      fst (MoveJ_item WaitMove_default ITEM_TYPE_PROGRAM this t blocking s) = Returned /\
      fst (MoveL_item WaitMove_default ITEM_TYPE_PROGRAM this t blocking s) = Returned) /\
  (forall j : tJoints,
      fst (MoveJ_joints WaitMove_default this j blocking s) = Returned /\
      fst (MoveL_joints WaitMove_default this j blocking s) = Returned) /\
  (forall m : Mat,
      fst (MoveJ_pose WaitMove_default this m blocking s) = Returned /\
      fst (MoveL_pose WaitMove_default this m blocking s) = Returned) /\
  (forall t1 t2 : Item,
      fst (MoveC_item WaitMove_default this t1 t2 blocking s) = Returned) /\
  (forall j1 j2 : tJoints,
      fst (MoveC_joints WaitMove_default this j1 j2 blocking s) = Returned) /\
  (forall m1 m2 : Mat,
      fst (MoveC_pose WaitMove_default this m1 m2 blocking s) = Returned).
Proof.
  assert (Hprog : forall t v, fst (
    let (_, s) := _check_connection s in
    let (_, s) := _send_Line (bytes_of_string "Add_INSMOVE") s in
    let (_, s) := _send_Item (Some t) s in
    let (_, s) := _send_Item (Some this) s in
    let (_, s) := _send_Int v s in
    let (_, s) := _check_status s in
    (Returned, s)) = Returned).
  { intros t v. destruct (_check_connection s) as [o0 s0].
    destruct (_send_Line _ s0) as [o1 s1]. destruct (_send_Item (Some t) s1) as [o2 s2].
    destruct (_send_Item (Some this) s2) as [o3 s3]. destruct (_send_Int v s3) as [o4 s4].
    destruct (_check_status s4). reflexivity. }
  split; [|split; [|split; [|split; [|split]]]].
  - intros t. unfold MoveJ_item, MoveL_item.
    destruct (_TYPE this =? ITEM_TYPE_PROGRAM).
    + split; apply Hprog.
    + split; apply _moveX_returns; left; discriminate.
  - intros j. split; apply _moveX_returns; right; left; discriminate.
  - intros m. split; apply _moveX_returns; right; right; discriminate.
  - intros t1 t2. apply _moveC_returns; left; discriminate.
  - intros j1 j2. apply _moveC_returns; right; left; discriminate.
  - intros m1 m2. apply _moveC_returns; right; right; discriminate.
Qed.

Lemma Add_INSMOVE_runs (this t : Item) (v : Z) (s : RoboDK) :
  _connected s = true ->
  exists decode,
    runs s (snd (let (_, s) := _check_connection s in
                 let (_, s) := _send_Line (bytes_of_string "Add_INSMOVE") s in
                 let (_, s) := _send_Item (Some t) s in
                 let (_, s) := _send_Item (Some this) s in
                 let (_, s) := _send_Int v s in
                 let (_, s) := _check_status s in
                 (Returned, s)))
         (Add_INSMOVE_request this t v ++ decode) /\
    inputs_only decode /\ decode <> [].
Proof.
  intros Hs. unfold _check_connection. rewrite Hs.
  pose proof (_send_Line_runs (bytes_of_string "Add_INSMOVE") s Hs) as H1.
  destruct (_send_Line (bytes_of_string "Add_INSMOVE") s) as [o1 s1]. cbn [snd] in H1.
  pose proof (_send_Item_runs (Some t) s1 (runs_connected _ _ _ H1)) as H2.
  destruct (_send_Item (Some t) s1) as [o2 s2]. cbn [snd] in H2.
  pose proof (_send_Item_runs (Some this) s2 (runs_connected _ _ _ H2)) as H3.
  destruct (_send_Item (Some this) s2) as [o3 s3]. cbn [snd] in H3.
  pose proof (_send_Int_runs v s3 (runs_connected _ _ _ H3)) as H4.
  destruct (_send_Int v s3) as [o4 s4]. cbn [snd] in H4.
  destruct (_check_status_runs s4 (runs_connected _ _ _ H4)) as (decode & H5 & I5 & N5).
  destruct (_check_status s4) as [o5 s5]. cbn [snd] in *.
  exists decode. split; [|split; assumption].
  pose proof (runs_trans _ _ _ _ _ H1
               (runs_trans _ _ _ _ _ H2
                 (runs_trans _ _ _ _ _ H3 (runs_trans _ _ _ _ _ H4 H5)))) as H.
  unfold Add_INSMOVE_request. rewrite <- !app_assoc. exact H.
Qed.

(** X13 — [MoveJ] and [MoveL] towards a target item, called on a program,
    move nothing: on a connected client the socket writes one request, the
    line [Add_INSMOVE], the identifier of the target, the identifier of the
    program and the move type (1 for [MoveJ], 2 for [MoveL]), and then only
    reads and waits for the status.  No wait-until-idle exchange takes place,
    and [blocking] is not looked at. *)
Theorem program_move_adds_instruction (this t : Item) (blocking : bool) (s : RoboDK) :
  _TYPE this = ITEM_TYPE_PROGRAM ->
  _connected s = true ->
  (exists decode,
      trace (snd (MoveJ_item WaitMove_default ITEM_TYPE_PROGRAM this t blocking s))
      = trace s ++ Add_INSMOVE_request this t 1 ++ decode /\
      inputs_only decode /\ decode <> []) /\
  (exists decode,
      trace (snd (MoveL_item WaitMove_default ITEM_TYPE_PROGRAM this t blocking s))
      = trace s ++ Add_INSMOVE_request this t 2 ++ decode /\
      inputs_only decode /\ decode <> []) /\
  MoveJ_item WaitMove_default ITEM_TYPE_PROGRAM this t blocking s
  = MoveJ_item WaitMove_default ITEM_TYPE_PROGRAM this t (negb blocking) s /\
  MoveL_item WaitMove_default ITEM_TYPE_PROGRAM this t blocking s
  = MoveL_item WaitMove_default ITEM_TYPE_PROGRAM this t (negb blocking) s.
Proof.
  intros Hty Hs. unfold MoveJ_item, MoveL_item.
  rewrite Hty, Z.eqb_refl.
  split; [|split; [|split; reflexivity]].
  - destruct (Add_INSMOVE_runs this t 1 s Hs) as (decode & [_ H] & Hin & Hne).
    exists decode. split; [exact H|split; assumption].
  - destruct (Add_INSMOVE_runs this t 2 s Hs) as (decode & [_ H] & Hin & Hne).
    exists decode. split; [exact H|split; assumption].
Qed.

End PublicMoveProperties.

(** A blocking circular move of [robot] through the pose [shifted_pose] to
    the joints [six_joints]. *)
Lemma moveC_waits_witness :
  exists before decode after,
    fst (_moveC 300000 None None (Some shifted_pose) None (Some six_joints) None
                robot true ready_to_move) = Returned /\
    trace (snd (_moveC 300000 None None (Some shifted_pose) None (Some six_joints) None
                       robot true ready_to_move))
    = trace ready_to_move ++ before
      ++ MoveC_request None None (Some shifted_pose) None (Some six_joints) None robot
      ++ decode ++ after /\
    WaitMove_exchange robot before /\
    outputs_only (MoveC_request None None (Some shifted_pose) None (Some six_joints) None
                                robot) /\
    inputs_only decode /\ decode <> [] /\
    WaitMove_exchange robot after.
Proof.
  apply (moveC_waits 300000 None None (Some shifted_pose) None (Some six_joints) None
                     robot true ready_to_move).
  - reflexivity.
  - right; right; discriminate.
  - right; left; discriminate.
Defined.

(** [MoveL] towards [home] on the program [routine], programs being of
    type 8. *)
Lemma program_move_adds_instruction_witness :
  exists decode,
    trace (snd (MoveL_item 300000 8 routine home true ready_to_move))
    = trace ready_to_move ++ Add_INSMOVE_request routine home 2 ++ decode /\
    inputs_only decode /\ decode <> [].
Proof.
  exact (proj1 (proj2 (program_move_adds_instruction 300000 8 routine home true
                         ready_to_move eq_refl eq_refl))).
Defined.

(* ------------------------------------------------------------------ *)
(** ** Lists of items                                                  *)
(* ------------------------------------------------------------------ *)

Lemma pending_send_Line (text : list byte) (s : RoboDK) :
  pending (snd (_send_Line text s)) = pending s.
Proof.
  unfold _send_Line, pending. destruct (_COM s) as [c|] eqn:Hc; cbn [snd].
  - destruct (negb (isOpen c)); cbn [snd]; [rewrite Hc; reflexivity|].
    rewrite _COM_set_COM. unfold write. repeat destruct (isOpen _); reflexivity.
  - rewrite Hc. reflexivity.
Qed.

Lemma pending_send_Int (v : Z) (s : RoboDK) : pending (snd (_send_Int v s)) = pending s.
Proof.
  unfold _send_Int, pending. destruct (_COM s) as [c|] eqn:Hc; cbn [snd].
  - destruct (negb (isOpen c)); cbn [snd]; [rewrite Hc; reflexivity|].
    rewrite _COM_set_COM. unfold stream_put, write. destruct (isOpen _); reflexivity.
  - rewrite Hc. reflexivity.
Qed.

Lemma pending_send_Item (item : option Item) (s : RoboDK) :
  pending (snd (_send_Item item s)) = pending s.
Proof.
  unfold _send_Item, pending. destruct (_COM s) as [c|] eqn:Hc; cbn [snd].
  - destruct (negb (isOpen c)); cbn [snd]; [rewrite Hc; reflexivity|].
    rewrite _COM_set_COM. unfold stream_put, write. destruct (isOpen _); reflexivity.
  - rewrite Hc. reflexivity.
Qed.

Lemma pending_socket (s : RoboDK) (bs : list byte) :
  _connected s = true -> pending s = bs ->
  exists c, _COM s = Some c /\ connected c = true /\ buffered c = bs.
Proof.
  intros Hs Hp. destruct (connected_socket s Hs) as (c & Hc & Hopen).
  exists c. unfold pending in Hp. rewrite Hc in Hp. repeat split; assumption.
Qed.

Lemma _recv_Item_front (s : RoboDK) (c : QTcpSocket) (item : Item) (rest : list byte) :
  _COM s = Some c -> buffered c = Item_wire item ++ rest -> is_Item item ->
  _recv_Item s =
  (item, set_COM (Some (took (be_encode 4 (_TYPE item)) rest
                          (took (be_encode 8 (_PTR item))
                                (be_encode 4 (_TYPE item) ++ rest) c))) s).
Proof.
  intros Hc Hb [Hp Ht]. unfold Item_wire in Hb. rewrite <- app_assoc in Hb.
  unfold _recv_Item. rewrite Hc. rewrite await_ready.
  2:{ unfold bytesAvailable. rewrite Hb, !length_app, !be_encode_length. lia. }
  cbn [negb].
  rewrite (stream_get_front 8 (be_encode 8 (_PTR item)) (be_encode 4 (_TYPE item) ++ rest) c
             (be_encode_length 8 _) Hb).
  rewrite (stream_get_front 4 (be_encode 4 (_TYPE item)) rest
             (took (be_encode 8 (_PTR item)) (be_encode 4 (_TYPE item) ++ rest) c)
             (be_encode_length 4 _) eq_refl).
  rewrite !be_decode_encode. rewrite to_signed_wrap by exact Ht.
  change (8 * Z.of_nat 8) with 64. rewrite Z.mod_small by exact Hp.
  destruct item; reflexivity.
Qed.

Lemma recv_Items_front (items : list Item) :
  forall (s : RoboDK) (c : QTcpSocket) (rest : list byte),
    _COM s = Some c -> buffered c = flat_map Item_wire items ++ rest ->
    Forall is_Item items ->
    fst (recv_Items (length items) s) = items /\
    pending (snd (recv_Items (length items) s)) = rest /\
    _connected (snd (recv_Items (length items) s)) = connected c.
Proof.
  induction items as [|item more IH]; intros s c rest Hc Hb Hall.
  - cbn [recv_Items length fst snd]. unfold pending, _connected. rewrite Hc.
    repeat split. exact Hb.
  - inversion Hall as [|? ? Hitem Hmore]; subst.
    cbn [flat_map] in Hb. rewrite <- app_assoc in Hb.
    cbn [recv_Items length].
    rewrite (_recv_Item_front s c item _ Hc Hb Hitem).
    match goal with |- context [recv_Items _ (set_COM (Some ?c') s)] =>
      destruct (IH (set_COM (Some c') s) c' rest (_COM_set_COM _ _) eq_refl Hmore)
        as (I1 & I2 & I3) end.
    destruct (recv_Items (length more) _) as [got s']. cbn [fst snd] in *.
    subst got. repeat split; assumption.
Qed.

(** What both callers do once their request is written. *)
Lemma item_list_tail (items : list Item) (n : Z) (rest : list byte) (s : RoboDK) :
  _connected s = true ->
  pending s = be_encode 4 n ++ flat_map Item_wire items ++ rest ->
  (n = Z.of_nat (length items) /\ n < 2 ^ 31 /\ Forall is_Item items) \/
  (- 2 ^ 31 <= n <= 0 /\ items = []) ->
  fst (let (nitems, s) := _recv_Int s in
       let (itemlist, s) := recv_Items (Z.to_nat nitems) s in
       let (_, s) := _check_status s in
       (itemlist, s)) = items.
Proof.
  intros Hs Hp Hcase.
  destruct (pending_socket s _ Hs Hp) as (c & Hc & Hopen & Hb).
  rewrite (_recv_Int_front s c n _ Hc Hb).
  assert (Hn : - 2 ^ 31 <= n < 2 ^ 31) by (destruct Hcase as [(-> & ? & _)|[? _]]; lia).
  rewrite (to_signed_wrap n Hn).
  destruct Hcase as [(-> & _ & Hall)|[Hle ->]].
  - rewrite Nat2Z.id.
    match goal with |- context [recv_Items _ (set_COM (Some ?c') s)] =>
      destruct (recv_Items_front items (set_COM (Some c') s) c' rest
                  (_COM_set_COM _ _) eq_refl Hall) as (I1 & _) end.
    destruct (recv_Items (length items) _) as [got s']. cbn [fst] in I1.
    destruct (_check_status s'). exact I1.
  - replace (Z.to_nat n) with O by lia. cbn [recv_Items].
    destruct (_check_status _). reflexivity.
Qed.

Lemma _recv_Item_runs (s : RoboDK) :
  _connected s = true ->
  exists tr, runs s (snd (_recv_Item s)) tr /\ inputs_only tr.
Proof.
  intros Hs. destruct (connected_socket s Hs) as (c & Hc & Hopen).
  unfold _recv_Item. rewrite Hc.
  destruct (await_hears 8 (_TIMEOUT s) c) as (tr & Htr & _).
  destruct (await 8 (_TIMEOUT s) c) as [enough c1]. cbn [fst snd] in *.
  destruct enough; cbn [negb].
  - destruct (stream_get_hears 8 c1) as (b1 & H1).
    destruct (stream_get 8 c1) as [ptr c2]. cbn [snd] in *.
    destruct (stream_get_hears 4 c2) as (b2 & H2).
    destruct (stream_get 4 c2) as [type c3]. cbn [snd] in *.
    pose proof (hears_trans _ _ _ _ _ Htr (hears_trans _ _ _ _ _ H1 H2)) as H.
    eexists. split; [exact (runs_hears s c c3 _ Hc Hopen H)|apply H].
  - exists tr. split; [exact (runs_hears s c c1 _ Hc Hopen Htr)|apply Htr].
Qed.

Lemma recv_Items_runs (n : nat) :
  forall s : RoboDK,
    _connected s = true ->
    exists tr, runs s (snd (recv_Items n s)) tr /\ inputs_only tr.
Proof.
  induction n as [|k IH]; intros s Hs; cbn [recv_Items].
  - exists []. split; [|reflexivity]. split; [exact Hs|]. rewrite app_nil_r. reflexivity.
  - destruct (_recv_Item_runs s Hs) as (t1 & H1 & I1).
    destruct (_recv_Item s) as [item s1]. cbn [snd] in H1.
    destruct (IH s1 (runs_connected _ _ _ H1)) as (t2 & H2 & I2).
    destruct (recv_Items k s1) as [items s2]. cbn [snd] in *.
    exists (t1 ++ t2). split; [exact (runs_trans _ _ _ _ _ H1 H2)|].
    apply inputs_only_app; assumption.
Qed.

Lemma sent_inputs_only (tr : list IOEvent) : inputs_only tr -> sent tr = [].
Proof.
  unfold inputs_only. induction tr as [|e tr IH]; [reflexivity|].
  cbn [forallb]. intros H. apply andb_prop in H. destruct H as [He Htr].
  destruct e; try discriminate; cbn [sent flat_map app]; exact (IH Htr).
Qed.

(** What both callers do once their request is written: nothing more is
    written. *)
Lemma item_list_tail_sent (s : RoboDK) :
  _connected s = true ->
  sent (trace (snd (let (nitems, s) := _recv_Int s in
                    let (itemlist, s) := recv_Items (Z.to_nat nitems) s in
                    let (_, s) := _check_status s in
                    (itemlist, s)))) = sent (trace s).
Proof.
  intros Hs. destruct (_recv_Int_runs s Hs) as (t1 & H1 & I1 & _).
  destruct (_recv_Int s) as [nitems s1]. cbn [snd] in H1.
  destruct (recv_Items_runs (Z.to_nat nitems) s1 (runs_connected _ _ _ H1))
    as (t2 & H2 & I2).
  destruct (recv_Items (Z.to_nat nitems) s1) as [itemlist s2]. cbn [snd] in H2.
  destruct (_check_status_runs s2 (runs_connected _ _ _ H2)) as (t3 & H3 & I3 & _).
  destruct (_check_status s2) as [o s3]. cbn [snd] in *.
  destruct (runs_trans _ _ _ _ _ H1 (runs_trans _ _ _ _ _ H2 H3)) as [_ Ht].
  rewrite Ht, sent_app, !sent_app.
  rewrite (sent_inputs_only _ I1), (sent_inputs_only _ I2), (sent_inputs_only _ I3).
  rewrite !app_nil_r. reflexivity.
Qed.

(** X14 — [Item::Childs] and [RoboDK::getItemList] on a connected client
    whose buffer holds a count followed by that many items of twelve bytes
    return these items, in the order of the wire; with a count that is zero
    or negative they return the empty list.  The request written is the line
    [G_Childs] and the identifier of the item, the line [G_List_Items_ptr]
    for a negative filter, the line [G_List_Items_Type_ptr] and the filter
    otherwise; nothing else is written. *)
Theorem item_list_received (this : Item) (filter : Z) (items : list Item) (n : Z)
        (rest : list byte) (s : RoboDK) :
  _connected s = true ->
  pending s = be_encode 4 n ++ flat_map Item_wire items ++ rest ->
  (n = Z.of_nat (length items) /\ n < 2 ^ 31 /\ Forall is_Item items) \/
  (- 2 ^ 31 <= n <= 0 /\ items = []) ->
  fst (Childs this s) = items /\
  fst (getItemList filter s) = items /\
  sent (trace (snd (Childs this s))) =
    sent (trace s) ++ bytes_of_string "G_Childs" ++ [LF] ++ be_encode 8 (_PTR this) /\
  sent (trace (snd (getItemList filter s))) =
    sent (trace s) ++
    (if filter <? 0 then bytes_of_string "G_List_Items_ptr" ++ [LF]
     else bytes_of_string "G_List_Items_Type_ptr" ++ [LF] ++ be_encode 4 filter).
Proof.
  intros Hs Hp Hcase.
  assert (HC : fst (Childs this s) = items /\
               sent (trace (snd (Childs this s))) =
               sent (trace s) ++ bytes_of_string "G_Childs" ++ [LF]
               ++ be_encode 8 (_PTR this)).
  { unfold Childs, _check_connection. rewrite Hs.
    pose proof (_send_Line_runs (bytes_of_string "G_Childs") s Hs) as H1.
    pose proof (pending_send_Line (bytes_of_string "G_Childs") s) as P1.
    destruct (_send_Line (bytes_of_string "G_Childs") s) as [o1 s1]. cbn [snd] in *.
    pose proof (_send_Item_runs (Some this) s1 (runs_connected _ _ _ H1)) as H2.
    pose proof (pending_send_Item (Some this) s1) as P2.
    destruct (_send_Item (Some this) s1) as [o2 s2]. cbn [snd] in *.
    rewrite P1, Hp in P2.
    split; [exact (item_list_tail items n rest s2 (runs_connected _ _ _ H2) P2 Hcase)|].
    rewrite (item_list_tail_sent s2 (runs_connected _ _ _ H2)).
    destruct (runs_trans _ _ _ _ _ H1 H2) as [_ Ht]. rewrite Ht, sent_app.
    cbn [line_events app sent flat_map ROBODK_API_LF]. rewrite ?app_nil_r, <- ?app_assoc.
    reflexivity. }
  assert (HL : fst (getItemList filter s) = items /\
               sent (trace (snd (getItemList filter s))) =
               sent (trace s) ++
               (if filter <? 0 then bytes_of_string "G_List_Items_ptr" ++ [LF]
                else bytes_of_string "G_List_Items_Type_ptr" ++ [LF]
                     ++ be_encode 4 filter)).
  { unfold getItemList, _check_connection. rewrite Hs.
    destruct (filter <? 0).
    - pose proof (_send_Line_runs (bytes_of_string "G_List_Items_ptr") s Hs) as H1.
      pose proof (pending_send_Line (bytes_of_string "G_List_Items_ptr") s) as P1.
      destruct (_send_Line (bytes_of_string "G_List_Items_ptr") s) as [o1 s1].
      cbn [snd] in *. rewrite Hp in P1.
      split; [exact (item_list_tail items n rest s1 (runs_connected _ _ _ H1) P1 Hcase)|].
      rewrite (item_list_tail_sent s1 (runs_connected _ _ _ H1)).
      destruct H1 as [_ Ht]. rewrite Ht, sent_app.
      cbn [line_events app sent flat_map ROBODK_API_LF]. rewrite ?app_nil_r, <- ?app_assoc.
      reflexivity.
    - pose proof (_send_Line_runs (bytes_of_string "G_List_Items_Type_ptr") s Hs) as H1.
      pose proof (pending_send_Line (bytes_of_string "G_List_Items_Type_ptr") s) as P1.
      destruct (_send_Line (bytes_of_string "G_List_Items_Type_ptr") s) as [o1 s1].
      cbn [snd] in *.
      pose proof (_send_Int_runs filter s1 (runs_connected _ _ _ H1)) as H2.
      pose proof (pending_send_Int filter s1) as P2.
      destruct (_send_Int filter s1) as [o2 s2]. cbn [snd] in *.
      rewrite P1, Hp in P2.
      split; [exact (item_list_tail items n rest s2 (runs_connected _ _ _ H2) P2 Hcase)|].
      rewrite (item_list_tail_sent s2 (runs_connected _ _ _ H2)).
      destruct (runs_trans _ _ _ _ _ H1 H2) as [_ Ht]. rewrite Ht, sent_app.
      cbn [line_events app sent flat_map ROBODK_API_LF]. rewrite ?app_nil_r, <- ?app_assoc.
      reflexivity. }
  destruct HC as [C1 C2]. destruct HL as [L1 L2].
  split; [exact C1|]. split; [exact L1|]. split; [exact C2|exact L2].
Qed.

(** The children of [robot] on [listing] are the two items of the answer. *)
Lemma item_list_received_witness : fst (Childs robot listing) = two_items.
Proof.
  refine (proj1 (item_list_received robot 0 two_items 2 (be_encode 4 0) listing
                   eq_refl eq_refl _)).
  left. split; [reflexivity|]. split; [reflexivity|].
  repeat constructor; cbn; lia.
Defined.

(* ------------------------------------------------------------------ *)
(** ** Entries of a pose                                               *)
(* ------------------------------------------------------------------ *)

(** X15 — [Mat::Set] followed by [Mat::Get], indices within 0..3: the entry
    written reads back as the value narrowed to a float and widened again
    (a pose keeps single precision), every other entry reads as before; a
    value that was read from an entry is written back without loss. *)
Theorem Mat_Set_then_Get (m : Mat) (i j i' j' : Z) (value : double) :
  0 <= i < 4 -> 0 <= j < 4 -> 0 <= i' < 4 -> 0 <= j' < 4 ->
  Mat_Get (Mat_Set m i j value) i' j' =
    (if (i =? i') && (j =? j') then float_to_double (double_to_float value)
     else Mat_Get m i' j') /\
  (is_Mat m -> Mat_Get (Mat_Set m i j (Mat_Get m i' j')) i j = Mat_Get m i' j').
Proof.
  intros Hi Hj Hi' Hj'.
  assert (Hget : Mat_Get (Mat_Set m i j value) i' j' =
                 (if (i =? i') && (j =? j') then float_to_double (double_to_float value)
                  else Mat_Get m i' j')).
  { assert (Ei : i = 0 \/ i = 1 \/ i = 2 \/ i = 3) by lia.
    assert (Ej : j = 0 \/ j = 1 \/ j = 2 \/ j = 3) by lia.
    assert (Ei' : i' = 0 \/ i' = 1 \/ i' = 2 \/ i' = 3) by lia.
    assert (Ej' : j' = 0 \/ j' = 1 \/ j' = 2 \/ j' = 3) by lia.
    destruct Ei as [->|[->|[->| ->]]]; destruct Ej as [->|[->|[->| ->]]];
      destruct Ei' as [->|[->|[->| ->]]]; destruct Ej' as [->|[->|[->| ->]]];
      reflexivity. }
  split; [exact Hget|]. intros Hm.
  assert (Hsame : forall v, Mat_Get (Mat_Set m i j v) i j
                            = float_to_double (double_to_float v)).
  { intros v.
    assert (Ei : i = 0 \/ i = 1 \/ i = 2 \/ i = 3) by lia.
    assert (Ej : j = 0 \/ j = 1 \/ j = 2 \/ j = 3) by lia.
    destruct Ei as [->|[->|[->| ->]]]; destruct Ej as [->|[->|[->| ->]]]; reflexivity. }
  rewrite Hsame. unfold Mat_Get. apply float_to_double_roundtrip.
  apply is_Mat_entries; [exact Hm| |]; unfold idx4; cbn [In]; lia.
Qed.

(** Writing the entry (1, 3) of [shifted_pose] leaves the entry (0, 3). *)
Lemma Mat_Set_then_Get_witness :
  Mat_Get (Mat_Set shifted_pose 1 3 0) 0 3 = Mat_Get shifted_pose 0 3.
Proof.
  exact (proj1 (Mat_Set_then_Get shifted_pose 1 3 0 3 0
                  ltac:(lia) ltac:(lia) ltac:(lia) ltac:(lia))).
Defined.

(* ------------------------------------------------------------------ *)
(** ** Copies between arrays                                           *)
(* ------------------------------------------------------------------ *)

Lemma firstn_snoc_nth (l : list double) (n : nat) :
  (n < length l)%nat -> firstn (S n) l = firstn n l ++ [nth n l double_zero].
Proof.
  revert n. induction l as [|x l IH]; intros n Hn; [cbn in Hn; lia|].
  destruct n as [|n]; [reflexivity|].
  cbn [firstn nth app]. cbn [firstn] in IH. rewrite <- (IH n) by (cbn in Hn; lia).
  reflexivity.
Qed.

Lemma skipn_cons_nth (l : list double) (n : nat) :
  (n < length l)%nat -> skipn n l = nth n l double_zero :: skipn (S n) l.
Proof.
  revert n. induction l as [|x l IH]; intros n Hn; [cbn in Hn; lia|].
  destruct n as [|n]; [reflexivity|].
  cbn [skipn nth]. apply IH. cbn in Hn. lia.
Qed.

(** The copy loop writes the first [n] doubles of [src] at [from] and
    leaves the rest of [dst]. *)
Lemma copy_into_spec (dst src : list double) (from n : nat) :
  (n <= length src)%nat -> (from + n <= length dst)%nat ->
  copy_into dst from src n = firstn from dst ++ firstn n src ++ skipn (from + n) dst.
Proof.
  unfold copy_into. induction n as [|n IH]; intros Hs Hd.
  - cbn [seq fold_left firstn app]. rewrite Nat.add_0_r, firstn_skipn. reflexivity.
  - rewrite seq_S, fold_left_app. cbn [fold_left Nat.add].
    rewrite IH by lia.
    rewrite (skipn_cons_nth dst (from + n)) by lia.
    rewrite app_assoc.
    pose proof (store_at (firstn from dst ++ firstn n src) (nth (from + n) dst double_zero)
                         (skipn (S (from + n)) dst) (nth n src double_zero)) as Hst.
    replace (length (firstn from dst ++ firstn n src)) with (from + n)%nat in Hst
      by (rewrite length_app, !length_firstn; lia).
    rewrite Hst.
    rewrite (firstn_snoc_nth src n) by lia.
    rewrite <- !app_assoc. cbn [app].
    replace (from + S n)%nat with (S (from + n)) by lia. reflexivity.
Qed.

Lemma copy_into_length (dst src : list double) (from n : nat) :
  length (copy_into dst from src n) = length dst.
Proof.
  unfold copy_into. revert dst. induction (seq 0 n) as [|i l IH]; intros dst;
    [reflexivity|].
  cbn [fold_left]. rewrite IH.
  generalize (from + i)%nat. generalize (nth i src double_zero). clear.
  intros v k. revert k. induction dst as [|x dst IH]; intros k; [reflexivity|].
  destruct k; cbn [store length]; [reflexivity|]. rewrite IH. reflexivity.
Qed.

(** X16 — [tJoints::SetValues] with a count [ndofs >= 0] within the
    extent of the array makes it the count of the joints and copies that
    many values; what lies beyond them in the array stays.  A following
    [GetValues] returns the count and delivers exactly these values into
    the caller's array, of which it touches nothing else.  A negative count
    keeps the count the joints had. *)
Theorem joints_values_roundtrip (this : tJoints) (values dst : list double) (ndofs : Z) :
  0 <= ndofs ->
  (Z.to_nat ndofs <= length (Values this))%nat ->
  (Z.to_nat ndofs <= length values)%nat ->
  (Z.to_nat ndofs <= length dst)%nat ->
  let j := SetValues this values ndofs in
  nDOFs j = ndofs /\
  Values j = firstn (Z.to_nat ndofs) values ++ skipn (Z.to_nat ndofs) (Values this) /\
  fst (GetValues j dst) = ndofs /\
  snd (GetValues j dst) = firstn (Z.to_nat ndofs) values ++ skipn (Z.to_nat ndofs) dst /\
  (forall k, k < 0 -> nDOFs (SetValues this values k) = nDOFs this).
Proof.
  intros H0 Hthis Hvalues Hdst j.
  assert (Hn : nDOFs j = ndofs).
  { unfold j, SetValues. cbn [nDOFs].
    replace (0 <=? ndofs) with true by (symmetry; apply Z.leb_le; exact H0). reflexivity. }
  assert (Hv : Values j
               = firstn (Z.to_nat ndofs) values ++ skipn (Z.to_nat ndofs) (Values this)).
  { unfold j, SetValues. cbn [Values].
    replace (0 <=? ndofs) with true by (symmetry; apply Z.leb_le; exact H0).
    rewrite copy_into_spec by lia. reflexivity. }
  split; [exact Hn|]. split; [exact Hv|]. split; [exact Hn|]. split.
  - unfold GetValues. cbn [snd]. rewrite Hn.
    rewrite copy_into_spec by (rewrite ?Hv, ?length_app, ?length_firstn, ?length_skipn; lia).
    cbn [firstn app Nat.add]. apply (f_equal (fun l => l ++ skipn (Z.to_nat ndofs) dst)).
    rewrite Hv, firstn_app, length_firstn.
    replace (Z.to_nat ndofs - Nat.min (Z.to_nat ndofs) (length values))%nat with O by lia.
    cbn [firstn]. rewrite app_nil_r, firstn_firstn.
    replace (Nat.min (Z.to_nat ndofs) (Z.to_nat ndofs)) with (Z.to_nat ndofs) by lia.
    reflexivity.
  - intros k Hk. unfold SetValues. cbn [nDOFs].
    replace (0 <=? k) with false by (symmetry; apply Z.leb_gt; exact Hk). reflexivity.
Qed.

(** Three values put into [blank_joints] and read into an array of four. *)
Lemma joints_values_roundtrip_witness :
  snd (GetValues (SetValues blank_joints three_values 3) [7; 7; 7; 7])
  = three_values ++ [7].
Proof.
  refine (proj1 (proj2 (proj2 (proj2
            (joints_values_roundtrip blank_joints three_values [7; 7; 7; 7] 3 _ _ _ _)))));
    cbn; lia.
Defined.

(* ------------------------------------------------------------------ *)
(** ** The block of a 2D matrix                                        *)
(* ------------------------------------------------------------------ *)

(** The growth loop ends at or above what is asked, and within [int]. *)
Lemma grow_spec (fuel : nat) :
  forall i n : Z,
    0 < i <= 2147483647 -> n <= 2147483647 ->
    2147483647 <= i * 2 ^ Z.of_nat fuel ->
    n <= grow fuel i n /\ i <= grow fuel i n <= 2147483647.
Proof.
  induction fuel as [|k IH]; intros i n Hi Hn Hfuel.
  - cbn [grow]. change (2 ^ Z.of_nat 0) with 1 in Hfuel. lia.
  - cbn [grow]. destruct (i <? n) eqn:E; [|apply Z.ltb_ge in E; lia].
    rewrite Nat2Z.inj_succ, Z.pow_succ_r in Hfuel by lia.
    assert (Hk : 0 < 2 ^ Z.of_nat k) by (apply Z.pow_pos_nonneg; lia).
    destruct (1073741823 <? i) eqn:Ebig.
    + apply Z.ltb_lt in Ebig.
      destruct (IH 2147483647 n ltac:(lia) Hn ltac:(nia)) as (H1 & H2). lia.
    + apply Z.ltb_ge in Ebig.
      rewrite Z.shiftl_mul_pow2 by lia. change (2 ^ 1) with 2.
      destruct (IH (i * 2) n ltac:(lia) Hn ltac:(nia)) as (H1 & H2). lia.
Qed.

Lemma block_set_data (f : list double -> list double) (m : tMatrix2D) :
  f [] = [] -> block (set_data (option_map f (data m)) m) = f (block m).
Proof. intros Hf. unfold block, set_data. cbn [data]. destruct (data m); cbn; congruence. Qed.

Lemma copy_into_nil (from : nat) (src : list double) (n : nat) : copy_into [] from src n = [].
Proof.
  apply length_zero_iff_nil. rewrite copy_into_length. reflexivity.
Qed.

Lemma firstn_app_exact (n : nat) (l r : list double) :
  length l = n -> firstn n (l ++ r) = l.
Proof.
  intros <-. rewrite firstn_app, Nat.sub_diag, firstn_all. cbn [firstn].
  apply app_nil_r.
Qed.

(** What [emxEnsureCapacity] does to a matrix of two dimensions. *)
Lemma emxEnsureCapacity_spec (m : tMatrix2D) (rows cols oldNumel : Z) :
  numDimensions m = 2 -> size m = [rows; cols] ->
  0 <= rows * cols < 2 ^ 31 ->
  0 <= allocatedSize m < 2 ^ 31 ->
  0 <= oldNumel <= allocatedSize m ->
  length (block m) = Z.to_nat (allocatedSize m) ->
  let m' := emxEnsureCapacity m oldNumel in
  numDimensions m' = 2 /\ size m' = [rows; cols] /\
  rows * cols <= allocatedSize m' < 2 ^ 31 /\
  allocatedSize m <= allocatedSize m' /\
  length (block m') = Z.to_nat (allocatedSize m') /\
  firstn (Z.to_nat oldNumel) (block m') = firstn (Z.to_nat oldNumel) (block m) /\
  (rows * cols <= allocatedSize m -> m' = m) /\
  (allocatedSize m < rows * cols -> 16 <= allocatedSize m').
Proof.
  intros Hdim Hsize Hnew Halloc Hold Hlen. cbv zeta. unfold emxEnsureCapacity.
  rewrite Hdim, Hsize. change (Z.to_nat 2) with 2%nat.
  cbn [seq fold_left nth].
  replace (1 * rows * cols) with (rows * cols) by ring.
  replace (oldNumel <? 0) with false by (symmetry; apply Z.ltb_ge; lia).
  destruct (allocatedSize m <? rows * cols) eqn:E.
  - apply Z.ltb_lt in E.
    set (i0 := if allocatedSize m <? 16 then 16 else allocatedSize m).
    assert (Hi0 : 16 <= i0 <= 2147483647 /\ allocatedSize m <= i0).
    { unfold i0. destruct (allocatedSize m <? 16) eqn:E16;
        [apply Z.ltb_lt in E16|apply Z.ltb_ge in E16]; lia. }
    destruct (grow_spec 32 i0 (rows * cols) ltac:(lia) ltac:(lia)) as (G1 & G2).
    { change (2 ^ Z.of_nat 32) with 4294967296. lia. }
    set (i1 := grow 32 i0 (rows * cols)) in *.
    cbn [numDimensions size allocatedSize].
    assert (Hb : length (block (mkMatrix2D
                   (Some match data m with
                         | Some old => copy_into (repeat double_zero (Z.to_nat i1)) 0 old
                                                 (Z.to_nat oldNumel)
                         | None => repeat double_zero (Z.to_nat i1)
                         end) [rows; cols] i1 2 true)) = Z.to_nat i1).
    { unfold block. cbn [data]. destruct (data m);
        rewrite ?copy_into_length, repeat_length; reflexivity. }
    split; [reflexivity|]. split; [reflexivity|]. split; [lia|]. split; [lia|].
    split; [exact Hb|]. split; [|split; lia].
    unfold block in *. cbn [data] in *. destruct (data m) as [old|].
    + rewrite copy_into_spec by (rewrite ?repeat_length; lia).
      cbn [firstn app Nat.add]. apply firstn_app_exact.
      rewrite length_firstn. lia.
    + cbn [length] in Hlen. replace (Z.to_nat oldNumel) with O by lia. reflexivity.
  - apply Z.ltb_ge in E. repeat split; try assumption; try lia.
Qed.

Lemma is_matrix_bounds (m : tMatrix2D) (rows cols : Z) :
  is_matrix m rows cols ->
  0 <= rows * cols <= allocatedSize m /\ 0 <= allocatedSize m < 2 ^ 31.
Proof. intros (_ & _ & Hr & Hc & Ha & _). nia. Qed.

(** An entry read through the first [k] doubles of the block. *)
Lemma nth_firstn_lt (l : list double) (k n : nat) :
  (k < n)%nat -> nth k (firstn n l) double_zero = nth k l double_zero.
Proof.
  revert k n. induction l as [|x l IH]; intros k n Hk.
  - rewrite firstn_nil. reflexivity.
  - destruct n as [|n]; [lia|]. destruct k as [|k]; [reflexivity|].
    cbn [firstn nth]. apply IH. lia.
Qed.

Lemma nth_same_prefix (a b : list double) (k n : nat) :
  firstn n a = firstn n b -> (k < n)%nat -> nth k a double_zero = nth k b double_zero.
Proof.
  intros H Hk. rewrite <- (nth_firstn_lt a k n Hk), <- (nth_firstn_lt b k n Hk), H.
  reflexivity.
Qed.

(** X17 — [Matrix2D_Set_Size] on a matrix of [r] by [c] entries, towards
    extents whose product fits an [int]: the matrix has the extents asked
    for, and its block has room for them; the block never shrinks, and is the
    same block when it had room already; its first [r * c] doubles are kept,
    so that with the number of rows unchanged every former entry reads as
    before.  A block that is replaced has room for sixteen doubles at
    least. *)
Theorem Set_Size_keeps_entries (m : tMatrix2D) (r c rows cols : Z) :
  is_matrix m r c ->
  0 <= rows -> 0 <= cols -> rows * cols < 2 ^ 31 ->
  let m' := Matrix2D_Set_Size m rows cols in
  is_matrix m' rows cols /\
  Matrix2D_Size m' 1 = rows /\ Matrix2D_Size m' 2 = cols /\ Matrix2D_Size m' 3 = 0 /\
  allocatedSize m <= allocatedSize m' /\
  (rows * cols <= allocatedSize m -> data m' = data m) /\
  (allocatedSize m < rows * cols -> 16 <= allocatedSize m') /\
  firstn (Z.to_nat (r * c)) (block m') = firstn (Z.to_nat (r * c)) (block m) /\
  (rows = r ->
   forall i j, 0 <= i < r -> 0 <= j < c ->
               Matrix2D_Get_ij m' i j = Matrix2D_Get_ij m i j).
Proof.
  intros Hm Hrows Hcols Hfit.
  pose proof (is_matrix_bounds m r c Hm) as (Hrc & Halloc).
  destruct Hm as (Hdim & Hsize & Hr & Hc & Ha & Hlen).
  cbv zeta. unfold Matrix2D_Set_Size. rewrite Hsize.
  cbn [nth set_size size size_put].
  set (m1 := set_size [rows; cols] (set_size [rows; c] m)).
  destruct (emxEnsureCapacity_spec m1 rows cols (r * c) Hdim eq_refl ltac:(nia)
              Halloc Hrc Hlen) as (E1 & E2 & E3 & E4 & E5 & E6 & E7 & E8).
  change (allocatedSize m1) with (allocatedSize m) in *.
  change (block m1) with (block m) in *.
  set (m' := emxEnsureCapacity m1 (r * c)) in *.
  split; [repeat split; try assumption; lia|].
  unfold Matrix2D_Size. rewrite E1, E2.
  split; [reflexivity|]. split; [reflexivity|]. split; [reflexivity|].
  split; [exact E4|]. split; [intros H; rewrite (E7 H); reflexivity|].
  split; [exact E8|]. split; [exact E6|].
  intros -> i j Hi Hj. unfold Matrix2D_Get_ij. rewrite E2, Hsize. cbn [nth].
  apply (nth_same_prefix _ _ _ _ E6). nia.
Qed.

(** Room for three rows is made in the matrix [Matrix2D_Create] gives. *)
Lemma Set_Size_keeps_entries_witness :
  is_matrix (Matrix2D_Set_Size Matrix2D_Create 3 4) 3 4.
Proof.
  refine (proj1 (Set_Size_keeps_entries Matrix2D_Create 0 0 3 4 _ _ _ _)); try lia.
  unfold is_matrix, Matrix2D_Create, emxInit_real_T, block. cbn.
  repeat split; lia.
Defined.

Lemma copy_into_nth_old (dst src : list double) (from n k : nat) :
  (n <= length src)%nat -> (from + n <= length dst)%nat -> (k < from)%nat ->
  nth k (copy_into dst from src n) double_zero = nth k dst double_zero.
Proof.
  intros Hs Hd Hk. rewrite copy_into_spec by assumption.
  rewrite app_nth1 by (rewrite length_firstn; lia).
  apply nth_firstn_lt. exact Hk.
Qed.

Lemma copy_into_nth_new (dst src : list double) (from n i : nat) :
  (n <= length src)%nat -> (from + n <= length dst)%nat -> (i < n)%nat ->
  nth (from + i) (copy_into dst from src n) double_zero = nth i src double_zero.
Proof.
  intros Hs Hd Hi. rewrite copy_into_spec by assumption.
  rewrite app_nth2 by (rewrite length_firstn; lia).
  rewrite length_firstn.
  replace (from + i - Nat.min from (length dst))%nat with i by lia.
  rewrite app_nth1 by (rewrite length_firstn; lia).
  apply nth_firstn_lt. exact Hi.
Qed.

(** What both [Matrix2D_Add] do after the new number of columns is set:
    room is made and [n] doubles are copied behind the old entries. *)
Lemma append_spec (m : tMatrix2D) (r c c' : Z) (src : list double) (n : nat) :
  is_matrix m r c -> 0 <= c' -> r * (c + c') < 2 ^ 31 ->
  (n <= length src)%nat -> (Z.of_nat n <= r * c')%Z ->
  let grown := emxEnsureCapacity (set_size (size_put (size m) 1 (c + c')) m) (r * c) in
  let m' := set_data (option_map (fun d => copy_into d (Z.to_nat (r * c)) src n)
                                 (data grown)) grown in
  is_matrix m' r (c + c') /\
  allocatedSize m <= allocatedSize m' /\
  (forall i j, 0 <= i < r -> 0 <= j < c ->
               Matrix2D_Get_ij m' i j = Matrix2D_Get_ij m i j) /\
  (forall k, (k < n)%nat ->
             nth (Z.to_nat (r * c) + k) (block m') double_zero = nth k src double_zero).
Proof.
  intros Hm Hc' Hfit Hsrc Hn.
  pose proof (is_matrix_bounds m r c Hm) as (Hrc & Halloc).
  destruct Hm as (Hdim & Hsize & Hr & Hc & Ha & Hlen).
  cbv zeta. rewrite Hsize. cbn [size_put].
  set (m1 := set_size [r; c + c'] m).
  destruct (emxEnsureCapacity_spec m1 r (c + c') (r * c) Hdim eq_refl ltac:(nia)
              Halloc Hrc Hlen) as (E1 & E2 & E3 & E4 & E5 & E6 & _ & _).
  change (allocatedSize m1) with (allocatedSize m) in *.
  change (block m1) with (block m) in *.
  set (m2 := emxEnsureCapacity m1 (r * c)) in *.
  assert (Hb : block (set_data (option_map (fun d => copy_into d (Z.to_nat (r * c)) src n)
                                           (data m2)) m2)
               = copy_into (block m2) (Z.to_nat (r * c)) src n).
  { apply (block_set_data (fun d => copy_into d (Z.to_nat (r * c)) src n)).
    apply copy_into_nil. }
  assert (Hroom : (Z.to_nat (r * c) + n <= length (block m2))%nat) by (rewrite E5; nia).
  split; [|split; [|split]].
  - unfold is_matrix. rewrite Hb, copy_into_length. cbn [set_data numDimensions size
      allocatedSize]. repeat split; try assumption; lia.
  - exact E4.
  - intros i j Hi Hj. unfold Matrix2D_Get_ij. rewrite Hb.
    cbn [set_data size]. rewrite E2, Hsize. cbn [nth].
    rewrite copy_into_nth_old by (try assumption; nia).
    apply (nth_same_prefix _ _ _ _ E6). nia.
  - intros k Hk. rewrite Hb. apply copy_into_nth_new; assumption.
Qed.

(** X18 — [Matrix2D_Add(var, array, numel)] on a matrix of [r] by [c]
    entries gives a matrix of [r] by [c + 1] entries: every former entry
    reads as before, and the new column holds the first [min(numel, r)]
    doubles of [array] in its first rows. *)
Theorem Matrix2D_Add_column (m : tMatrix2D) (r c : Z) (array : list double) (numel : Z) :
  is_matrix m r c ->
  r * (c + 1) < 2 ^ 31 ->
  (Z.to_nat (Z.min numel r) <= length array)%nat ->
  let m' := Matrix2D_Add m array numel in
  is_matrix m' r (c + 1) /\
  Matrix2D_Get_ncols m' = Matrix2D_Get_ncols m + 1 /\
  Matrix2D_Get_nrows m' = Matrix2D_Get_nrows m /\
  (forall i j, 0 <= i < r -> 0 <= j < c ->
               Matrix2D_Get_ij m' i j = Matrix2D_Get_ij m i j) /\
  (forall i, 0 <= i < Z.min numel r ->
             Matrix2D_Get_ij m' i c = nth (Z.to_nat i) array double_zero).
Proof.
  intros Hm Hfit Harr.
  pose proof Hm as (Hdim & Hsize & Hr & Hc & _).
  destruct (append_spec m r c 1 array (Z.to_nat (Z.min numel r)) Hm ltac:(lia) Hfit Harr
              ltac:(lia)) as (A1 & _ & A3 & A4).
  cbv zeta in *. unfold Matrix2D_Add.
  rewrite Hsize in *. cbn [nth] in *.
  set (m' := set_data _ _) in *.
  split; [exact A1|].
  destruct A1 as (D1 & D2 & _).
  unfold Matrix2D_Get_ncols, Matrix2D_Get_nrows, Matrix2D_Size.
  rewrite D1, D2, Hdim, Hsize.
  split; [reflexivity|]. split; [reflexivity|]. split; [exact A3|].
  intros i Hi. unfold Matrix2D_Get_ij. rewrite D2. cbn [nth].
  replace (Z.to_nat (r * c + i)) with (Z.to_nat (r * c) + Z.to_nat i)%nat by nia.
  apply A4. lia.
Qed.

(** The first column put into [three_rows]. *)
Lemma Matrix2D_Add_column_witness :
  is_matrix (Matrix2D_Add three_rows a_column 3) 3 1.
Proof.
  refine (proj1 (Matrix2D_Add_column three_rows 3 0 a_column 3 _ _ _)).
  - vm_compute. repeat split; try reflexivity; discriminate.
  - lia.
  - cbn. lia.
Defined.

(** X19 — [Matrix2D_Add(var, varadd)] leaves [var] as it is when the two
    matrices differ in their number of rows.  Otherwise it gives a matrix
    with the columns of [var] followed by those of [varadd]: every entry of
    [var] reads as before, and the entry [(i, j)] of [varadd] is read at
    [(i, c + j)]. *)
Theorem Matrix2D_Add_columns (m a : tMatrix2D) (r c r2 c2 : Z) :
  is_matrix m r c -> is_matrix a r2 c2 ->
  (r <> r2 -> Matrix2D_Add_mat m a = m) /\
  (r = r2 -> r * (c + c2) < 2 ^ 31 ->
   let m' := Matrix2D_Add_mat m a in
   is_matrix m' r (c + c2) /\
   (forall i j, 0 <= i < r -> 0 <= j < c ->
                Matrix2D_Get_ij m' i j = Matrix2D_Get_ij m i j) /\
   (forall i j, 0 <= i < r -> 0 <= j < c2 ->
                Matrix2D_Get_ij m' i (c + j) = Matrix2D_Get_ij a i j)).
Proof.
  intros Hm Ha.
  pose proof Hm as (Hdim & Hsize & Hr & Hc & _).
  pose proof (is_matrix_bounds a r2 c2 Ha) as (Hrc2 & Halloc2).
  pose proof Ha as (_ & Hsize2 & Hr2 & Hc2 & _ & Hlen2).
  unfold Matrix2D_Add_mat. rewrite Hsize, Hsize2. cbn [nth].
  split.
  - intros Hne. replace (r =? r2) with false by (symmetry; apply Z.eqb_neq; exact Hne).
    reflexivity.
  - intros <- Hfit. rewrite Z.eqb_refl. cbn [negb]. cbv zeta.
    destruct (append_spec m r c c2 (block a) (Z.to_nat (r * c2)) Hm Hc2 Hfit
                ltac:(lia) ltac:(lia)) as (A1 & _ & A3 & A4).
    cbv zeta in *. rewrite Hsize in *.
    set (m' := set_data _ _) in *.
    split; [exact A1|]. split; [exact A3|].
    destruct A1 as (_ & D2 & _).
    intros i j Hi Hj. unfold Matrix2D_Get_ij. rewrite D2, Hsize2. cbn [nth].
    replace (Z.to_nat (r * (c + j) + i))
      with (Z.to_nat (r * c) + Z.to_nat (r * j + i))%nat by nia.
    apply A4. nia.
Qed.

(** [three_by_two] appended to itself has four columns. *)
Lemma Matrix2D_Add_columns_witness :
  is_matrix (Matrix2D_Add_mat three_by_two three_by_two) 3 4.
Proof.
  assert (H : is_matrix three_by_two 3 2)
    by (vm_compute; repeat split; try reflexivity; discriminate).
  refine (proj1 (proj2 (Matrix2D_Add_columns three_by_two three_by_two 3 2 3 2 H H)
                       eq_refl _)).
  lia.
Defined.

Lemma store_length (l : list double) (k : nat) (v : double) :
  length (store l k v) = length l.
Proof.
  revert k. induction l as [|x l IH]; intros k; [reflexivity|].
  destruct k; cbn [store length]; [reflexivity|]. rewrite IH. reflexivity.
Qed.

Lemma store_nth (l : list double) (k k' : nat) (v : double) :
  (k < length l)%nat ->
  nth k' (store l k v) double_zero = if Nat.eqb k k' then v else nth k' l double_zero.
Proof.
  revert k k'. induction l as [|x l IH]; intros k k' Hk; [cbn in Hk; lia|].
  destruct k as [|k]; destruct k' as [|k']; cbn [store nth Nat.eqb]; try reflexivity.
  apply IH. cbn in Hk. lia.
Qed.

(** X20 — [Matrix2D_SET_ij] followed by [Matrix2D_Get_ij] on a matrix of
    [r] by [c] entries, indices within the extents: the entry written reads
    back as the value, every other entry reads as before (two entries never
    share a double of the block), and the extents and the room of the block
    are as before. *)
Theorem SET_ij_then_Get_ij (m : tMatrix2D) (r c i j i' j' : Z) (value : double) :
  is_matrix m r c ->
  0 <= i < r -> 0 <= j < c -> 0 <= i' < r -> 0 <= j' < c ->
  is_matrix (Matrix2D_SET_ij m i j value) r c /\
  Matrix2D_Get_ij (Matrix2D_SET_ij m i j value) i' j' =
    if (i =? i') && (j =? j') then value else Matrix2D_Get_ij m i' j'.
Proof.
  intros Hm Hi Hj Hi' Hj'.
  pose proof (is_matrix_bounds m r c Hm) as (Hrc & Halloc).
  destruct Hm as (Hdim & Hsize & Hr & Hc & Ha & Hlen).
  assert (Hb : block (Matrix2D_SET_ij m i j value)
               = store (block m) (Z.to_nat (r * j + i)) value).
  { unfold Matrix2D_SET_ij. rewrite Hsize. cbn [nth].
    apply (block_set_data (fun d => store d (Z.to_nat (r * j + i)) value)). reflexivity. }
  split.
  - unfold is_matrix. rewrite Hb, store_length.
    unfold Matrix2D_SET_ij. cbn [set_data numDimensions size allocatedSize].
    repeat split; try assumption; lia.
  - unfold Matrix2D_Get_ij. rewrite Hb.
    unfold Matrix2D_SET_ij. cbn [set_data size]. rewrite Hsize. cbn [nth].
    rewrite store_nth by (rewrite Hlen; nia).
    destruct (Nat.eqb_spec (Z.to_nat (r * j + i)) (Z.to_nat (r * j' + i'))) as [E|E].
    + assert (Hj0 : j = j') by nia. subst j'. assert (Hi0 : i = i') by nia. subst i'.
      rewrite !Z.eqb_refl. reflexivity.
    + destruct (Z.eqb_spec i i') as [->|Ni]; [|reflexivity].
      destruct (Z.eqb_spec j j') as [->|Nj]; [|reflexivity].
      exfalso. apply E. reflexivity.
Qed.

(** Writing the entry (2, 1) of [three_by_two] leaves the entry (2, 0). *)
Lemma SET_ij_then_Get_ij_witness :
  Matrix2D_Get_ij (Matrix2D_SET_ij three_by_two 2 1 99) 2 0 = 13.
Proof.
  refine (proj2 (SET_ij_then_Get_ij three_by_two 3 2 2 1 2 0 99 _ _ _ _ _)); try lia.
  vm_compute. repeat split; try reflexivity; discriminate.
Defined.

(* ------------------------------------------------------------------ *)
(** ** 2D matrices on the wire                                         *)
(* ------------------------------------------------------------------ *)

Lemma Set_Size_is_matrix (m : tMatrix2D) (r c rows cols : Z) :
  is_matrix m r c -> 0 <= rows -> 0 <= cols -> rows * cols < 2 ^ 31 ->
  is_matrix (Matrix2D_Set_Size m rows cols) rows cols.
Proof.
  intros Hm Hrows Hcols Hfit.
  pose proof (is_matrix_bounds m r c Hm) as (Hrc & Halloc).
  destruct Hm as (Hdim & Hsize & Hr & Hc & Ha & Hlen).
  unfold Matrix2D_Set_Size. rewrite Hsize. cbn [nth set_size size size_put].
  destruct (emxEnsureCapacity_spec (set_size [rows; cols] (set_size [rows; c] m))
              rows cols (r * c) Hdim eq_refl ltac:(nia) Halloc Hrc Hlen)
    as (E1 & E2 & E3 & _ & E5 & _).
  repeat split; try assumption; lia.
Qed.

Lemma Create_is_matrix : is_matrix Matrix2D_Create 0 0.
Proof. vm_compute. repeat split; try reflexivity; discriminate. Qed.

Lemma firstn_plus (a b : nat) (l : list double) :
  firstn (a + b) l = firstn a l ++ firstn b (skipn a l).
Proof.
  revert l. induction a as [|a IH]; intros l; [reflexivity|].
  destruct l as [|x l]; [cbn; rewrite firstn_nil; reflexivity|].
  cbn [Nat.add firstn skipn app]. rewrite IH. reflexivity.
Qed.

(** The doubles of a block read column after column, [R] to the column,
    are the doubles of the block in their order. *)
Lemma column_after_column (l : list double) (R k : nat) :
  (R * k <= length l)%nat ->
  flat_map (fun j => map (fun i => nth (R * j + i) l double_zero) (seq 0 R)) (seq 0 k)
  = firstn (R * k) l.
Proof.
  induction k as [|k IH]; intros Hk.
  - rewrite Nat.mul_0_r. reflexivity.
  - rewrite seq_S, flat_map_app, IH by lia. cbn [flat_map Nat.add]. rewrite app_nil_r.
    replace (R * S k)%nat with (R * k + R)%nat by lia.
    rewrite firstn_plus. apply f_equal.
    rewrite <- (map_nth_seq (skipn (R * k) l) R)
      by (rewrite length_skipn; lia).
    apply map_ext. intros i. rewrite nth_skipn. reflexivity.
Qed.

Lemma entries_column_major (m : tMatrix2D) (r c : Z) :
  is_matrix m r c ->
  flat_map (fun j => map (fun i => Matrix2D_Get_ij m (Z.of_nat i) (Z.of_nat j))
                         (seq 0 (Z.to_nat r)))
           (seq 0 (Z.to_nat c))
  = entries m.
Proof.
  intros Hm. pose proof (is_matrix_bounds m r c Hm) as (Hrc & Halloc).
  destruct Hm as (Hdim & Hsize & Hr & Hc & Ha & Hlen).
  unfold entries, Matrix2D_Get_ij. rewrite Hsize. cbn [nth].
  replace (Z.to_nat (r * c)) with (Z.to_nat r * Z.to_nat c)%nat by nia.
  rewrite <- column_after_column by (rewrite Hlen; nia).
  apply flat_map_ext. intros j. apply map_ext. intros i.
  apply (f_equal (fun k => nth k (block m) double_zero)). nia.
Qed.

Lemma Get_ij_entries (m : tMatrix2D) (r c i j : Z) :
  is_matrix m r c -> 0 <= i < r -> 0 <= j < c ->
  Matrix2D_Get_ij m i j = nth (Z.to_nat (r * j + i)) (entries m) double_zero.
Proof.
  intros (Hdim & Hsize & Hr & Hc & Ha & Hlen) Hi Hj.
  unfold entries, Matrix2D_Get_ij. rewrite Hsize. cbn [nth].
  symmetry. apply nth_firstn_lt. nia.
Qed.

Lemma entries_length (m : tMatrix2D) (r c : Z) :
  is_matrix m r c -> length (entries m) = Z.to_nat (r * c).
Proof.
  intros Hm. pose proof (is_matrix_bounds m r c Hm) as (Hrc & Halloc).
  destruct Hm as (Hdim & Hsize & Hr & Hc & Ha & Hlen).
  unfold entries. rewrite Hsize. cbn [nth]. rewrite length_firstn, Hlen. lia.
Qed.

Lemma Matrix2D_Size_extents (m : tMatrix2D) (r c : Z) :
  is_matrix m r c -> Matrix2D_Size m 1 = r /\ Matrix2D_Size m 2 = c.
Proof.
  intros (Hdim & Hsize & _). unfold Matrix2D_Size. rewrite Hdim, Hsize.
  split; reflexivity.
Qed.

(** Two nested loops as one loop over the pairs. *)
Lemma fold_left_nested (A I J : Type) (F : A -> I -> J -> A) (li : list I) (lj : list J) :
  forall a : A,
    fold_left (fun a j => fold_left (fun a i => F a i j) li a) lj a =
    fold_left (fun a (p : I * J) => F a (fst p) (snd p))
              (flat_map (fun j => map (fun i => (i, j)) li) lj) a.
Proof.
  induction lj as [|j lj IH]; intros a; [reflexivity|].
  cbn [fold_left flat_map]. rewrite fold_left_app, <- IH.
  apply (f_equal (fold_left _ lj)).
  clear. revert a. induction li as [|i li IH]; intros a; [reflexivity|].
  cbn [fold_left map fst snd]. apply IH.
Qed.

Lemma map_pairs (I J B : Type) (h : I * J -> B) (li : list I) (lj : list J) :
  map h (flat_map (fun j => map (fun i => (i, j)) li) lj)
  = flat_map (fun j => map (fun i => h (i, j)) li) lj.
Proof.
  induction lj as [|j lj IH]; [reflexivity|].
  cbn [flat_map]. rewrite map_app, map_map, IH. reflexivity.
Qed.

(** What [_send_Matrix2D] writes for a matrix: the two extents, then the
    entries. *)
Lemma _send_Matrix2D_runs (m : tMatrix2D) (r c : Z) (s : RoboDK) :
  is_matrix m r c -> _connected s = true ->
  fst (_send_Matrix2D m s) = true /\
  runs s (snd (_send_Matrix2D m s))
       (Written (be_encode 4 r) :: Written (be_encode 4 c)
        :: map (fun v => Written (be_encode 8 v)) (entries m)).
Proof.
  intros Hm Hs. destruct (connected_socket s Hs) as (c0 & Hc & Hopen).
  pose proof (entries_column_major m r c Hm) as Hent.
  destruct (Matrix2D_Size_extents m r c Hm) as (Hrows & Hcols).
  unfold _send_Matrix2D. rewrite Hc. unfold isOpen. rewrite Hopen. cbn [negb].
  rewrite Hrows, Hcols. cbv zeta.
  unfold _send_Int. rewrite Hc. unfold isOpen. rewrite Hopen. cbn [negb].
  rewrite _COM_set_COM. rewrite (stream_put_did 4 r c0 Hopen).
  change (connected (did [Written (be_encode 4 r)] c0)) with (connected c0).
  rewrite Hopen. cbn [negb orb]. rewrite _COM_set_COM, !set_COM_set_COM.
  rewrite (stream_put_did 4 c (did [Written (be_encode 4 r)] c0) Hopen).
  replace (did [Written (be_encode 4 c)] (did [Written (be_encode 4 r)] c0))
    with (did [Written (be_encode 4 r); Written (be_encode 4 c)] c0)
    by (unfold did; cbn; rewrite <- app_assoc; reflexivity).
  rewrite (fold_left_nested QTcpSocket nat nat
             (fun c i j => stream_put 8 (Matrix2D_Get_ij m (Z.of_nat i) (Z.of_nat j)) c)).
  rewrite (stream_put_loop (nat * nat)
             (fun p => Matrix2D_Get_ij m (Z.of_nat (fst p)) (Z.of_nat (snd p)))
             _ [Written (be_encode 4 r); Written (be_encode 4 c)] c0 Hopen).
  cbn [fst snd]. split; [reflexivity|].
  rewrite <- (map_map (fun p : nat * nat =>
                         Matrix2D_Get_ij m (Z.of_nat (fst p)) (Z.of_nat (snd p)))
                      (fun v => Written (be_encode 8 v))).
  rewrite map_pairs. cbn [fst snd]. rewrite Hent.
  exact (runs_did s c0 _ Hc Hopen).
Qed.

Lemma front_firstn (bs rest : list byte) : firstn (length bs) (bs ++ rest) = bs.
Proof.
  rewrite firstn_app, Nat.sub_diag, firstn_all. cbn [firstn]. apply app_nil_r.
Qed.

Lemma front_skipn (bs rest : list byte) : skipn (length bs) (bs ++ rest) = rest.
Proof. rewrite skipn_app, Nat.sub_diag, skipn_all. reflexivity. Qed.

Lemma doubles_of_flat (vs : list double) :
  forall fuel : nat,
    (length vs <= fuel)%nat -> Forall is_double vs ->
    doubles_of fuel (flat_map (be_encode 8) vs) = vs.
Proof.
  induction vs as [|v vs IH]; intros fuel Hfuel Hall.
  - destruct fuel; reflexivity.
  - destruct fuel as [|k]; [cbn in Hfuel; lia|].
    inversion Hall as [|? ? Hv Hvs]; subst.
    cbn [flat_map].
    pose proof (front_firstn (be_encode 8 v) (flat_map (be_encode 8) vs)) as Hf.
    pose proof (front_skipn (be_encode 8 v) (flat_map (be_encode 8) vs)) as Hk.
    rewrite be_encode_length in Hf, Hk.
    assert (Hne : be_encode 8 v ++ flat_map (be_encode 8) vs <> []).
    { intros E. apply (f_equal (@length byte)) in E.
      rewrite length_app, be_encode_length in E. cbn in E. lia. }
    destruct (be_encode 8 v ++ flat_map (be_encode 8) vs) as [|b bs] eqn:Eb;
      [contradiction|].
    cbn [doubles_of]. rewrite Hf, Hk, be_encode_length, Nat.eqb_refl.
    rewrite be_decode_encode.
    rewrite IH by (try assumption; cbn in Hfuel; lia).
    apply (f_equal (fun x => x :: vs)). apply Z.mod_small. exact Hv.
Qed.

(** The loop of [_recv_Matrix2D] with all the entries in the buffer: one
    turn takes them, the next one returns. *)
Lemma recv_Matrix2D_loop_all (k : nat) (numel : Z) (mat : tMatrix2D) (timeout : Z)
      (c : QTcpSocket) (vs : list double) (rest : list byte) :
  0 < numel -> Z.of_nat (length vs) = numel -> Forall is_double vs ->
  buffered c = flat_map (be_encode 8) vs ++ rest ->
  recv_Matrix2D_loop (S (S k)) numel 0 mat timeout c =
  (true,
   Some (set_data (option_map (fun d => copy_into d 0 vs (length vs)) (data mat)) mat),
   took (flat_map (be_encode 8) vs) rest c).
Proof.
  intros Hpos Hlen Hall Hb.
  cbn [recv_Matrix2D_loop]. rewrite Z.sub_0_r.
  replace (numel <=? 0) with false by (symmetry; apply Z.leb_gt; exact Hpos).
  replace (bytesAvailable c <=? 0) with false.
  2:{ symmetry. apply Z.leb_gt. unfold bytesAvailable.
      rewrite Hb, length_app, length_flat_be8. lia. }
  cbn [negb].
  replace (Z.to_nat (numel * 8)) with (length (flat_map (be_encode 8) vs))
    by (rewrite length_flat_be8; lia).
  rewrite (read_front _ rest c Hb).
  rewrite doubles_of_flat by (rewrite ?length_flat_be8; try assumption; lia).
  cbn [Z.to_nat Z.add]. rewrite Hlen, Z.sub_diag. reflexivity.
Qed.

(** What [_recv_Matrix2D] does with a buffer that starts with two extents
    and the entries for them. *)
Lemma _recv_Matrix2D_front (rcv : RoboDK) (d : QTcpSocket) (r c : Z) (vs : list double)
      (rest : list byte) :
  _COM rcv = Some d ->
  buffered d = be_encode 4 r ++ be_encode 4 c ++ flat_map (be_encode 8) vs ++ rest ->
  0 <= r < 2 ^ 31 -> 0 <= c < 2 ^ 31 -> r * c < 2 ^ 31 ->
  Z.of_nat (length vs) = r * c -> Forall is_double vs ->
  exists m' d',
    _recv_Matrix2D rcv = (true, Some m', set_COM (Some d') rcv) /\
    buffered d' = rest /\ is_matrix m' r c /\ entries m' = vs.
Proof.
  intros Hd Hb Hr Hc Hfit Hlen Hall.
  pose proof (Set_Size_is_matrix Matrix2D_Create 0 0 r c Create_is_matrix
                ltac:(lia) ltac:(lia) Hfit) as Hm0.
  unfold _recv_Matrix2D.
  rewrite (_recv_Int_front rcv d r _ Hd Hb).
  rewrite (_recv_Int_front
             (set_COM (Some (took (be_encode 4 r)
                                  (be_encode 4 c ++ flat_map (be_encode 8) vs ++ rest) d))
                      rcv)
             (took (be_encode 4 r) (be_encode 4 c ++ flat_map (be_encode 8) vs ++ rest) d)
             c (flat_map (be_encode 8) vs ++ rest) (_COM_set_COM _ _) eq_refl).
  rewrite !to_signed_wrap by lia. rewrite set_COM_set_COM.
  replace (r <? 0) with false by (symmetry; apply Z.ltb_ge; lia).
  replace (c <? 0) with false by (symmetry; apply Z.ltb_ge; lia).
  cbn [orb].
  set (d2 := took (be_encode 4 c) (flat_map (be_encode 8) vs ++ rest) _).
  destruct (r * c <=? 0) eqn:E.
  - apply Z.leb_le in E. assert (Hz : r * c = 0) by nia.
    assert (vs = []) by (destruct vs; [reflexivity|cbn in Hlen; lia]). subst vs.
    exists (Matrix2D_Set_Size Matrix2D_Create r c), d2.
    split; [reflexivity|]. split; [reflexivity|]. split; [exact Hm0|].
    unfold entries. destruct Hm0 as (_ & Hsize & _). rewrite Hsize. cbn [nth].
    rewrite Hz. reflexivity.
  - apply Z.leb_gt in E. rewrite _COM_set_COM.
    destruct (Z.to_nat (r * c)) as [|n] eqn:En; [lia|].
    cbn [Nat.add].
    rewrite (recv_Matrix2D_loop_all _ (r * c) _ _ d2 vs rest E Hlen Hall eq_refl).
    eexists. eexists. split; [reflexivity|]. split; [reflexivity|].
    set (m0 := Matrix2D_Set_Size Matrix2D_Create r c) in *.
    pose proof (is_matrix_bounds m0 r c Hm0) as (Hrc & Halloc).
    destruct Hm0 as (Hdim & Hsize & H0r & H0c & Ha & Hlen0).
    assert (Hblk : block (set_data (option_map (fun d => copy_into d 0 vs (length vs))
                                               (data m0)) m0)
                   = vs ++ skipn (length vs) (block m0)).
    { rewrite (block_set_data (fun d => copy_into d 0 vs (length vs)))
        by apply copy_into_nil.
      rewrite copy_into_spec by lia. rewrite firstn_all. reflexivity. }
    split.
    + unfold is_matrix. rewrite Hblk. cbn [set_data numDimensions size allocatedSize].
      rewrite length_app, length_skipn.
      repeat split; try assumption; lia.
    + unfold entries. rewrite Hblk. cbn [set_data size]. rewrite Hsize. cbn [nth].
      apply firstn_app_exact. lia.
Qed.

Lemma flat_map_flat_map (g : nat -> list double) (js : list nat) :
  flat_map (be_encode 8) (flat_map g js) = flat_map (fun j => flat_map (be_encode 8) (g j)) js.
Proof.
  induction js as [|j js IH]; [reflexivity|].
  change (flat_map g (j :: js)) with (g j ++ flat_map g js).
  rewrite flat_map_app.
  apply (f_equal (fun l => flat_map (be_encode 8) (g j) ++ l)). exact IH.
Qed.

(** X21 — a matrix of [r] by [c] doubles written by [_send_Matrix2D] on a
    connected client goes out as the two extents, four bytes each, and the
    entries, eight bytes each, column after column; [_recv_Matrix2D] on a
    buffer that starts with these bytes returns [true], takes exactly them,
    and delivers a matrix of [r] by [c] entries that read as those of the
    matrix sent. *)
Theorem Matrix2D_roundtrip (m : tMatrix2D) (r c : Z) (s rcv : RoboDK) (d : QTcpSocket)
        (rest : list byte) :
  is_matrix m r c -> r < 2 ^ 31 -> c < 2 ^ 31 ->
  Forall is_double (entries m) ->
  _connected s = true ->
  _COM rcv = Some d ->
  buffered d = emitted s (snd (_send_Matrix2D m s)) ++ rest ->
  fst (_send_Matrix2D m s) = true /\
  emitted s (snd (_send_Matrix2D m s)) =
    be_encode 4 r ++ be_encode 4 c
    ++ flat_map (fun j => flat_map (fun i =>
                   be_encode 8 (Matrix2D_Get_ij m (Z.of_nat i) (Z.of_nat j)))
                   (seq 0 (Z.to_nat r)))
                (seq 0 (Z.to_nat c)) /\
  exists m',
    fst (_recv_Matrix2D rcv) = (true, Some m') /\
    pending (snd (_recv_Matrix2D rcv)) = rest /\
    is_matrix m' r c /\
    forall i j, 0 <= i < r -> 0 <= j < c ->
                Matrix2D_Get_ij m' i j = Matrix2D_Get_ij m i j.
Proof.
  intros Hm Hr Hc Hall Hs Hd Hb.
  destruct (_send_Matrix2D_runs m r c s Hm Hs) as (Hok & Hrun).
  pose proof (is_matrix_bounds m r c Hm) as (Hrc & Halloc).
  assert (Hem : emitted s (snd (_send_Matrix2D m s))
                = be_encode 4 r ++ be_encode 4 c ++ flat_map (be_encode 8) (entries m)).
  { rewrite (emitted_runs _ _ _ Hrun).
    change (sent (Written (be_encode 4 r) :: Written (be_encode 4 c) :: ?l))
      with (be_encode 4 r ++ be_encode 4 c ++ sent l).
    rewrite (sent_map_Written double (be_encode 8)). reflexivity. }
  split; [exact Hok|]. split.
  - rewrite Hem. apply f_equal. apply f_equal.
    rewrite <- (entries_column_major m r c Hm).
    rewrite flat_map_flat_map. apply flat_map_ext. intros j.
    apply flat_map_after_map.
  - rewrite Hem, <- !app_assoc in Hb.
    pose proof Hm as (_ & _ & H0r & H0c & _).
    destruct (_recv_Matrix2D_front rcv d r c (entries m) rest Hd Hb ltac:(lia) ltac:(lia)
                ltac:(lia)) as (m' & d' & Hrecv & Hrest & Hm' & Hent); [|exact Hall|].
    { rewrite (entries_length m r c Hm). lia. }
    exists m'. rewrite Hrecv. cbn [fst snd].
    split; [reflexivity|]. split; [unfold pending; rewrite _COM_set_COM; exact Hrest|].
    split; [exact Hm'|].
    intros i j Hi Hj.
    rewrite (Get_ij_entries m' r c i j Hm' Hi Hj), (Get_ij_entries m r c i j Hm Hi Hj), Hent.
    reflexivity.
Qed.

Lemma entries_three_by_two : entries three_by_two = [11; 12; 13; 21; 22; 23].
Proof. vm_compute. reflexivity. Qed.

Lemma is_double_three_by_two : Forall is_double (entries three_by_two).
Proof.
  rewrite entries_three_by_two.
  repeat (apply Forall_cons; [unfold is_double; lia|]). apply Forall_nil.
Qed.

(** [three_by_two] sent on [idle]. *)
Lemma Matrix2D_roundtrip_witness :
  exists m',
    fst (_recv_Matrix2D (holding (emitted idle (snd (_send_Matrix2D three_by_two idle)))))
    = (true, Some m') /\
    Matrix2D_Get_ij m' 2 1 = 23.
Proof.
  destruct (Matrix2D_roundtrip three_by_two 3 2 idle
              (holding (emitted idle (snd (_send_Matrix2D three_by_two idle))))
              (socket_holding (emitted idle (snd (_send_Matrix2D three_by_two idle))) [])
              [])
    as (_ & _ & m' & H1 & _ & _ & H4).
  - vm_compute. repeat split; try reflexivity; discriminate.
  - lia.
  - lia.
  - exact is_double_three_by_two.
  - reflexivity.
  - reflexivity.
  - cbn [socket_holding buffered]. rewrite app_nil_r. reflexivity.
  - exists m'. split; [exact H1|]. rewrite H4 by lia. reflexivity.
Defined.

Lemma doubles_of_nonempty (buffer : list byte) :
  buffer <> [] -> (1 <= length (doubles_of (length buffer) buffer))%nat.
Proof.
  destruct buffer as [|b bs]; [contradiction|]. intros _.
  cbn [length doubles_of]. lia.
Qed.

Lemma recv_Matrix2D_loop_turn (k : nat) (numel count : Z) (mat : tMatrix2D)
      (timeout : Z) (c : QTcpSocket) :
  recv_Matrix2D_loop (S k) numel count mat timeout c =
  if numel - count <=? 0 then (true, Some mat, c)
  else
    let (ready, c) :=
      if bytesAvailable c <=? 0 then waitForReadyRead timeout c else (true, c) in
    if negb ready then (false, None, c)
    else
      let (buffer, c) := read (Z.to_nat ((numel - count) * 8)) c in
      let values := doubles_of (length buffer) buffer in
      let mat :=
        set_data (option_map (fun d => copy_into d (Z.to_nat count) values
                                                 (length values))
                             (data mat)) mat in
      recv_Matrix2D_loop k numel (count + Z.of_nat (length values)) mat timeout c.
Proof. reflexivity. Qed.

(** The fuel of the loop of [_recv_Matrix2D] is never used up: with more
    fuel the loop does the same. *)
Lemma recv_Matrix2D_loop_fuel (k : nat) :
  forall (numel count : Z) (mat : tMatrix2D) (timeout : Z) (c : QTcpSocket),
    (Z.to_nat (numel - count) + length (peer c) < k)%nat ->
    recv_Matrix2D_loop (S k) numel count mat timeout c =
    recv_Matrix2D_loop k numel count mat timeout c.
Proof.
  induction k as [|k IH]; intros numel count mat timeout c Hk; [lia|].
  rewrite (recv_Matrix2D_loop_turn (S k)), (recv_Matrix2D_loop_turn k).
  destruct (numel - count <=? 0) eqn:Erem; [reflexivity|]. apply Z.leb_gt in Erem.
  destruct (bytesAvailable c <=? 0) eqn:Eav.
  - unfold waitForReadyRead.
    destruct (peer c) as [|[bs|] later] eqn:Ep; cbn [negb]; try reflexivity.
    unfold read. cbn [buffered connected peer transcript].
    apply IH. cbn [peer length] in *. lia.
  - apply Z.leb_gt in Eav. cbn [negb]. unfold read.
    apply IH. cbn [peer].
    assert (Hne : firstn (Z.to_nat ((numel - count) * 8)) (buffered c) <> []).
    { unfold bytesAvailable in Eav. destruct (buffered c) as [|b bs]; [cbn in Eav; lia|].
      destruct (Z.to_nat ((numel - count) * 8)) eqn:En; [lia|]. discriminate. }
    pose proof (doubles_of_nonempty _ Hne). lia.
Qed.

Lemma recv_Matrix2D_loop_more (extra k : nat) (numel count : Z) (mat : tMatrix2D)
      (timeout : Z) (c : QTcpSocket) :
  (Z.to_nat (numel - count) + length (peer c) < k)%nat ->
  recv_Matrix2D_loop (extra + k) numel count mat timeout c =
  recv_Matrix2D_loop k numel count mat timeout c.
Proof.
  intros Hk. induction extra as [|e IH]; [reflexivity|].
  cbn [Nat.add]. rewrite recv_Matrix2D_loop_fuel by lia. exact IH.
Qed.

(** X22 — how [_recv_Matrix2D] fails, and what it leaves in [*mat].
    Without a socket it returns [true] with the empty matrix
    [Matrix2D_Create] gives.  When the first extent read is negative (which
    is also what a receive that timed out delivers) it returns [false] and
    leaves the empty matrix, not deleted.  When the extents are there and
    positive, with a product that fits an [int], but no entry is, and the
    wait for them fails, it returns [false] and the matrix is deleted.  The
    loop that gathers the entries never runs out of turns: more turns change
    nothing. *)
Theorem recv_Matrix2D_failures (s : RoboDK) :
  (_COM s = None -> _recv_Matrix2D s = (true, Some Matrix2D_Create, s)) /\
  (fst (_recv_Int s) < 0 ->
   fst (_recv_Matrix2D s) = (false, Some Matrix2D_Create)) /\
  (forall c r n,
      _COM s = Some c -> buffered c = be_encode 4 r ++ be_encode 4 n ->
      0 < r < 2 ^ 31 -> 0 < n < 2 ^ 31 -> r * n < 2 ^ 31 ->
      peer c = [] \/ (exists later, peer c = Silence :: later) ->
      fst (_recv_Matrix2D s) = (false, None)) /\
  (forall c numel mat extra,
      recv_Matrix2D_loop (extra + S (Z.to_nat numel + length (peer c))) numel 0 mat
                         (_TIMEOUT s) c
      = recv_Matrix2D_loop (S (Z.to_nat numel + length (peer c))) numel 0 mat
                           (_TIMEOUT s) c).
Proof.
  split; [|split; [|split]].
  - intros Hc.
    assert (H : _recv_Int s = (0, s)) by (unfold _recv_Int; rewrite Hc; reflexivity).
    unfold _recv_Matrix2D. rewrite H, H. reflexivity.
  - intros Hneg. unfold _recv_Matrix2D.
    destruct (_recv_Int s) as [dim1 s1]. cbn [fst] in Hneg.
    destruct (_recv_Int s1) as [dim2 s2].
    replace (dim1 <? 0) with true by (symmetry; apply Z.ltb_lt; exact Hneg).
    reflexivity.
  - intros c r n Hc Hb Hr Hn _ Hpeer. unfold _recv_Matrix2D.
    rewrite (_recv_Int_front s c r _ Hc Hb).
    rewrite (_recv_Int_front
               (set_COM (Some (took (be_encode 4 r) (be_encode 4 n) c)) s)
               (took (be_encode 4 r) (be_encode 4 n) c) n []
               (_COM_set_COM _ _) (eq_sym (app_nil_r _))).
    rewrite !to_signed_wrap by lia. rewrite set_COM_set_COM, _COM_set_COM.
    replace (r <? 0) with false by (symmetry; apply Z.ltb_ge; lia).
    replace (n <? 0) with false by (symmetry; apply Z.ltb_ge; lia).
    cbn [orb].
    replace (r * n <=? 0) with false by (symmetry; apply Z.leb_gt; nia).
    rewrite recv_Matrix2D_loop_turn. rewrite Z.sub_0_r.
    replace (r * n <=? 0) with false by (symmetry; apply Z.leb_gt; nia).
    unfold bytesAvailable, took at 1. cbn [buffered length Z.of_nat Z.leb Z.compare].
    unfold waitForReadyRead. cbn [took peer].
    destruct Hpeer as [->|[later ->]]; reflexivity.
  - intros c numel mat extra. apply recv_Matrix2D_loop_more.
    rewrite Z.sub_0_r. lia.
Qed.

(** On [no_entries] the extents 2 and 3 arrive and nothing follows. *)
Lemma recv_Matrix2D_failures_witness :
  fst (_recv_Matrix2D negative_rows) = (false, Some Matrix2D_Create) /\
  fst (_recv_Matrix2D no_entries) = (false, None).
Proof.
  split.
  - refine (proj1 (proj2 (recv_Matrix2D_failures negative_rows)) _).
    vm_compute. reflexivity.
  - refine (proj1 (proj2 (proj2 (recv_Matrix2D_failures no_entries)))
                  (socket_holding (be_encode 4 2 ++ be_encode 4 3) [Silence]) 2 3
                  eq_refl eq_refl _ _ _ _); try lia.
    right. exists []. reflexivity.
Defined.

(* ------------------------------------------------------------------ *)
(** ** Answers to a collision test and to a pick                       *)
(* ------------------------------------------------------------------ *)

Lemma pending_send_Array (values : list double) (nvalues : Z) (s : RoboDK) :
  _connected s = true -> pending (snd (_send_Array values nvalues s)) = pending s.
Proof.
  intros Hs. destruct (connected_socket s Hs) as (c & Hc & Hopen).
  unfold _send_Array. rewrite Hc. unfold isOpen. rewrite Hopen. cbn [negb].
  unfold _send_Int. rewrite Hc. unfold isOpen. rewrite Hopen. cbn [negb].
  rewrite _COM_set_COM, set_COM_set_COM. cbn [snd].
  rewrite (stream_put_did 4 nvalues c Hopen).
  rewrite (stream_put_loop nat (fun i => nth i values double_zero)
             (seq 0 (Z.to_nat nvalues)) [Written (be_encode 4 nvalues)] c Hopen).
  unfold pending. rewrite _COM_set_COM, Hc. reflexivity.
Qed.

Lemma pending_set_TIMEOUT (t : Z) (s : RoboDK) : pending (set_TIMEOUT t s) = pending s.
Proof. reflexivity. Qed.

Lemma connected_set_TIMEOUT (t : Z) (s : RoboDK) :
  _connected (set_TIMEOUT t s) = _connected s.
Proof. reflexivity. Qed.

(** X23 — [Item::MoveJ_Test] on a connected client returns the integer the
    buffer starts with, and [RoboDK::ItemUserPick] returns the item the
    buffer starts with.  What they write is one request: the line
    [CollisionMove], the identifier of the robot, the two arrays of joints
    (count, then values) and the step; the line [PickItem], the line of the
    message and the type. *)
Theorem answers_received (item : Item) (j1 j2 : tJoints) (minstep : Z)
        (message : list byte) (itemtype : Z) (s : RoboDK) (rest : list byte) :
  _connected s = true ->
  (forall n, - 2 ^ 31 <= n < 2 ^ 31 -> pending s = be_encode 4 n ++ rest ->
             fst (MoveJ_Test item j1 j2 minstep s) = n) /\
  (forall picked, is_Item picked -> pending s = Item_wire picked ++ rest ->
                  fst (ItemUserPick message itemtype s) = picked) /\
  sent (trace (snd (MoveJ_Test item j1 j2 minstep s))) =
    sent (trace s) ++ bytes_of_string "CollisionMove" ++ [LF]
    ++ be_encode 8 (_PTR item)
    ++ sent (array_events (Values j1) (nDOFs j1))
    ++ sent (array_events (Values j2) (nDOFs j2))
    ++ be_encode 4 minstep /\
  sent (trace (snd (ItemUserPick message itemtype s))) =
    sent (trace s) ++ bytes_of_string "PickItem" ++ [LF] ++ message ++ [LF]
    ++ be_encode 4 itemtype.
Proof.
  intros Hs.
  assert (HM : (forall n, - 2 ^ 31 <= n < 2 ^ 31 -> pending s = be_encode 4 n ++ rest ->
                          fst (MoveJ_Test item j1 j2 minstep s) = n) /\
               sent (trace (snd (MoveJ_Test item j1 j2 minstep s))) =
               sent (trace s) ++ bytes_of_string "CollisionMove" ++ [LF]
               ++ be_encode 8 (_PTR item)
               ++ sent (array_events (Values j1) (nDOFs j1))
               ++ sent (array_events (Values j2) (nDOFs j2))
               ++ be_encode 4 minstep).
  { unfold MoveJ_Test, _check_connection. rewrite Hs.
    pose proof (_send_Line_runs (bytes_of_string "CollisionMove") s Hs) as H1.
    pose proof (pending_send_Line (bytes_of_string "CollisionMove") s) as P1.
    destruct (_send_Line (bytes_of_string "CollisionMove") s) as [o1 s1]. cbn [snd] in *.
    pose proof (_send_Item_runs (Some item) s1 (runs_connected _ _ _ H1)) as H2.
    pose proof (pending_send_Item (Some item) s1) as P2.
    destruct (_send_Item (Some item) s1) as [o2 s2]. cbn [snd] in *.
    pose proof (_send_Array_joints_runs (Some j1) s2 (runs_connected _ _ _ H2)) as H3.
    pose proof (pending_send_Array (Values j1) (nDOFs j1) s2 (runs_connected _ _ _ H2)) as P3.
    cbn [_send_Array_joints] in *.
    destruct (_send_Array (Values j1) (nDOFs j1) s2) as [o3 s3]. cbn [snd] in *.
    pose proof (_send_Array_joints_runs (Some j2) s3 (runs_connected _ _ _ H3)) as H4.
    pose proof (pending_send_Array (Values j2) (nDOFs j2) s3 (runs_connected _ _ _ H3)) as P4.
    cbn [_send_Array_joints] in *.
    destruct (_send_Array (Values j2) (nDOFs j2) s3) as [o4 s4]. cbn [snd] in *.
    pose proof (_send_Int_runs minstep s4 (runs_connected _ _ _ H4)) as H5.
    pose proof (pending_send_Int minstep s4) as P5.
    destruct (_send_Int minstep s4) as [o5 s5]. cbn [snd] in *.
    pose proof (runs_trans _ _ _ _ _ H1
                 (runs_trans _ _ _ _ _ H2
                   (runs_trans _ _ _ _ _ H3 (runs_trans _ _ _ _ _ H4 H5)))) as Hreq.
    assert (Hp : pending (set_TIMEOUT (3600 * 1000) s5) = pending s)
      by (rewrite pending_set_TIMEOUT; congruence).
    assert (Hc5 : _connected (set_TIMEOUT (3600 * 1000) s5) = true)
      by exact (runs_connected _ _ _ Hreq).
    split.
    - intros n Hn Hb. rewrite Hb in Hp.
      destruct (pending_socket _ _ Hc5 Hp) as (c & Hc & _ & Hbuf).
      rewrite (_recv_Int_front _ c n rest Hc Hbuf).
      destruct (_check_status _). cbn [fst]. apply to_signed_wrap. exact Hn.
    - destruct (_recv_Int_runs _ Hc5) as (t6 & H6 & I6 & _).
      destruct (_recv_Int (set_TIMEOUT (3600 * 1000) s5)) as [collision s6].
      cbn [snd] in H6.
      pose proof (runs_set_TIMEOUT ROBODK_API_TIMEOUT s6 (runs_connected _ _ _ H6)) as H7.
      destruct (_check_status_runs _ (runs_connected _ _ _ H7)) as (t8 & H8 & I8 & _).
      destruct (_check_status (set_TIMEOUT ROBODK_API_TIMEOUT s6)) as [o8 s8].
      cbn [snd] in *.
      pose proof (runs_set_TIMEOUT (3600 * 1000) s5 (runs_connected _ _ _ Hreq)) as H5'.
      destruct (runs_trans _ _ _ _ _ Hreq
                 (runs_trans _ _ _ _ _ H5'
                   (runs_trans _ _ _ _ _ H6 (runs_trans _ _ _ _ _ H7 H8)))) as [_ Ht].
      rewrite Ht. rewrite !sent_app.
      rewrite (sent_inputs_only _ I6), (sent_inputs_only _ I8).
      cbn [line_events app sent flat_map ROBODK_API_LF].
      rewrite ?app_nil_r, <- ?app_assoc. reflexivity. }
  assert (HP : (forall picked, is_Item picked -> pending s = Item_wire picked ++ rest ->
                               fst (ItemUserPick message itemtype s) = picked) /\
               sent (trace (snd (ItemUserPick message itemtype s))) =
               sent (trace s) ++ bytes_of_string "PickItem" ++ [LF] ++ message ++ [LF]
               ++ be_encode 4 itemtype).
  { unfold ItemUserPick, _check_connection. rewrite Hs.
    pose proof (_send_Line_runs (bytes_of_string "PickItem") s Hs) as H1.
    pose proof (pending_send_Line (bytes_of_string "PickItem") s) as P1.
    destruct (_send_Line (bytes_of_string "PickItem") s) as [o1 s1]. cbn [snd] in *.
    pose proof (_send_Line_runs message s1 (runs_connected _ _ _ H1)) as H2.
    pose proof (pending_send_Line message s1) as P2.
    destruct (_send_Line message s1) as [o2 s2]. cbn [snd] in *.
    pose proof (_send_Int_runs itemtype s2 (runs_connected _ _ _ H2)) as H3.
    pose proof (pending_send_Int itemtype s2) as P3.
    destruct (_send_Int itemtype s2) as [o3 s3]. cbn [snd] in *.
    pose proof (runs_trans _ _ _ _ _ H1 (runs_trans _ _ _ _ _ H2 H3)) as Hreq.
    assert (Hp : pending (set_TIMEOUT (3600 * 1000) s3) = pending s)
      by (rewrite pending_set_TIMEOUT; congruence).
    assert (Hc3 : _connected (set_TIMEOUT (3600 * 1000) s3) = true)
      by exact (runs_connected _ _ _ Hreq).
    split.
    - intros picked Hit Hb. rewrite Hb in Hp.
      destruct (pending_socket _ _ Hc3 Hp) as (c & Hc & _ & Hbuf).
      rewrite (_recv_Item_front _ c picked rest Hc Hbuf Hit).
      destruct (_check_status _). reflexivity.
    - destruct (_recv_Item_runs _ Hc3) as (t4 & H4 & I4).
      destruct (_recv_Item (set_TIMEOUT (3600 * 1000) s3)) as [picked s4].
      cbn [snd] in H4.
      pose proof (runs_set_TIMEOUT ROBODK_API_TIMEOUT s4 (runs_connected _ _ _ H4)) as H5.
      destruct (_check_status_runs _ (runs_connected _ _ _ H5)) as (t6 & H6 & I6 & _).
      destruct (_check_status (set_TIMEOUT ROBODK_API_TIMEOUT s4)) as [o6 s6].
      cbn [snd] in *.
      pose proof (runs_set_TIMEOUT (3600 * 1000) s3 (runs_connected _ _ _ Hreq)) as H3'.
      destruct (runs_trans _ _ _ _ _ Hreq
                 (runs_trans _ _ _ _ _ H3'
                   (runs_trans _ _ _ _ _ H4 (runs_trans _ _ _ _ _ H5 H6)))) as [_ Ht].
      rewrite Ht. rewrite !sent_app.
      rewrite (sent_inputs_only _ I4), (sent_inputs_only _ I6).
      cbn [line_events app sent flat_map ROBODK_API_LF].
      rewrite ?app_nil_r, <- ?app_assoc. reflexivity. }
  destruct HM as [M1 M2]. destruct HP as [P1 P2].
  split; [exact M1|]. split; [exact P1|]. split; [exact M2|exact P2].
Qed.

(** A collision test answered by 2, the status following. *)
Lemma answers_received_witness :
  fst (MoveJ_Test robot six_joints bent 4000 (holding (be_encode 4 2 ++ be_encode 4 0))) = 2.
Proof.
  refine (proj1 (answers_received robot six_joints bent 4000 [] 0
                   (holding (be_encode 4 2 ++ be_encode 4 0)) (be_encode 4 0) eq_refl)
                2 _ eq_refl).
  lia.
Defined.

(* ------------------------------------------------------------------ *)
(** ** Joints from a column of a 2D matrix                             *)
(* ------------------------------------------------------------------ *)

(** X24 — the joints [tJoints(mat2d, column, ndofs)] builds from a column
    of a matrix of [r] by [c] entries: their count is [ndofs], or the number
    of rows when [ndofs] is negative, capped by [RDK_SIZE_JOINTS_MAX]; when
    this count does not exceed the number of rows, the joint [i] is the
    entry [(i, column)] of the matrix.  The test on the column that opens
    the constructor has no effect on the joints built: what it assigns is
    overwritten. *)
Theorem joints_of_column (RDK_SIZE_JOINTS_MAX : Z) (this : tJoints) (m : tMatrix2D)
        (r c column ndofs : Z) :
  is_matrix m r c ->
  0 <= column < c ->
  length (Values this) = Z.to_nat RDK_SIZE_JOINTS_MAX ->
  let n := Z.min (if ndofs <? 0 then r else ndofs) RDK_SIZE_JOINTS_MAX in
  let j := tJoints_of_column RDK_SIZE_JOINTS_MAX this m column ndofs in
  0 <= n <= r ->
  nDOFs j = n /\
  (forall i, 0 <= i < n ->
             nth (Z.to_nat i) (Values j) double_zero = Matrix2D_Get_ij m i column) /\
  (forall k, j = tJoints_of_column RDK_SIZE_JOINTS_MAX (mkJoints (Values this) k)
                                   m column ndofs).
Proof.
  intros Hm Hcol Hlen n j Hn.
  pose proof (is_matrix_bounds m r c Hm) as (Hrc & Halloc).
  destruct (Matrix2D_Size_extents m r c Hm) as (Hrows & Hcols).
  destruct Hm as (Hdim & Hsize & Hr & Hc & Ha & Hblock).
  assert (Hj : j = SetValues (mkJoints (Values this) n) (Matrix2D_Get_col m column) n).
  { unfold j, tJoints_of_column. rewrite Hrows, Hcols.
    destruct (column <=? c); reflexivity. }
  assert (Hptr : (Z.to_nat n <= length (Matrix2D_Get_col m column))%nat).
  { unfold Matrix2D_Get_col. rewrite Hsize. cbn [nth].
    rewrite length_skipn, Hblock. nia. }
  assert (Hval : Values j = firstn (Z.to_nat n) (Matrix2D_Get_col m column)
                            ++ skipn (Z.to_nat n) (Values this)).
  { rewrite Hj. unfold SetValues. cbn [Values nDOFs].
    replace (0 <=? n) with true by (symmetry; apply Z.leb_le; lia).
    rewrite copy_into_spec by (try assumption; rewrite Hlen; lia). reflexivity. }
  split; [|split].
  - rewrite Hj. unfold SetValues. cbn [nDOFs].
    replace (0 <=? n) with true by (symmetry; apply Z.leb_le; lia). reflexivity.
  - intros i Hi. rewrite Hval.
    rewrite app_nth1 by (rewrite length_firstn; lia).
    rewrite nth_firstn_lt by lia.
    unfold Matrix2D_Get_col, Matrix2D_Get_ij. rewrite Hsize. cbn [nth].
    rewrite nth_skipn. apply (f_equal (fun k => nth k (block m) double_zero)). nia.
  - intros k. unfold j, tJoints_of_column. cbn [Values].
    rewrite Hrows, Hcols. destruct (column <=? c); reflexivity.
Qed.

(** The second column of [three_by_two] as joints, in an array of twelve. *)
Lemma joints_of_column_witness :
  nth 2 (Values (tJoints_of_column 12 blank_joints three_by_two 1 (-1))) double_zero = 23.
Proof.
  refine (proj1 (proj2 (joints_of_column 12 blank_joints three_by_two 3 2 1 (-1) _ _ _ _))
                2 _).
  - vm_compute. repeat split; try reflexivity; discriminate.
  - lia.
  - reflexivity.
  - cbn. lia.
  - cbn. lia.
Defined.

(* ------------------------------------------------------------------ *)
(** ** The timeout between calls and during a blocking receive         *)
(* ------------------------------------------------------------------ *)

Lemma _TIMEOUT_disconnect (s : RoboDK) : _TIMEOUT (_disconnect s) = _TIMEOUT s.
Proof. unfold _disconnect. destruct (_COM s); reflexivity. Qed.

Lemma _TIMEOUT_send_Array_mat (mat : option Mat) (s : RoboDK) :
  _TIMEOUT (snd (_send_Array_mat mat s)) = _TIMEOUT s.
Proof.
  destruct mat; cbn [_send_Array_mat]; [apply _TIMEOUT_send_Array|apply _TIMEOUT_send_Int].
Qed.

Lemma _TIMEOUT_send_target (target : option Item) (joints : option tJoints)
      (mat_target : option Mat) (s : RoboDK) :
  _TIMEOUT (snd (send_target target joints mat_target s)) = _TIMEOUT s.
Proof.
  unfold send_target.
  destruct target as [t|]; [|destruct joints as [j|]; [|destruct mat_target as [m|]]].
  - pose proof (_TIMEOUT_send_Int 3 s) as H1.
    destruct (_send_Int 3 s) as [o1 s1]. cbn [snd] in H1.
    pose proof (_TIMEOUT_send_Array_joints None s1) as H2.
    destruct (_send_Array_joints None s1) as [o2 s2]. cbn [snd] in H2.
    pose proof (_TIMEOUT_send_Item (Some t) s2) as H3.
    destruct (_send_Item (Some t) s2) as [o3 s3]. cbn [snd] in *. congruence.
  - pose proof (_TIMEOUT_send_Int 1 s) as H1.
    destruct (_send_Int 1 s) as [o1 s1]. cbn [snd] in H1.
    pose proof (_TIMEOUT_send_Array_joints (Some j) s1) as H2.
    destruct (_send_Array_joints (Some j) s1) as [o2 s2]. cbn [snd] in H2.
    pose proof (_TIMEOUT_send_Item None s2) as H3.
    destruct (_send_Item None s2) as [o3 s3]. cbn [snd] in *. congruence.
  - pose proof (_TIMEOUT_send_Int 2 s) as H1.
    destruct (_send_Int 2 s) as [o1 s1]. cbn [snd] in H1.
    pose proof (_TIMEOUT_send_Array_mat (Some m) s1) as H2.
    destruct (_send_Array_mat (Some m) s1) as [o2 s2]. cbn [snd] in H2.
    pose proof (_TIMEOUT_send_Item None s2) as H3.
    destruct (_send_Item None s2) as [o3 s3]. cbn [snd] in *. congruence.
  - reflexivity.
Qed.

Lemma _TIMEOUT_WaitMove (item : Item) (timeout_ms : Z) (s : RoboDK) :
  _TIMEOUT (WaitMove item timeout_ms s) = ROBODK_API_TIMEOUT.
Proof. exact (proj1 _TIMEOUT_after_long_call item timeout_ms s). Qed.

Lemma _TIMEOUT_moveX (WaitMove_default : Z) (target : option Item)
      (joints : option tJoints) (mat_target : option Mat) (itemrobot : Item)
      (movetype : Z) (blocking : bool) (s : RoboDK) :
  _TIMEOUT (snd (_moveX WaitMove_default target joints mat_target itemrobot movetype
                        blocking s)) = ROBODK_API_TIMEOUT.
Proof.
  unfold _moveX.
  pose proof (_TIMEOUT_WaitMove itemrobot WaitMove_default s) as H0.
  pose proof (_TIMEOUT_send_Line (bytes_of_string "MoveX")
                (WaitMove itemrobot WaitMove_default s)) as H1.
  destruct (_send_Line _ _) as [o1 s1]. cbn [snd] in H1.
  pose proof (_TIMEOUT_send_Int movetype s1) as H2.
  destruct (_send_Int movetype s1) as [o2 s2]. cbn [snd] in H2.
  pose proof (_TIMEOUT_send_target target joints mat_target s2) as H3.
  destruct (send_target target joints mat_target s2) as [out s3]. cbn [snd] in H3.
  destruct out as [|code]; [|cbn [snd]; congruence].
  pose proof (_TIMEOUT_send_Item (Some itemrobot) s3) as H4.
  destruct (_send_Item (Some itemrobot) s3) as [o4 s4]. cbn [snd] in H4.
  pose proof (_TIMEOUT_check_status s4) as H5.
  destruct (_check_status s4) as [o5 s5]. cbn [snd] in H5.
  destruct blocking; cbn [snd]; [apply _TIMEOUT_WaitMove|congruence].
Qed.

Lemma _TIMEOUT_moveC (WaitMove_default : Z) (target1 : option Item)
      (joints1 : option tJoints) (mat_target1 : option Mat) (target2 : option Item)
      (joints2 : option tJoints) (mat_target2 : option Mat) (itemrobot : Item)
      (blocking : bool) (s : RoboDK) :
  _TIMEOUT (snd (_moveC WaitMove_default target1 joints1 mat_target1
                        target2 joints2 mat_target2 itemrobot blocking s))
  = ROBODK_API_TIMEOUT.
Proof.
  unfold _moveC.
  pose proof (_TIMEOUT_WaitMove itemrobot WaitMove_default s) as H0.
  pose proof (_TIMEOUT_send_Line (bytes_of_string "MoveC")
                (WaitMove itemrobot WaitMove_default s)) as H1.
  destruct (_send_Line _ _) as [o1 s1]. cbn [snd] in H1.
  pose proof (_TIMEOUT_send_Int 3 s1) as H2.
  destruct (_send_Int 3 s1) as [o2 s2]. cbn [snd] in H2.
  pose proof (_TIMEOUT_send_target target1 joints1 mat_target1 s2) as H3.
  destruct (send_target target1 joints1 mat_target1 s2) as [out s3]. cbn [snd] in H3.
  destruct out as [|code]; [|cbn [snd]; congruence].
  pose proof (_TIMEOUT_send_target target2 joints2 mat_target2 s3) as H3'.
  destruct (send_target target2 joints2 mat_target2 s3) as [out s3']. cbn [snd] in H3'.
  destruct out as [|code]; [|cbn [snd]; congruence].
  pose proof (_TIMEOUT_send_Item (Some itemrobot) s3') as H4.
  destruct (_send_Item (Some itemrobot) s3') as [o4 s4]. cbn [snd] in H4.
  pose proof (_TIMEOUT_check_status s4) as H5.
  destruct (_check_status s4) as [o5 s5]. cbn [snd] in H5.
  destruct blocking; cbn [snd]; [apply _TIMEOUT_WaitMove|congruence].
Qed.

Lemma _TIMEOUT_Add_INSMOVE (this t : Item) (v : Z) (s : RoboDK) :
  _TIMEOUT (snd (let (_, s) := _check_connection s in
                 let (_, s) := _send_Line (bytes_of_string "Add_INSMOVE") s in
                 let (_, s) := _send_Item (Some t) s in
                 let (_, s) := _send_Item (Some this) s in
                 let (_, s) := _send_Int v s in
                 let (_, s) := _check_status s in
                 (Returned, s))) = _TIMEOUT s.
Proof.
  pose proof (_TIMEOUT_check_connection s) as H0.
  destruct (_check_connection s) as [o0 s0]. cbn [snd] in H0.
  pose proof (_TIMEOUT_send_Line (bytes_of_string "Add_INSMOVE") s0) as H1.
  destruct (_send_Line _ s0) as [o1 s1]. cbn [snd] in H1.
  pose proof (_TIMEOUT_send_Item (Some t) s1) as H2.
  destruct (_send_Item (Some t) s1) as [o2 s2]. cbn [snd] in H2.
  pose proof (_TIMEOUT_send_Item (Some this) s2) as H3.
  destruct (_send_Item (Some this) s2) as [o3 s3]. cbn [snd] in H3.
  pose proof (_TIMEOUT_send_Int v s3) as H4.
  destruct (_send_Int v s3) as [o4 s4]. cbn [snd] in H4.
  pose proof (_TIMEOUT_check_status s4) as H5.
  destruct (_check_status s4) as [o5 s5]. cbn [snd] in *. congruence.
Qed.

Lemma _TIMEOUT_recv_Items (n : nat) :
  forall s : RoboDK, _TIMEOUT (snd (recv_Items n s)) = _TIMEOUT s.
Proof.
  induction n as [|k IH]; intros s; cbn [recv_Items]; [reflexivity|].
  pose proof (_TIMEOUT_recv_Item s) as H1.
  destruct (_recv_Item s) as [item s1]. cbn [snd] in H1.
  pose proof (IH s1) as H2.
  destruct (recv_Items k s1) as [items s2]. cbn [snd] in *. congruence.
Qed.

Lemma _TIMEOUT_item_list_tail (s : RoboDK) :
  _TIMEOUT (snd (let (nitems, s) := _recv_Int s in
                 let (itemlist, s) := recv_Items (Z.to_nat nitems) s in
                 let (_, s) := _check_status s in
                 (itemlist, s))) = _TIMEOUT s.
Proof.
  pose proof (_TIMEOUT_recv_Int s) as H1.
  destruct (_recv_Int s) as [nitems s1]. cbn [snd] in H1.
  pose proof (_TIMEOUT_recv_Items (Z.to_nat nitems) s1) as H2.
  destruct (recv_Items (Z.to_nat nitems) s1) as [itemlist s2]. cbn [snd] in H2.
  pose proof (_TIMEOUT_check_status s2) as H3.
  destruct (_check_status s2) as [o s3]. cbn [snd] in *. congruence.
Qed.

Lemma _TIMEOUT_Childs (this : Item) (s : RoboDK) :
  _TIMEOUT (snd (Childs this s)) = _TIMEOUT s.
Proof.
  unfold Childs.
  pose proof (_TIMEOUT_check_connection s) as H0.
  destruct (_check_connection s) as [o0 s0]. cbn [snd] in H0.
  pose proof (_TIMEOUT_send_Line (bytes_of_string "G_Childs") s0) as H1.
  destruct (_send_Line _ s0) as [o1 s1]. cbn [snd] in H1.
  pose proof (_TIMEOUT_send_Item (Some this) s1) as H2.
  destruct (_send_Item (Some this) s1) as [o2 s2]. cbn [snd] in H2.
  rewrite (_TIMEOUT_item_list_tail s2). congruence.
Qed.

Lemma _TIMEOUT_getItemList (filter : Z) (s : RoboDK) :
  _TIMEOUT (snd (getItemList filter s)) = _TIMEOUT s.
Proof.
  unfold getItemList.
  pose proof (_TIMEOUT_check_connection s) as H0.
  destruct (_check_connection s) as [o0 s0]. cbn [snd] in H0.
  destruct (filter <? 0).
  - pose proof (_TIMEOUT_send_Line (bytes_of_string "G_List_Items_ptr") s0) as H1.
    destruct (_send_Line _ s0) as [o1 s1]. cbn [snd] in H1.
    rewrite (_TIMEOUT_item_list_tail s1). congruence.
  - pose proof (_TIMEOUT_send_Line (bytes_of_string "G_List_Items_Type_ptr") s0) as H1.
    destruct (_send_Line _ s0) as [o1 s1]. cbn [snd] in H1.
    pose proof (_TIMEOUT_send_Int filter s1) as H2.
    destruct (_send_Int filter s1) as [o2 s2]. cbn [snd] in H2.
    rewrite (_TIMEOUT_item_list_tail s2). congruence.
Qed.

(** Between two calls the timeout is the constant the constructor gave
    it. *)
Lemma reachable_timeout (ROBODK_DEFAULT_PORT : Z) (ROBODK_DEFAULT_PATH_BIN : list byte)
      (WaitMove_default ITEM_TYPE_PROGRAM : Z) (s : RoboDK) :
  reachable ROBODK_DEFAULT_PORT ROBODK_DEFAULT_PATH_BIN WaitMove_default
            ITEM_TYPE_PROGRAM s ->
  _TIMEOUT s = ROBODK_API_TIMEOUT.
Proof.
  induction 1.
  - unfold RoboDK_new. rewrite _TIMEOUT_connect_smart. reflexivity.
  - rewrite _TIMEOUT_connect. assumption.
  - rewrite _TIMEOUT_disconnect. assumption.
  - apply _TIMEOUT_WaitMove.
  - apply (proj1 (proj2 _TIMEOUT_after_long_call)).
  - apply (proj1 (proj2 (proj2 _TIMEOUT_after_long_call))).
  - unfold MoveJ_item. destruct (_TYPE this =? ITEM_TYPE_PROGRAM).
    + rewrite _TIMEOUT_Add_INSMOVE. assumption.
    + apply _TIMEOUT_moveX.
  - apply _TIMEOUT_moveX.
  - apply _TIMEOUT_moveX.
  - unfold MoveL_item. destruct (_TYPE this =? ITEM_TYPE_PROGRAM).
    + rewrite _TIMEOUT_Add_INSMOVE. assumption.
    + apply _TIMEOUT_moveX.
  - apply _TIMEOUT_moveX.
  - apply _TIMEOUT_moveX.
  - apply _TIMEOUT_moveC.
  - apply _TIMEOUT_moveC.
  - apply _TIMEOUT_moveC.
  - rewrite _TIMEOUT_Childs. assumption.
  - rewrite _TIMEOUT_getItemList. assumption.
Qed.

Lemma waits_only_app (t : Z) (a b : list IOEvent) :
  waits_only t a -> waits_only t b -> waits_only t (a ++ b).
Proof. unfold waits_only. intros Ha Hb. apply Forall_app. split; assumption. Qed.

(** The guard of a fixed-size receive waits once at most, with the timeout
    it is given. *)
Lemma await_waits (size timeout : Z) (c : QTcpSocket) :
  exists waits,
    hears c (snd (await size timeout c)) waits /\
    waits_only timeout waits /\ (length waits <= 1)%nat /\
    (fst (await size timeout c) = false -> waits <> []).
Proof.
  unfold await. destruct (bytesAvailable c <? size).
  - pose proof (waitForReadyRead_hears timeout c) as H.
    destruct (waitForReadyRead timeout c) as [r c']. cbn [fst snd] in *.
    eexists. split; [exact H|]. split.
    + constructor; [eexists; reflexivity|constructor].
    + split; [cbn; lia|discriminate].
  - exists []. split; [apply hears_refl|]. split; [constructor|].
    split; [cbn; lia|]. cbn. discriminate.
Qed.

Lemma _recv_Int_receive (s : RoboDK) :
  _connected s = true ->
  exists tr, runs s (snd (_recv_Int s)) tr /\ one_receive (_TIMEOUT s) tr.
Proof.
  intros Hs. destruct (connected_socket s Hs) as (c & Hc & Hopen).
  unfold _recv_Int. rewrite Hc.
  destruct (await_waits 4 (_TIMEOUT s) c) as (waits & Hw & Ht & Hl & Hne).
  destruct (await 4 (_TIMEOUT s) c) as [enough c1]. cbn [fst snd] in *.
  destruct enough; cbn [negb].
  - destruct (stream_get_hears 4 c1) as (bs & Hbs).
    destruct (stream_get 4 c1) as [v c2]. cbn [snd] in *.
    pose proof (hears_trans _ _ _ _ _ Hw Hbs) as H.
    exists (waits ++ [Taken bs]). split; [exact (runs_hears s c c2 _ Hc Hopen H)|].
    split; [intros E; apply app_eq_nil in E; destruct E; discriminate|].
    exists waits, [bs]. repeat split; assumption.
  - exists waits. split; [exact (runs_hears s c c1 _ Hc Hopen Hw)|].
    split; [apply Hne; reflexivity|].
    exists waits, []. cbn [map]. rewrite app_nil_r. repeat split; assumption.
Qed.

Lemma _recv_Item_receive (s : RoboDK) :
  _connected s = true ->
  exists tr, runs s (snd (_recv_Item s)) tr /\ one_receive (_TIMEOUT s) tr.
Proof.
  intros Hs. destruct (connected_socket s Hs) as (c & Hc & Hopen).
  unfold _recv_Item. rewrite Hc.
  destruct (await_waits 8 (_TIMEOUT s) c) as (waits & Hw & Ht & Hl & Hne).
  destruct (await 8 (_TIMEOUT s) c) as [enough c1]. cbn [fst snd] in *.
  destruct enough; cbn [negb].
  - destruct (stream_get_hears 8 c1) as (b1 & H1).
    destruct (stream_get 8 c1) as [ptr c2]. cbn [snd] in *.
    destruct (stream_get_hears 4 c2) as (b2 & H2).
    destruct (stream_get 4 c2) as [type c3]. cbn [snd] in *.
    pose proof (hears_trans _ _ _ _ _ Hw (hears_trans _ _ _ _ _ H1 H2)) as H.
    exists (waits ++ [Taken b1] ++ [Taken b2]).
    split; [exact (runs_hears s c c3 _ Hc Hopen H)|].
    split; [intros E; apply app_eq_nil in E; destruct E; discriminate|].
    exists waits, [b1; b2]. repeat split; assumption.
  - exists waits. split; [exact (runs_hears s c c1 _ Hc Hopen Hw)|].
    split; [apply Hne; reflexivity|].
    exists waits, []. cbn [map]. rewrite app_nil_r. repeat split; assumption.
Qed.

Lemma _recv_Line_receive (s : RoboDK) :
  _connected s = true ->
  exists waits bs,
    runs s (snd (_recv_Line s)) (waits ++ [Taken bs]) /\ waits_only (_TIMEOUT s) waits.
Proof.
  intros Hs. destruct (connected_socket s Hs) as (c & Hc & Hopen).
  destruct (_waitline_loop_spec (S (length (peer c))) (_TIMEOUT s) c
              (Nat.lt_succ_diag_r _))
    as (arrived & waits & H1 & H2 & H3 & H4 & H5 & _ & _).
  destruct (_waitline_loop (S (length (peer c))) (_TIMEOUT s) c) as [ok w] eqn:Ew.
  cbn [fst snd] in *.
  destruct (_recv_Line_waited s c w ok Hc Ew) as (Rt & Rf).
  assert (Htook : forall bs rest,
             runs s (set_COM (Some (took bs rest w)) s) (waits ++ [Taken bs])).
  { intros bs rest. unfold runs, _connected, trace. rewrite _COM_set_COM, Hc.
    cbn [took connected transcript]. rewrite H1, H3, <- app_assoc.
    split; [exact Hopen|reflexivity]. }
  destruct ok.
  - destruct (canReadLine_split w (eq_sym H5)) as (line & rest & Hb & Hnot).
    rewrite (Rt eq_refl line rest Hb Hnot). cbn [snd].
    exists waits, (line ++ [LF]). split; [apply Htook|exact H4].
  - rewrite (Rf eq_refl). cbn [snd].
    exists waits, (buffered w). split; [apply Htook|exact H4].
Qed.

Lemma _check_status_decode (s : RoboDK) :
  _connected s = true ->
  exists tr, runs s (snd (_check_status s)) tr /\ status_decode (_TIMEOUT s) tr.
Proof.
  intros Hs. unfold _check_status.
  destruct (_recv_Int_receive s Hs) as (word & Hword & Hone).
  pose proof (_TIMEOUT_recv_Int s) as Ht.
  destruct (_recv_Int s) as [status s1]. cbn [snd] in Hword, Ht.
  destruct (_recv_Line_receive s1 (runs_connected _ _ _ Hword)) as (waits & bs & Hl & Hw).
  rewrite Ht in Hw.
  destruct (_recv_Line s1) as [msg s2]. cbn [snd] in Hl.
  assert (Hboth : exists tr, runs s s2 tr /\ status_decode (_TIMEOUT s) tr).
  { exists (word ++ waits ++ [Taken bs]).
    split; [exact (runs_trans _ _ _ _ _ Hword Hl)|].
    exists word, (waits ++ [Taken bs]). split; [reflexivity|]. split; [exact Hone|].
    right. exists waits, bs. split; [reflexivity|exact Hw]. }
  assert (Hjust : exists tr, runs s s1 tr /\ status_decode (_TIMEOUT s) tr).
  { exists word. split; [exact Hword|].
    exists word, []. rewrite app_nil_r. split; [reflexivity|]. split; [exact Hone|].
    left. reflexivity. }
  repeat split_match; cbn [snd]; assumption.
Qed.

(** C8 — the states of a client between two calls ([reachable]) all have
    the timeout [ROBODK_API_TIMEOUT], so that after [WaitMove],
    [MoveJ_Test] and [ItemUserPick] the timeout is what it was before the
    call.  On a connected client the socket shows when it is raised and
    when it is restored.  For [MoveJ_Test] and [ItemUserPick]: after the
    request the blocking receive waits with one hour, and the decoding of
    the status that comes right after it waits with the timeout of before
    the call.  For [WaitMove]: after the request a first status is decoded
    with the timeout of before the call, and the blocking one with the
    timeout asked for; nothing is received after it. *)
Theorem timeout_restored (ROBODK_DEFAULT_PORT : Z) (ROBODK_DEFAULT_PATH_BIN : list byte)
        (WaitMove_default ITEM_TYPE_PROGRAM : Z) (s : RoboDK) :
  reachable ROBODK_DEFAULT_PORT ROBODK_DEFAULT_PATH_BIN WaitMove_default
            ITEM_TYPE_PROGRAM s ->
  (forall item timeout_ms, _TIMEOUT (WaitMove item timeout_ms s) = _TIMEOUT s) /\
  (forall item j1 j2 minstep,
      _TIMEOUT (snd (MoveJ_Test item j1 j2 minstep s)) = _TIMEOUT s) /\
  (forall message itemtype,
      _TIMEOUT (snd (ItemUserPick message itemtype s)) = _TIMEOUT s) /\
  (_connected s = true ->
   (forall item j1 j2 minstep,
       exists blocking after,
         trace (snd (MoveJ_Test item j1 j2 minstep s))
         = trace s ++ MoveJ_Test_request item j1 j2 minstep ++ blocking ++ after /\
         one_receive (3600 * 1000) blocking /\
         status_decode (_TIMEOUT s) after) /\
   (forall message itemtype,
       exists blocking after,
         trace (snd (ItemUserPick message itemtype s))
         = trace s ++ ItemUserPick_request message itemtype ++ blocking ++ after /\
         one_receive (3600 * 1000) blocking /\
         status_decode (_TIMEOUT s) after) /\
   (forall item timeout_ms,
       exists first blocking,
         trace (WaitMove item timeout_ms s)
         = trace s ++ WaitMove_request item ++ first ++ blocking /\
         status_decode (_TIMEOUT s) first /\
         status_decode timeout_ms blocking)).
Proof.
  intros Hreach.
  pose proof (reachable_timeout _ _ _ _ s Hreach) as Hinv.
  destruct _TIMEOUT_after_long_call as (HW & HM & HP & _).
  split; [intros; rewrite HW; symmetry; exact Hinv|].
  split; [intros; rewrite HM; symmetry; exact Hinv|].
  split; [intros; rewrite HP; symmetry; exact Hinv|].
  intros Hs. split; [|split].
  - intros item j1 j2 minstep. unfold MoveJ_Test, _check_connection. rewrite Hs.
    pose proof (_send_Line_runs (bytes_of_string "CollisionMove") s Hs) as H1.
    destruct (_send_Line (bytes_of_string "CollisionMove") s) as [o1 s1]. cbn [snd] in *.
    pose proof (_send_Item_runs (Some item) s1 (runs_connected _ _ _ H1)) as H2.
    destruct (_send_Item (Some item) s1) as [o2 s2]. cbn [snd] in *.
    pose proof (_send_Array_joints_runs (Some j1) s2 (runs_connected _ _ _ H2)) as H3.
    destruct (_send_Array_joints (Some j1) s2) as [o3 s3]. cbn [snd] in *.
    pose proof (_send_Array_joints_runs (Some j2) s3 (runs_connected _ _ _ H3)) as H4.
    destruct (_send_Array_joints (Some j2) s3) as [o4 s4]. cbn [snd] in *.
    pose proof (_send_Int_runs minstep s4 (runs_connected _ _ _ H4)) as H5.
    destruct (_send_Int minstep s4) as [o5 s5]. cbn [snd] in *.
    pose proof (runs_trans _ _ _ _ _ H1
                 (runs_trans _ _ _ _ _ H2
                   (runs_trans _ _ _ _ _ H3 (runs_trans _ _ _ _ _ H4 H5)))) as Hreq.
    pose proof (runs_set_TIMEOUT (3600 * 1000) s5 (runs_connected _ _ _ Hreq)) as Hup.
    destruct (_recv_Int_receive _ (runs_connected _ _ _ Hup)) as (blocking & H6 & B6).
    destruct (_recv_Int (set_TIMEOUT (3600 * 1000) s5)) as [collision s6].
    cbn [snd] in H6.
    pose proof (runs_set_TIMEOUT ROBODK_API_TIMEOUT s6 (runs_connected _ _ _ H6)) as Hdown.
    destruct (_check_status_decode _ (runs_connected _ _ _ Hdown)) as (after & H8 & D8).
    destruct (_check_status (set_TIMEOUT ROBODK_API_TIMEOUT s6)) as [o8 s8].
    cbn [snd] in *.
    exists blocking, after.
    split; [|split; [exact B6|rewrite Hinv; exact D8]].
    destruct (runs_trans _ _ _ _ _ Hreq
               (runs_trans _ _ _ _ _ Hup
                 (runs_trans _ _ _ _ _ H6 (runs_trans _ _ _ _ _ Hdown H8)))) as [_ Ht].
    rewrite Ht. unfold MoveJ_Test_request. cbn [app]. rewrite <- ?app_assoc. reflexivity.
  - intros message itemtype. unfold ItemUserPick, _check_connection. rewrite Hs.
    pose proof (_send_Line_runs (bytes_of_string "PickItem") s Hs) as H1.
    destruct (_send_Line (bytes_of_string "PickItem") s) as [o1 s1]. cbn [snd] in *.
    pose proof (_send_Line_runs message s1 (runs_connected _ _ _ H1)) as H2.
    destruct (_send_Line message s1) as [o2 s2]. cbn [snd] in *.
    pose proof (_send_Int_runs itemtype s2 (runs_connected _ _ _ H2)) as H3.
    destruct (_send_Int itemtype s2) as [o3 s3]. cbn [snd] in *.
    pose proof (runs_trans _ _ _ _ _ H1 (runs_trans _ _ _ _ _ H2 H3)) as Hreq.
    pose proof (runs_set_TIMEOUT (3600 * 1000) s3 (runs_connected _ _ _ Hreq)) as Hup.
    destruct (_recv_Item_receive _ (runs_connected _ _ _ Hup)) as (blocking & H4 & B4).
    destruct (_recv_Item (set_TIMEOUT (3600 * 1000) s3)) as [picked s4].
    cbn [snd] in H4.
    pose proof (runs_set_TIMEOUT ROBODK_API_TIMEOUT s4 (runs_connected _ _ _ H4)) as Hdown.
    destruct (_check_status_decode _ (runs_connected _ _ _ Hdown)) as (after & H6 & D6).
    destruct (_check_status (set_TIMEOUT ROBODK_API_TIMEOUT s4)) as [o6 s6].
    cbn [snd] in *.
    exists blocking, after.
    split; [|split; [exact B4|rewrite Hinv; exact D6]].
    destruct (runs_trans _ _ _ _ _ Hreq
               (runs_trans _ _ _ _ _ Hup
                 (runs_trans _ _ _ _ _ H4 (runs_trans _ _ _ _ _ Hdown H6)))) as [_ Ht].
    rewrite Ht. unfold ItemUserPick_request. cbn [app]. rewrite <- ?app_assoc. reflexivity.
  - intros item timeout_ms. unfold WaitMove, _check_connection. rewrite Hs.
    pose proof (_send_Line_runs (bytes_of_string "WaitMove") s Hs) as H1.
    pose proof (_TIMEOUT_send_Line (bytes_of_string "WaitMove") s) as T1.
    destruct (_send_Line (bytes_of_string "WaitMove") s) as [o1 s1]. cbn [snd] in *.
    pose proof (_send_Item_runs (Some item) s1 (runs_connected _ _ _ H1)) as H2.
    pose proof (_TIMEOUT_send_Item (Some item) s1) as T2.
    destruct (_send_Item (Some item) s1) as [o2 s2]. cbn [snd] in *.
    destruct (_check_status_decode s2 (runs_connected _ _ _ H2)) as (first & H3 & D3).
    rewrite T2, T1 in D3.
    destruct (_check_status s2) as [o3 s3]. cbn [snd] in H3.
    pose proof (runs_set_TIMEOUT timeout_ms s3 (runs_connected _ _ _ H3)) as H4.
    destruct (_check_status_decode (set_TIMEOUT timeout_ms s3) (runs_connected _ _ _ H4))
      as (blocking & H5 & D5).
    destruct (_check_status (set_TIMEOUT timeout_ms s3)) as [o5 s5]. cbn [snd] in H5.
    pose proof (runs_set_TIMEOUT ROBODK_API_TIMEOUT s5 (runs_connected _ _ _ H5)) as H6.
    exists first, blocking. split; [|split; [exact D3|exact D5]].
    destruct (runs_trans _ _ _ _ _ H1
               (runs_trans _ _ _ _ _ H2
                 (runs_trans _ _ _ _ _ H3
                   (runs_trans _ _ _ _ _ H4 (runs_trans _ _ _ _ _ H5 H6))))) as [_ Ht].
    rewrite Ht. unfold WaitMove_request. cbn [app]. rewrite ?app_nil_r, <- ?app_assoc.
    reflexivity.
Qed.

(** On [fresh], a client just built and connected, a collision test
    returns with the timeout it was called with. *)
Lemma timeout_restored_witness :
  _TIMEOUT (snd (MoveJ_Test robot six_joints six_joints 4000 fresh)) = _TIMEOUT fresh.
Proof.
  exact (proj1 (proj2 (timeout_restored 20500 (bytes_of_string "RoboDK") 300000 8 fresh
                         (reach_new _ _ _ _ _ _ _ _ _)))
               robot six_joints six_joints 4000).
Defined.

(** On [fresh] the count and the status both come late: the wait of the
    blocking receive is made with one hour, the wait of the status decoding
    right after it with the second of before the call. *)
Example timeout_raised_and_restored :
  trace (snd (MoveJ_Test robot six_joints six_joints 4000 fresh))
  = trace fresh ++ MoveJ_Test_request robot six_joints six_joints 4000
    ++ [Waited 3600000 true; Taken (be_encode 4 0)]
    ++ [Waited 1000 true; Taken (be_encode 4 0)].
Proof. vm_compute. reflexivity. Qed.
